(** * Holly_RDiQ5000 classroom sound monitor

    A shallow embedding of the noise-classification and quiet-reward core of
    [Beta4_20260106153844.ino]: year-band thresholds and guardrails, the
    Welford room-calibration statistics, the timetable resolver, the sticky
    zone hysteresis and the LESSON branch of the control loop.

    Numeric model.
    - [unsigned long] and [uint32_t] are 32-bit on the target: they are
      integers in [Z] and every operation that can leave the range is
      wrapped with [u32].
    - [float] and [double] are one type [float]: a rational for a finite
      value, plus the two infinities and NaN.  Comparisons follow IEEE 754
      (every comparison with NaN is false).  The operations [fadd], [fsub],
      [fmul] and [fdiv] are exact on finite values, and the casts between
      [float] and [double] are the identity.  There is one zero: a division
      by zero takes its sign from the dividend alone.
    - Rounding is a separate layer: [binary64] rounds the exact result of a
      double operation to nearest, ties to even, with overflow to an
      infinity, and [updateRoomCalibration_fl] is [updateRoomCalibration]
      with every double operation rounded.  A statement about the value of
      an arithmetic result is made either of the rounded functions, with a
      tolerance, or of the exact ones, and then says so; statements about
      comparisons, control flow, integer state and which values are stored
      where do not depend on rounding.
    - [sqrt] comes from libm; it is the variable of section [Firmware].
    - Serial output, the preferences store, the network and the LED strip
      are left out; what an iteration renders is kept as a [Display] tag. *)

From Stdlib Require Import ZArith QArith Qabs Qround Qpower Lqa Lia Bool List String Ascii.
Import ListNotations.

(** ** Floating-point values *)

Inductive float : Type :=
| Fin (q : Q)
| PInf
| NInf
| NaN.

Definition Qltb (x y : Q) : bool := negb (Qle_bool y x).

Definition Qsign_pick (q : Q) (pos neg zero : float) : float :=
  if Qltb 0 q then pos else if Qltb q 0 then neg else zero.

Definition fopp (x : float) : float :=
  match x with
  | Fin q => Fin (- q)
  | PInf => NInf
  | NInf => PInf
  | NaN => NaN
  end.

Definition fadd (x y : float) : float :=
  match x, y with
  | NaN, _ | _, NaN => NaN
  | Fin a, Fin b => Fin (a + b)
  | PInf, NInf | NInf, PInf => NaN
  | PInf, _ | _, PInf => PInf
  | NInf, _ | _, NInf => NInf
  end.

Definition fsub (x y : float) : float := fadd x (fopp y).

Definition fmul (x y : float) : float :=
  match x, y with
  | NaN, _ | _, NaN => NaN
  | Fin a, Fin b => Fin (a * b)
  | PInf, Fin b | Fin b, PInf => Qsign_pick b PInf NInf NaN
  | NInf, Fin b | Fin b, NInf => Qsign_pick b NInf PInf NaN
  | PInf, PInf | NInf, NInf => PInf
  | PInf, NInf | NInf, PInf => NInf
  end.

Definition fdiv (x y : float) : float :=
  match x, y with
  | NaN, _ | _, NaN => NaN
  | Fin a, Fin b =>
      if Qeq_bool b 0 then Qsign_pick a PInf NInf NaN else Fin (a / b)
  | Fin _, PInf | Fin _, NInf => Fin 0
  | PInf, Fin b => if Qltb b 0 then NInf else PInf
  | NInf, Fin b => if Qltb b 0 then PInf else NInf
  | _, _ => NaN
  end.

(** [x < y] and [x <= y] of C on floats. *)
Definition flt (x y : float) : bool :=
  match x, y with
  | NaN, _ | _, NaN => false
  | Fin a, Fin b => Qltb a b
  | NInf, NInf | PInf, _ => false
  | NInf, _ => true
  | Fin _, PInf => true
  | Fin _, NInf => false
  end.

Definition fle (x y : float) : bool :=
  match x, y with
  | NaN, _ | _, NaN => false
  | Fin a, Fin b => Qle_bool a b
  | NInf, _ => true
  | _, PInf => true
  | PInf, _ => false
  | Fin _, NInf => false
  end.

Definition fgt (x y : float) : bool := flt y x.
Definition fge (x y : float) : bool := fle y x.

Definition isfinite (x : float) : bool :=
  match x with
  | Fin _ => true
  | _ => false
  end.

Definition isnan (x : float) : bool :=
  match x with
  | NaN => true
  | _ => false
  end.

Definition of_Z (z : Z) : float := Fin (inject_Z z).

Declare Scope float_scope.
Delimit Scope float_scope with float.
Bind Scope float_scope with float.
Infix "+" := fadd : float_scope.
Infix "-" := fsub : float_scope.
Infix "*" := fmul : float_scope.
Infix "/" := fdiv : float_scope.
Infix "<?" := flt : float_scope.
Infix "<=?" := fle : float_scope.
Infix ">?" := fgt : float_scope.
Infix ">=?" := fge : float_scope.

(** ** 32-bit unsigned arithmetic *)

Definition u32 (z : Z) : Z := z mod 2 ^ 32.
Definition uadd (a b : Z) : Z := u32 (a + b).
Definition usub (a b : Z) : Z := u32 (a - b).

(** [(long)x] of a 32-bit unsigned value. *)
Definition to_long (x : Z) : Z :=
  if (u32 x <? 2 ^ 31)%Z then u32 x else (u32 x - 2 ^ 32)%Z.

(** ** Tuning switches and constants *)

Definition LED_SMOOTH_ALPHA : float := Fin 0.08.
Definition HYS_GA_DEFAULT : float := Fin 0.7.
Definition HYS_AD_DEFAULT : float := Fin 0.9.
Definition HYS_DR_DEFAULT : float := Fin 1.0.

Definition REWARD_COOLDOWN_MS : Z := 3 * 60 * 1000.
Definition REWARD_BREAK_MARGIN_DB : float := Fin 1.5.
Definition SPIKE_PENALTY_MS : Z := 2 * 60 * 1000.
Definition REWARD_SPIKE_MARGIN_DB : float := Fin 8.0.
Definition MIN_LESSON_BEFORE_REWARD_MS : Z := 2 * 60 * 1000.

Definition SAMPLE_INTERVAL_MS : Z := 200.
Definition SILENCE_DURATION_MS : Z := 300000.
Definition SLEEP_DB_THRESHOLD : float := Fin 30.0.
Definition WAKE_DB_THRESHOLD : float := Fin 23.0.

Definition QUIET_REWARD_MS : Z := 120000.
Definition REWARD_DURATION_MS : Z := 3000.
Definition REWARD_LOG_WINDOW_MS : Z := 130000.

Definition ROOM_CAL_DAYS : Z := 5.
Definition ROOM_CAL_SECONDS : Z := ROOM_CAL_DAYS * 24 * 60 * 60.

Definition TIMETABLE_ENABLED : Z := 1.

(** ** Thresholds and year bands *)

Record Thresholds : Type := mkThresholds {
  greenMax : float;
  amberMax : float;
  redWarnDb : float
}.

Definition th3 (g a r : Q) : Thresholds := mkThresholds (Fin g) (Fin a) (Fin r).

Definition upper_ascii (c : ascii) : ascii :=
  let n := nat_of_ascii c in
  if (97 <=? n)%nat && (n <=? 122)%nat then ascii_of_nat (n - 32) else c.

Fixpoint toUpperCase (s : string) : string :=
  match s with
  | EmptyString => EmptyString
  | String c r => String (upper_ascii c) (toUpperCase r)
  end.

(** A [const char*] argument is [None] for the null pointer. *)
Definition thresholdsForBand (band : option string) : Thresholds :=
  match band with
  | None => th3 46 49 51
  | Some band =>
      let b := toUpperCase band in
      if String.eqb b "RY1" then th3 50 53 56
      else if String.eqb b "Y2Y3" then th3 49 52 55
      else if String.eqb b "Y4Y6" then th3 46 49 51
      else if String.eqb b "SEND" then th3 52 56 60
      else th3 46 49 51
  end.

Record Guardrails : Type := mkGuardrails {
  gMin : float; gMax : float;
  aMin : float; aMax : float;
  rMin : float; rMax : float
}.

Definition gr6 (g0 g1 a0 a1 r0 r1 : Q) : Guardrails :=
  mkGuardrails (Fin g0) (Fin g1) (Fin a0) (Fin a1) (Fin r0) (Fin r1).

Definition guardrailsForBand (band : option string) : Guardrails :=
  let b := toUpperCase (match band with Some s => s | None => EmptyString end) in
  if String.eqb b "SEND" then gr6 42 55 46 60 50 66
  else if String.eqb b "RY1" then gr6 40 52 44 56 48 60
  else if String.eqb b "Y2Y3" then gr6 38 52 42 56 46 60
  else if String.eqb b "Y4Y6" then gr6 40 54 45 58 49 62
  else gr6 39 52 44 56 48 60.

Definition clampf (v lo hi : float) : float :=
  if (v <? lo)%float then lo
  else if (v >? hi)%float then hi
  else v.

Definition normalizeThresholds (th : Thresholds) : Thresholds :=
  let GAP_GA := Fin 2.0 in
  let GAP_AR := Fin 2.0 in
  let amber :=
    if (amberMax th <? greenMax th + GAP_GA)%float
    then (greenMax th + GAP_GA)%float else amberMax th in
  let red :=
    if (redWarnDb th <? amber + GAP_AR)%float
    then (amber + GAP_AR)%float else redWarnDb th in
  mkThresholds (greenMax th) amber red.

Definition applyGuardrails (th : Thresholds) (band : option string) : Thresholds :=
  let gr := guardrailsForBand band in
  normalizeThresholds
    (mkThresholds (clampf (greenMax th) (gMin gr) (gMax gr))
                  (clampf (amberMax th) (aMin gr) (aMax gr))
                  (clampf (redWarnDb th) (rMin gr) (rMax gr))).

(** ** Room calibration state and running statistics *)

Definition hasValidTime (t : Z) : bool := (t >? 1700000000)%Z.

Record RoomCal : Type := mkRoomCal {
  roomCalEnabled : bool;
  roomCalComplete : bool;
  roomCalStartEpoch : Z;
  calCount : Z;
  calMean : float;
  calM2 : float;
  calMinDb : float;
  calMaxDb : float;
  CAL_TH : Thresholds
}.

Definition set_roomCalComplete (b : bool) (c : RoomCal) : RoomCal :=
  mkRoomCal (roomCalEnabled c) b (roomCalStartEpoch c) (calCount c)
            (calMean c) (calM2 c) (calMinDb c) (calMaxDb c) (CAL_TH c).

Definition set_roomCalStartEpoch (t : Z) (c : RoomCal) : RoomCal :=
  mkRoomCal (roomCalEnabled c) (roomCalComplete c) t (calCount c)
            (calMean c) (calM2 c) (calMinDb c) (calMaxDb c) (CAL_TH c).

Definition set_CAL_TH (th : Thresholds) (c : RoomCal) : RoomCal :=
  mkRoomCal (roomCalEnabled c) (roomCalComplete c) (roomCalStartEpoch c)
            (calCount c) (calMean c) (calM2 c) (calMinDb c) (calMaxDb c) th.

Definition set_stats (n : Z) (mean m2 mn mx : float) (c : RoomCal) : RoomCal :=
  mkRoomCal (roomCalEnabled c) (roomCalComplete c) (roomCalStartEpoch c)
            n mean m2 mn mx (CAL_TH c).

Definition resetRoomCalibration (yearBand : string) (nowEpoch : Z) (c : RoomCal)
  : RoomCal :=
  let c := set_roomCalComplete false c in
  let c := set_roomCalStartEpoch (if hasValidTime nowEpoch then nowEpoch else 0%Z) c in
  let c := set_stats 0 (Fin 0) (Fin 0) (Fin 9999) (Fin (-9999)) c in
  let c := set_CAL_TH (thresholdsForBand (Some yearBand)) c in
  set_CAL_TH (applyGuardrails (CAL_TH c) (Some yearBand)) c.

Definition updateRoomCalibration (avgDB : float) (c : RoomCal) : RoomCal :=
  if negb (isfinite avgDB) then c
  else
    let count := u32 (calCount c + 1) in
    let x := avgDB in
    let delta := (x - calMean c)%float in
    let mean := (calMean c + delta / of_Z count)%float in
    let delta2 := (x - mean)%float in
    let m2 := (calM2 c + delta * delta2)%float in
    let mn := if (avgDB <? calMinDb c)%float then avgDB else calMinDb c in
    let mx := if (avgDB >? calMaxDb c)%float then avgDB else calMaxDb c in
    set_stats count mean m2 mn mx c.

Definition calibrationWindowActive (nowEpoch : Z) (c : RoomCal) : bool :=
  if negb (roomCalEnabled c) then false
  else if roomCalComplete c then false
  else if negb (hasValidTime nowEpoch) then false
  else if negb (hasValidTime (roomCalStartEpoch c)) then false
  else (u32 (nowEpoch - roomCalStartEpoch c) <? ROOM_CAL_SECONDS)%Z.

(** ** Timetable *)

Inductive WindowState : Type := OFF | LESSON | ASSEMBLY | BREAK | LUNCH.

Definition WindowState_eqb (a b : WindowState) : bool :=
  match a, b with
  | OFF, OFF | LESSON, LESSON | ASSEMBLY, ASSEMBLY
  | BREAK, BREAK | LUNCH, LUNCH => true
  | _, _ => false
  end.

Record Timetable : Type := mkTimetable {
  useTimetable : bool;
  t_day_start : string;
  t_break1_start : string;
  t_break1_end : string;
  t_lunch_start : string;
  t_lunch_end : string;
  t_day_end : string
}.

(** [sscanf(hhmm, "%d:%d", &h, &m)]: each [%d] skips white space, takes an
    optional sign and at least one decimal digit. *)
Definition is_space (c : ascii) : bool :=
  let n := nat_of_ascii c in
  (n =? 32)%nat || ((9 <=? n)%nat && (n <=? 13)%nat).

Definition digit_of (c : ascii) : option Z :=
  let n := nat_of_ascii c in
  if (48 <=? n)%nat && (n <=? 57)%nat then Some (Z.of_nat (n - 48)) else None.

Fixpoint skip_space (s : string) : string :=
  match s with
  | String c r => if is_space c then skip_space r else s
  | EmptyString => s
  end.

Fixpoint scan_digits (acc : Z) (s : string) : Z * string :=
  match s with
  | String c r =>
      match digit_of c with
      | Some d => scan_digits (acc * 10 + d) r
      | None => (acc, s)
      end
  | EmptyString => (acc, s)
  end.

Definition scan_unsigned (s : string) : option (Z * string) :=
  match s with
  | String c _ =>
      match digit_of c with
      | Some _ => Some (scan_digits 0 s)
      | None => None
      end
  | EmptyString => None
  end.

Definition scan_d (s : string) : option (Z * string) :=
  match skip_space s with
  | String "-"%char r =>
      match scan_unsigned r with
      | Some (v, rest) => Some ((- v)%Z, rest)
      | None => None
      end
  | String "+"%char r => scan_unsigned r
  | s' => scan_unsigned s'
  end.

(** The number of conversions assigned, with the two values. *)
Definition sscanf_d_colon_d (s : string) : Z * Z * Z :=
  match scan_d s with
  | None => (0, 0, 0)%Z
  | Some (h, String ":"%char r) =>
      match scan_d r with
      | Some (m, _) => (2, h, m)%Z
      | None => (1, h, 0)%Z
      end
  | Some (h, _) => (1, h, 0)%Z
  end.

Definition parseTimeToMins (hhmm : string) : Z :=
  let len := Z.of_nat (String.length hhmm) in
  if ((len <? 4) || (len >? 5))%Z then (-1)%Z
  else
    let '(n, h, m) := sscanf_d_colon_d hhmm in
    if negb (n =? 2)%Z then (-1)%Z
    else if ((h <? 0) || (h >? 23) || (m <? 0) || (m >? 59))%Z then (-1)%Z
    else (h * 60 + m)%Z.

Definition getWindowState (tt : Timetable) (wday h m : Z) : WindowState :=
  if negb (useTimetable tt) then LESSON
  else if (TIMETABLE_ENABLED =? 0)%Z then LESSON
  else if ((wday <? 1) || (wday >? 5))%Z then OFF
  else
    let mins := (h * 60 + m)%Z in
    let dayStart := parseTimeToMins (t_day_start tt) in
    let break1Start := parseTimeToMins (t_break1_start tt) in
    let break1End := parseTimeToMins (t_break1_end tt) in
    let lunchStart := parseTimeToMins (t_lunch_start tt) in
    let lunchEnd := parseTimeToMins (t_lunch_end tt) in
    let dayEnd := parseTimeToMins (t_day_end tt) in
    let configOk :=
      ((dayStart >=? 0) && (break1Start >=? 0) && (break1End >=? 0)
       && (lunchStart >=? 0) && (lunchEnd >=? 0) && (dayEnd >=? 0)
       && (dayStart <? break1Start) && (break1Start <? break1End)
       && (break1End <=? lunchStart) && (lunchStart <? lunchEnd)
       && (lunchEnd <? dayEnd))%Z in
    if negb configOk then
      if ((mins >=? 530) && (mins <? 625))%Z then LESSON
      else if ((mins >=? 625) && (mins <? 645))%Z then ASSEMBLY
      else if ((mins >=? 645) && (mins <? 660))%Z then BREAK
      else if ((mins >=? 660) && (mins <? 720))%Z then LESSON
      else if ((mins >=? 720) && (mins <? 780))%Z then LUNCH
      else if ((mins >=? 780) && (mins <? 920))%Z then LESSON
      else OFF
    else if ((mins <? dayStart) || (mins >=? dayEnd))%Z then OFF
    else if (mins <? break1Start)%Z then LESSON
    else if (mins <? break1End)%Z then BREAK
    else if (mins <? lunchStart)%Z then LESSON
    else if (mins <? lunchEnd)%Z then LUNCH
    else LESSON.

(** ** Colour zones and sticky hysteresis *)

Inductive ColorZone : Type := Z_GREEN | Z_AMBER | Z_DEEP | Z_RED.

Definition isSendClassroom (yearBand : string) : bool := String.eqb yearBand "SEND".

Definition classifyZone (th : Thresholds) (dB : float) : ColorZone :=
  if (dB <=? greenMax th)%float then Z_GREEN
  else if (dB <=? amberMax th)%float then Z_AMBER
  else if (dB <=? redWarnDb th)%float then Z_DEEP
  else Z_RED.

(** The globals read by the C function, [yearBand] and [ACTIVE_TH], are its
    first two arguments here. *)
Definition applyStickyHysteresis (yearBand : string) (th : Thresholds)
  (current : ColorZone) (dB : float) : ColorZone :=
  let hysGA := if isSendClassroom yearBand then Fin 1.2 else HYS_GA_DEFAULT in
  let hysAD := if isSendClassroom yearBand then Fin 1.5 else HYS_AD_DEFAULT in
  let hysDR := HYS_DR_DEFAULT in
  match current with
  | Z_GREEN =>
      if (dB >? greenMax th + hysGA)%float then Z_AMBER else Z_GREEN
  | Z_AMBER =>
      if (dB <? greenMax th - hysGA)%float then Z_GREEN
      else if (dB >? amberMax th + hysAD)%float then Z_DEEP
      else Z_AMBER
  | Z_DEEP =>
      if (dB <? amberMax th - hysAD)%float then Z_AMBER
      else if (dB >? redWarnDb th + hysDR)%float then Z_RED
      else Z_DEEP
  | Z_RED =>
      if (dB <? redWarnDb th - hysDR)%float then Z_DEEP else Z_RED
  end.

(** ** Quiet-reward state *)

Record Reward : Type := mkReward {
  quietStartMs : Z;
  rewardStartMs : Z;
  rewardShowing : bool;
  rewardActiveForLog : bool;
  rewardLogUntilMs : Z;
  rewardCooldownUntilMs : Z;
  penaltyUntilMs : Z;
  needsResetAboveGood : bool;
  lessonStartMs : Z
}.

Definition set_quietStartMs (v : Z) (r : Reward) : Reward :=
  mkReward v (rewardStartMs r) (rewardShowing r) (rewardActiveForLog r)
           (rewardLogUntilMs r) (rewardCooldownUntilMs r) (penaltyUntilMs r)
           (needsResetAboveGood r) (lessonStartMs r).

Definition set_rewardStartMs (v : Z) (r : Reward) : Reward :=
  mkReward (quietStartMs r) v (rewardShowing r) (rewardActiveForLog r)
           (rewardLogUntilMs r) (rewardCooldownUntilMs r) (penaltyUntilMs r)
           (needsResetAboveGood r) (lessonStartMs r).

Definition set_rewardShowing (v : bool) (r : Reward) : Reward :=
  mkReward (quietStartMs r) (rewardStartMs r) v (rewardActiveForLog r)
           (rewardLogUntilMs r) (rewardCooldownUntilMs r) (penaltyUntilMs r)
           (needsResetAboveGood r) (lessonStartMs r).

Definition set_rewardActiveForLog (v : bool) (r : Reward) : Reward :=
  mkReward (quietStartMs r) (rewardStartMs r) (rewardShowing r) v
           (rewardLogUntilMs r) (rewardCooldownUntilMs r) (penaltyUntilMs r)
           (needsResetAboveGood r) (lessonStartMs r).

Definition set_rewardLogUntilMs (v : Z) (r : Reward) : Reward :=
  mkReward (quietStartMs r) (rewardStartMs r) (rewardShowing r)
           (rewardActiveForLog r) v (rewardCooldownUntilMs r) (penaltyUntilMs r)
           (needsResetAboveGood r) (lessonStartMs r).

Definition set_rewardCooldownUntilMs (v : Z) (r : Reward) : Reward :=
  mkReward (quietStartMs r) (rewardStartMs r) (rewardShowing r)
           (rewardActiveForLog r) (rewardLogUntilMs r) v (penaltyUntilMs r)
           (needsResetAboveGood r) (lessonStartMs r).

Definition set_penaltyUntilMs (v : Z) (r : Reward) : Reward :=
  mkReward (quietStartMs r) (rewardStartMs r) (rewardShowing r)
           (rewardActiveForLog r) (rewardLogUntilMs r) (rewardCooldownUntilMs r)
           v (needsResetAboveGood r) (lessonStartMs r).

Definition set_needsResetAboveGood (v : bool) (r : Reward) : Reward :=
  mkReward (quietStartMs r) (rewardStartMs r) (rewardShowing r)
           (rewardActiveForLog r) (rewardLogUntilMs r) (rewardCooldownUntilMs r)
           (penaltyUntilMs r) v (lessonStartMs r).

Definition set_lessonStartMs (v : Z) (r : Reward) : Reward :=
  mkReward (quietStartMs r) (rewardStartMs r) (rewardShowing r)
           (rewardActiveForLog r) (rewardLogUntilMs r) (rewardCooldownUntilMs r)
           (penaltyUntilMs r) (needsResetAboveGood r) v.

(** ** The globals of the sketch *)

Inductive DeviceMode : Type := MODE_NORMAL | MODE_HOLLY_HOP.

Definition is_normal (m : DeviceMode) : bool :=
  match m with MODE_NORMAL => true | MODE_HOLLY_HOP => false end.

Record Globals : Type := mkGlobals {
  yearBand : string;
  ACTIVE_TH : Thresholds;
  reward : Reward;
  cal : RoomCal;
  timetable : Timetable;
  inSleepMode : bool;
  silenceStart : Z;
  lastSampleTime : Z;
  ledDB : float;
  hasNewSampleForLed : bool;
  currentZone : ColorZone;
  lastWs : WindowState;
  lastCalSampleMs : Z
}.

Definition set_ACTIVE_TH (v : Thresholds) (g : Globals) : Globals :=
  mkGlobals (yearBand g) v (reward g) (cal g) (timetable g) (inSleepMode g)
            (silenceStart g) (lastSampleTime g) (ledDB g) (hasNewSampleForLed g)
            (currentZone g) (lastWs g) (lastCalSampleMs g).

Definition set_reward (v : Reward) (g : Globals) : Globals :=
  mkGlobals (yearBand g) (ACTIVE_TH g) v (cal g) (timetable g) (inSleepMode g)
            (silenceStart g) (lastSampleTime g) (ledDB g) (hasNewSampleForLed g)
            (currentZone g) (lastWs g) (lastCalSampleMs g).

Definition set_cal (v : RoomCal) (g : Globals) : Globals :=
  mkGlobals (yearBand g) (ACTIVE_TH g) (reward g) v (timetable g) (inSleepMode g)
            (silenceStart g) (lastSampleTime g) (ledDB g) (hasNewSampleForLed g)
            (currentZone g) (lastWs g) (lastCalSampleMs g).

Definition set_inSleepMode (v : bool) (g : Globals) : Globals :=
  mkGlobals (yearBand g) (ACTIVE_TH g) (reward g) (cal g) (timetable g) v
            (silenceStart g) (lastSampleTime g) (ledDB g) (hasNewSampleForLed g)
            (currentZone g) (lastWs g) (lastCalSampleMs g).

Definition set_silenceStart (v : Z) (g : Globals) : Globals :=
  mkGlobals (yearBand g) (ACTIVE_TH g) (reward g) (cal g) (timetable g)
            (inSleepMode g) v (lastSampleTime g) (ledDB g) (hasNewSampleForLed g)
            (currentZone g) (lastWs g) (lastCalSampleMs g).

Definition set_lastSampleTime (v : Z) (g : Globals) : Globals :=
  mkGlobals (yearBand g) (ACTIVE_TH g) (reward g) (cal g) (timetable g)
            (inSleepMode g) (silenceStart g) v (ledDB g) (hasNewSampleForLed g)
            (currentZone g) (lastWs g) (lastCalSampleMs g).

Definition set_ledDB (v : float) (g : Globals) : Globals :=
  mkGlobals (yearBand g) (ACTIVE_TH g) (reward g) (cal g) (timetable g)
            (inSleepMode g) (silenceStart g) (lastSampleTime g) v
            (hasNewSampleForLed g) (currentZone g) (lastWs g) (lastCalSampleMs g).

Definition set_hasNewSampleForLed (v : bool) (g : Globals) : Globals :=
  mkGlobals (yearBand g) (ACTIVE_TH g) (reward g) (cal g) (timetable g)
            (inSleepMode g) (silenceStart g) (lastSampleTime g) (ledDB g) v
            (currentZone g) (lastWs g) (lastCalSampleMs g).

Definition set_currentZone (v : ColorZone) (g : Globals) : Globals :=
  mkGlobals (yearBand g) (ACTIVE_TH g) (reward g) (cal g) (timetable g)
            (inSleepMode g) (silenceStart g) (lastSampleTime g) (ledDB g)
            (hasNewSampleForLed g) v (lastWs g) (lastCalSampleMs g).

Definition set_lastWs (v : WindowState) (g : Globals) : Globals :=
  mkGlobals (yearBand g) (ACTIVE_TH g) (reward g) (cal g) (timetable g)
            (inSleepMode g) (silenceStart g) (lastSampleTime g) (ledDB g)
            (hasNewSampleForLed g) (currentZone g) v (lastCalSampleMs g).

Definition set_lastCalSampleMs (v : Z) (g : Globals) : Globals :=
  mkGlobals (yearBand g) (ACTIVE_TH g) (reward g) (cal g) (timetable g)
            (inSleepMode g) (silenceStart g) (lastSampleTime g) (ledDB g)
            (hasNewSampleForLed g) (currentZone g) (lastWs g) v.

(** The values the globals are initialised with, after [setup] has run with
    empty preferences at [millis() = bootMs]: band "Y2Y3", calibration off. *)
Definition default_timetable : Timetable :=
  mkTimetable true "08:50" "10:30" "10:45" "12:00" "13:00" "15:20".

Definition initial_reward (bootMs : Z) : Reward :=
  mkReward 0 0 false false 0 0 0 false bootMs.

Definition initial_cal : RoomCal :=
  mkRoomCal false false 0 0 (Fin 0) (Fin 0) (Fin 9999) (Fin (-9999))
            (applyGuardrails (thresholdsForBand (Some "Y2Y3"%string)) (Some "Y2Y3"%string)).

Definition initial_globals (bootMs : Z) : Globals :=
  mkGlobals "Y2Y3"
            (applyGuardrails (thresholdsForBand (Some "Y2Y3"%string)) (Some "Y2Y3"%string))
            (initial_reward bootMs) initial_cal default_timetable
            false 0 0 (Fin 35) false Z_GREEN OFF 0.

(** ** One iteration of [loop]

    What one iteration reads from outside the modelled state: the clock
    ([millis], [time], [localtime]), the rolling average returned by
    [calculateAverage] and the device mode left by the button handling. *)

Record Tick : Type := mkTick {
  nowMs : Z;
  wday : Z;
  hour : Z;
  minute : Z;
  avgDB : float;
  deviceMode : DeviceMode;
  nowEpoch : Z;
  calMs : Z;
  rewardMs : Z
}.

(** What the iteration rendered, and whether [logQuietRewardEvent] ran. *)
Inductive Display : Type :=
| ShowNothing
| ShowSleepRainbow
| ShowQuietReward
| ShowLeds
| ShowBreathingBlue
| ShowOff.

Record LoopOut : Type := mkLoopOut {
  granted : bool;
  display : Display
}.

Definition postInterval : Z := 60000.

(** The quiet-reward block of [loop]; the boolean is [true] when the reward
    is granted and [loop] returns at once. *)
Definition rewardLogic (th : Thresholds) (now : Z) (avg : float) (r : Reward)
  : Reward * bool :=
  let goodDb := greenMax th in
  let breakDb := (goodDb + REWARD_BREAK_MARGIN_DB)%float in
  let spikeDb := (goodDb + REWARD_SPIKE_MARGIN_DB)%float in
  if (usub now (lessonStartMs r) <? MIN_LESSON_BEFORE_REWARD_MS)%Z then
    (set_quietStartMs 0 r, false)
  else if (avg >=? spikeDb)%float then
    let r := set_penaltyUntilMs (uadd now SPIKE_PENALTY_MS) r in
    let r := set_quietStartMs 0 r in
    (set_needsResetAboveGood true r, false)
  else
    let r := if (avg >? goodDb)%float then set_needsResetAboveGood false r else r in
    if ((now <? rewardCooldownUntilMs r) || (now <? penaltyUntilMs r))%Z then
      (set_quietStartMs 0 r, false)
    else
      let r :=
        if needsResetAboveGood r then
          if (avg >? goodDb)%float then set_needsResetAboveGood false r
          else set_quietStartMs 0 r
        else r in
      if negb (needsResetAboveGood r) then
        if (avg <=? goodDb)%float then
          let r := if (quietStartMs r =? 0)%Z then set_quietStartMs now r else r in
          if (usub now (quietStartMs r) >=? QUIET_REWARD_MS)%Z then
            let r := set_rewardCooldownUntilMs (uadd now REWARD_COOLDOWN_MS) r in
            let r := set_needsResetAboveGood true r in
            let r := set_rewardActiveForLog true r in
            let r := set_rewardLogUntilMs (uadd now REWARD_LOG_WINDOW_MS) r in
            let r := set_rewardShowing true r in
            let r := set_rewardStartMs now r in
            (set_quietStartMs 0 r, true)
          else (r, false)
        else if (avg >=? breakDb)%float then (set_quietStartMs 0 r, false)
        else (r, false)
      else (r, false).

Section Firmware.

(** [sqrt] of libm. *)
Variable sqrt : float -> float.

Definition computeCalibratedThresholdsFromStats (c : RoomCal) (band : option string)
  : Thresholds :=
  if (calCount c <? 60)%Z then applyGuardrails (thresholdsForBand band) band
  else
    let variance :=
      if (calCount c >? 1)%Z then (calM2 c / of_Z (u32 (calCount c - 1)))%float
      else Fin 0 in
    let variance := if (variance <? Fin 0)%float then Fin 0 else variance in
    let sd := sqrt variance in
    let th := mkThresholds (calMean c + Fin 0.90 * sd)%float
                           (calMean c + Fin 1.60 * sd)%float
                           (calMean c + Fin 2.40 * sd)%float in
    let th :=
      if (sd <? Fin 1.0)%float then
        mkThresholds (calMean c + Fin 1.0)%float
                     (calMean c + Fin 3.0)%float
                     (calMean c + Fin 6.0)%float
      else th in
    applyGuardrails th band.

Definition finalizeRoomCalibrationIfDue (epoch : Z) (g : Globals) : Globals :=
  let c := cal g in
  if negb (roomCalEnabled c) then g
  else if roomCalComplete c then g
  else if negb (hasValidTime epoch) || negb (hasValidTime (roomCalStartEpoch c)) then g
  else
    let elapsed := u32 (epoch - roomCalStartEpoch c) in
    if (elapsed <? ROOM_CAL_SECONDS)%Z then g
    else
      let c := set_CAL_TH (computeCalibratedThresholdsFromStats c (Some (yearBand g))) c in
      let c := set_roomCalComplete true c in
      set_ACTIVE_TH (CAL_TH c) (set_cal c g).

(** The window state this iteration computes. *)
Definition tick_ws (t : Tick) (g : Globals) : WindowState :=
  getWindowState (timetable g) (wday t) (hour t) (minute t).

(** Sample tick, LESSON edge, LED smoothing and zone hysteresis. *)
Definition loop_sense (t : Tick) (g : Globals) : Globals :=
  let now := u32 (nowMs t) in
  let g :=
    if (usub now (lastSampleTime g) >=? SAMPLE_INTERVAL_MS)%Z then
      set_hasNewSampleForLed true (set_lastSampleTime now g)
    else g in
  let ws := tick_ws t g in
  let g :=
    if WindowState_eqb ws LESSON && negb (WindowState_eqb (lastWs g) LESSON) then
      set_reward (set_quietStartMs 0 (set_lessonStartMs now (reward g))) g
    else g in
  let g := set_lastWs ws g in
  let g :=
    if hasNewSampleForLed g then
      set_hasNewSampleForLed false
        (set_ledDB ((Fin 1.0 - LED_SMOOTH_ALPHA) * ledDB g
                    + LED_SMOOTH_ALPHA * avgDB t)%float g)
    else g in
  set_currentZone
    (applyStickyHysteresis (yearBand g) (ACTIVE_TH g) (currentZone g) (ledDB g)) g.

(** Sleep detection at the head of the LESSON branch. *)
Definition loop_sleep (t : Tick) (g : Globals) : Globals :=
  let now := u32 (nowMs t) in
  let g :=
    if (avgDB t <? SLEEP_DB_THRESHOLD)%float then
      let g := if (silenceStart g =? 0)%Z then set_silenceStart now g else g in
      if negb (inSleepMode g) && (usub now (silenceStart g) >=? SILENCE_DURATION_MS)%Z
      then set_inSleepMode true g else g
    else set_silenceStart 0 g in
  if (avgDB t >=? WAKE_DB_THRESHOLD)%float && inSleepMode g
  then set_inSleepMode false g else g.

(** Room calibration in the LESSON branch: auto-start, sampling, finalising
    and adoption of the calibrated thresholds. *)
Definition loop_calibrate (t : Tick) (g : Globals) : Globals :=
  let epoch := nowEpoch t in
  let c := cal g in
  let g :=
    if roomCalEnabled c && negb (roomCalComplete c)
       && negb (hasValidTime (roomCalStartEpoch c)) && hasValidTime epoch
    then set_cal (set_roomCalStartEpoch epoch c) g else g in
  let g :=
    if calibrationWindowActive epoch (cal g)
       && negb (rewardShowing (reward g)) && is_normal (deviceMode t)
       && (usub (u32 (calMs t)) (lastCalSampleMs g) >=? postInterval)%Z
    then set_lastCalSampleMs (u32 (calMs t))
           (set_cal (updateRoomCalibration (avgDB t) (cal g)) g)
    else g in
  let g := finalizeRoomCalibrationIfDue epoch g in
  if roomCalEnabled (cal g) && roomCalComplete (cal g) then
    let c := set_CAL_TH (applyGuardrails (CAL_TH (cal g)) (Some (yearBand g))) (cal g) in
    set_ACTIVE_TH (CAL_TH c) (set_cal c g)
  else g.

(** The state in which the quiet-reward block of this iteration runs. *)
Definition loop_before_reward (t : Tick) (g : Globals) : Globals :=
  loop_calibrate t (loop_sleep t (loop_sense t g)).

(** Reward animation, log-visibility flag and LED output. *)
Definition loop_display (t : Tick) (g : Globals) : Globals * LoopOut :=
  let now := u32 (nowMs t) in
  let r := reward g in
  if rewardShowing r
     && (usub (u32 (rewardMs t)) (rewardStartMs r) <? REWARD_DURATION_MS)%Z
  then (g, mkLoopOut false ShowQuietReward)
  else
    let r :=
      if rewardShowing r then set_quietStartMs 0 (set_rewardShowing false r)
      else r in
    let r :=
      if rewardActiveForLog r && (to_long (usub now (rewardLogUntilMs r)) >=? 0)%Z
      then set_rewardActiveForLog false r else r in
    (set_reward r g, mkLoopOut false ShowLeds).

Definition loop (t : Tick) (g : Globals) : Globals * LoopOut :=
  let now := u32 (nowMs t) in
  let ws := tick_ws t g in
  let g := loop_sense t g in
  match ws with
  | LESSON =>
      let g := loop_sleep t g in
      if inSleepMode g then (g, mkLoopOut false ShowSleepRainbow)
      else
        let g := loop_calibrate t g in
        if negb (rewardShowing (reward g)) && is_normal (deviceMode t) then
          let '(r, won) := rewardLogic (ACTIVE_TH g) now (avgDB t) (reward g) in
          if won then (set_reward r g, mkLoopOut true ShowNothing)
          else loop_display t (set_reward r g)
        else loop_display t g
  | ASSEMBLY | BREAK | LUNCH => (g, mkLoopOut false ShowBreathingBlue)
  | OFF => (g, mkLoopOut false ShowOff)
  end.

(** Successive iterations: the states before each iteration and the outputs. *)
Fixpoint run (ts : list Tick) (g : Globals) : Globals * list LoopOut :=
  match ts with
  | [] => (g, [])
  | t :: ts' =>
      let '(g1, o) := loop t g in
      let '(g2, os) := run ts' g1 in
      (g2, o :: os)
  end.

End Firmware.

(** ** Definitions used by the statements *)

(** No field of the triple is NaN. *)
Definition no_nan (th : Thresholds) : bool :=
  negb (isnan (greenMax th)) && negb (isnan (amberMax th))
  && negb (isnan (redWarnDb th)).

(** [lo <= v <= hi] as the C comparisons decide it. *)
Definition within (v lo hi : float) : bool := (lo <=? v)%float && (v <=? hi)%float.

Definition in_guardrails (th : Thresholds) (gr : Guardrails) : bool :=
  within (greenMax th) (gMin gr) (gMax gr)
  && within (amberMax th) (aMin gr) (aMax gr)
  && within (redWarnDb th) (rMin gr) (rMax gr).

(** The gap invariant of the specification. *)
Definition gap_invariant (th : Thresholds) : bool :=
  (greenMax th <? amberMax th - Fin 1)%float
  && (amberMax th <? redWarnDb th - Fin 1)%float.

(** Severity order of the zones. *)
Definition zone_rank (z : ColorZone) : Z :=
  match z with
  | Z_GREEN => 0
  | Z_AMBER => 1
  | Z_DEEP => 2
  | Z_RED => 3
  end.

(** [n] applications of the hysteresis at one value, each fed the zone the
    previous one returned. *)
Fixpoint iterateHysteresis (n : nat) (yearBand : string) (th : Thresholds)
  (z : ColorZone) (dB : float) : ColorZone :=
  match n with
  | O => z
  | S n' => iterateHysteresis n' yearBand th (applyStickyHysteresis yearBand th z dB) dB
  end.

(** Samples fed in order to [updateRoomCalibration]. *)
Definition feedCalibration (samples : list float) (c : RoomCal) : RoomCal :=
  fold_left (fun c x => updateRoomCalibration x c) samples c.

Definition Qsum (l : list Q) : Q := fold_right Qplus 0 l.

Definition Qlen (l : list Q) : Q := inject_Z (Z.of_nat (List.length l)).

(** Arithmetic mean and closed-form unbiased sample variance. *)
Definition arithmetic_mean (l : list Q) : Q := Qsum l / Qlen l.

Definition sample_variance (l : list Q) : Q :=
  Qsum (map (fun x => (x - arithmetic_mean l) * (x - arithmetic_mean l)) l)
  / (Qlen l - 1).

Definition Qsumsq (l : list Q) : Q := Qsum (map (fun x => x * x) l).

(** The running state after the samples [l]: the count, and the mean and
    [M2] as rationals tied to the sums of the samples and of their squares. *)
Definition welford_state (l : list Q) (c : RoomCal) : Prop :=
  calCount c = Z.of_nat (List.length l)
  /\ exists m q : Q,
       calMean c = Fin m /\ calM2 c = Fin q
       /\ (m * Qlen l == Qsum l)%Q
       /\ (q * Qlen l == Qsumsq l * Qlen l - Qsum l * Qsum l)%Q
       /\ (l = [] -> (m == 0)%Q /\ (q == 0)%Q).

(** ** The statistics in floating point

    [calMean] and [calM2] are doubles, and each operation of
    [updateRoomCalibration] on them rounds its result to a double.  Below,
    [rd] is that rounding, a function on [float]; the conversions
    [(double)avgDB] and [(double)calCount] are exact and are not rounded.
    Products and sums are rounded separately: the target has no fused
    multiply-add for doubles. *)

(** [updateRoomCalibration] with each double operation rounded by [rd]. *)
Definition updateRoomCalibration_fl (rd : float -> float) (avgDB : float)
  (c : RoomCal) : RoomCal :=
  if negb (isfinite avgDB) then c
  else
    let count := u32 (calCount c + 1) in
    let x := avgDB in
    let delta := rd (x - calMean c)%float in
    let mean := rd (calMean c + rd (delta / of_Z count))%float in
    let delta2 := rd (x - mean)%float in
    let m2 := rd (calM2 c + rd (delta * delta2))%float in
    let mn := if (avgDB <? calMinDb c)%float then avgDB else calMinDb c in
    let mx := if (avgDB >? calMaxDb c)%float then avgDB else calMaxDb c in
    set_stats count mean m2 mn mx c.

Definition feedCalibration_fl (rd : float -> float) (samples : list float)
  (c : RoomCal) : RoomCal :=
  fold_left (fun c x => updateRoomCalibration_fl rd x c) samples c.

(** The variance as [computeCalibratedThresholdsFromStats] divides it out,
    [calM2 / (double)(calCount - 1)], rounded. *)
Definition variance_fl (rd : float -> float) (c : RoomCal) : float :=
  rd (calM2 c / of_Z (u32 (calCount c - 1)))%float.

(** *** binary64

    Round-to-nearest, ties to even.  [Qlog2_floor q] is the exponent e of a
    positive [q], 2^e <= q < 2^(e+1); a finite double is a multiple of
    2^(e - 52), or of 2^-1074 below the normal range. *)
Definition Qlog2_floor (q : Q) : Z :=
  let e0 := (Z.log2 (Qnum q) - Z.log2 (Zpos (Qden q)))%Z in
  if Qle_bool (2 ^ e0) q then e0 else (e0 - 1)%Z.

Definition round_half_even (y : Q) : Z :=
  let f := Qfloor y in
  let h := y - inject_Z f in
  if Qltb h (1 # 2) then f
  else if Qltb (1 # 2) h then (f + 1)%Z
  else if Z.even f then f else (f + 1)%Z.

(** The nearest multiple of the unit in the last place. *)
Definition round_binary64 (q : Q) : Q :=
  if Qeq_bool q 0 then 0
  else
    let e := Qlog2_floor (Qabs q) in
    let t := (Z.max e (-1022) - 52)%Z in
    inject_Z (round_half_even (q / 2 ^ t)) * 2 ^ t.

(** Unit roundoff, underflow term and largest finite value of binary64, and
    the magnitude from which round-to-nearest overflows: half a unit in the
    last place above the largest finite value. *)
Definition binary64_u : Q := 1 # 2 ^ 53.
Definition binary64_eta : Q := 1 # 2 ^ 1075.
Definition binary64_max : Q := (2 - (1 # 2 ^ 52)) * 2 ^ 1023.
Definition binary64_overflow : Q := (2 - (1 # 2 ^ 53)) * 2 ^ 1023.

(** The result of a double operation whose exact value is [x]: rounded to
    nearest where finite, an infinity of the same sign on overflow. *)
Definition binary64 (x : float) : float :=
  match x with
  | Fin q =>
      if Qltb (Qabs q) binary64_overflow then Fin (round_binary64 q)
      else if Qltb 0 q then PInf else NInf
  | _ => x
  end.

(** *** Rounding model

    The standard model of a floating-point format with unit roundoff [u],
    underflow term [eta] and largest finite magnitude [R]: a value of
    magnitude at most [R] is rounded with relative error at most [u], up to
    [eta] in absolute terms. *)
Definition rounding_model (u eta R : Q) (rnd : Q -> Q) : Prop :=
  forall q : Q, Qabs q <= R -> Qabs (rnd q - q) <= u * Qabs q + eta.

(** [rd] rounds the finite values of magnitude at most [R] to finite
    values, by [rnd]. *)
Definition rounds_finite (R : Q) (rd : float -> float) (rnd : Q -> Q) : Prop :=
  forall q : Q, Qabs q <= R -> rd (Fin q) = Fin (rnd q).

(** The exact statistics [ce] and the rounded ones [cf] after the samples
    [l], all of magnitude at most [B], on the way to [n] samples: the exact
    mean and M2 are bounded, and the rounded ones are within a distance of
    them that grows with each sample. *)
Definition welford_error_state (u B n : Q) (l : list Q) (ce cf : RoomCal) : Prop :=
  calCount ce = Z.of_nat (List.length l) /\ calCount cf = Z.of_nat (List.length l)
  /\ exists m s M S : Q,
       calMean ce = Fin m /\ calM2 ce = Fin s
       /\ calMean cf = Fin M /\ calM2 cf = Fin S
       /\ Qabs m <= B /\ Qabs s <= 4 * Qlen l * (B * B)
       /\ Qabs (M - m) <= 17 * Qlen l * (u * B)
       /\ Qabs (S - s) <= 145 * Qlen l * n * (u * B * B).







(** A stand-in for libm's [sqrt] where a statement is run on figures: the
    integer square root of the value scaled by 10^12, over 10^6. *)
Definition sqrt_approx (x : float) : float :=
  match x with
  | Fin q =>
      if Qltb q 0 then NaN
      else Fin (Z.sqrt (Qnum q * 10 ^ 12 / Z.pos (Qden q)) # 10 ^ 6)
  | PInf => PInf
  | NInf | NaN => NaN
  end.

(** ** Observations on an iteration *)

(** The iteration reaches the quiet-reward block: LESSON window, awake, no
    reward on show, normal mode. *)
Definition reward_logic_runs (sqrt : float -> float) (t : Tick) (g : Globals) : bool :=
  WindowState_eqb (tick_ws t g) LESSON
  && negb (inSleepMode (loop_sleep t (loop_sense t g)))
  && negb (rewardShowing (reward (loop_before_reward sqrt t g)))
  && is_normal (deviceMode t).

(** [goodDb] as the quiet-reward block of this iteration reads it. *)
Definition goodDb_of (sqrt : float -> float) (t : Tick) (g : Globals) : float :=
  greenMax (ACTIVE_TH (loop_before_reward sqrt t g)).

(** The quiet-reward block runs and sees the average strictly above
    [goodDb]. *)
Definition observes_above_good (sqrt : float -> float) (t : Tick) (g : Globals)
  : bool :=
  reward_logic_runs sqrt t g && (avgDB t >? goodDb_of sqrt t g)%float.

(** The state before iteration [k] of [ts], started in [g]. *)
Definition state_before (sqrt : float -> float) (ts : list Tick) (k : nat)
  (g : Globals) : Globals :=
  fst (run sqrt (firstn k ts) g).

Definition no_grant : list LoopOut -> bool := forallb (fun o => negb (granted o)).


(** ** Scenario inputs *)

(** An iteration on a Monday at 09:00 (LESSON under the default timetable),
    in normal mode, with all three [millis] readings equal. *)
Definition lesson_tick (ms : Z) (avg : Q) : Tick :=
  mkTick ms 1 9 0 (Fin avg) MODE_NORMAL 0 ms ms.

(** [n] such iterations, [step] milliseconds apart, from [start]. *)
Fixpoint lesson_ticks (n : nat) (start step : Z) (avg : Q) : list Tick :=
  match n with
  | O => []
  | S n' => lesson_tick start avg :: lesson_ticks n' (start + step) step avg
  end.

(** The state ten seconds before the first reward of a quiet lesson that
    started at boot, the granting iteration, and the iterations after it:
    two at 50 dB, then quiet again until 540 s. *)
Definition second_reward_g0 : Globals :=
  fst (run sqrt_approx (lesson_ticks 24 0 10000 40) (initial_globals 0)).

Definition second_reward_t0 : Tick := lesson_tick 240000 40.

Definition second_reward_ts : list Tick :=
  lesson_tick 250000 50 :: lesson_tick 260000 50 :: lesson_ticks 28 270000 10000 40.



(** A lesson that has run quietly for two minutes since boot, the spike
    iteration at 130 s and the iterations of the two minutes after it. *)
Definition spike_g : Globals :=
  fst (run sqrt_approx (lesson_ticks 13 0 10000 40) (initial_globals 0)).

Definition spike_t0 : Tick := lesson_tick 130000 60.

Definition spike_ts : list Tick := lesson_ticks 11 140000 10000 40.

(** A learning window that started at epoch 1700000001 and is read five
    days later, with 100 samples of mean 45 and M2 990 (variance 10). *)
Definition learned_g : Globals :=
  set_cal (mkRoomCal true false 1700000001 100 (Fin 45) (Fin 990) (Fin 38) (Fin 55)
                     (th3 49 52 55))
          (initial_globals 0).

Definition learned_epoch : Z := 1700000001 + ROOM_CAL_SECONDS.


(** ** The quiet-lesson scenario *)











Definition quiet_t1 : Tick := lesson_tick 130000 40.
Definition quiet_pre : list Tick := lesson_ticks 599 130200 200 40.
Definition quiet_tg : Tick := lesson_tick 250000 40.
Definition quiet_show : list Tick := lesson_ticks 14 250200 200 40.
Definition quiet_te : Tick := lesson_tick 253000 40.
Definition quiet_rest : list Tick := lesson_ticks 5 253200 200 40.

Definition quiet_run_ticks : list Tick :=
  quiet_t1 :: quiet_pre ++ quiet_tg :: quiet_show ++ quiet_te :: quiet_rest.






(** ** Definitions for the further properties *)

(** A value that is NaN or inside [[lo, hi]]. *)
Definition nan_or_within (v : float) (lo hi : Q) : Prop :=
  v = NaN \/ exists c, v = Fin c /\ (lo <= c <= hi)%Q.

(** ** Rolling average and microphone reading *)

Definition AVG_SAMPLE_COUNT : Z := 150.
Definition MIC_DB_OFFSET : float := Fin 93.0.

(** [dbHistory] and [currentIndex]. *)
Record Averager : Type := mkAverager {
  dbHistory : list float;
  currentIndex : Z
}.

(** [a[i] = v] on an array held as a list; a list too short for [i] is
    returned as it is. *)
Fixpoint array_set (l : list float) (i : nat) (v : float) : list float :=
  match l, i with
  | [], _ => []
  | _ :: r, O => v :: r
  | x :: r, S k => x :: array_set r k v
  end.

Definition updateRollingAverage (newVal : float) (a : Averager) : Averager :=
  if negb (isfinite newVal) then a
  else
    mkAverager (array_set (dbHistory a) (Z.to_nat (currentIndex a)) newVal)
               (Z.rem (currentIndex a + 1) AVG_SAMPLE_COUNT).

Definition calculateAverage (a : Averager) : float :=
  let total :=
    fold_left fadd (firstn (Z.to_nat AVG_SAMPLE_COUNT) (dbHistory a)) (Fin 0) in
  (total / of_Z AVG_SAMPLE_COUNT)%float.

Definition clearDBHistory (a : Averager) : Averager :=
  mkAverager (repeat (Fin 35.0) (Z.to_nat AVG_SAMPLE_COUNT)) (currentIndex a).

(** [readMicDB] on the [count] 32-bit samples that [i2s_read] delivered
    (none on a timeout); [sqrt] and [log10f] are libm's. *)
Definition readMicDB (sqrt log10f : float -> float) (samples : list Z)
  (a : Averager) : float :=
  let count := Z.of_nat (List.length samples) in
  if (count <=? 0)%Z then calculateAverage a
  else
    let sum :=
      fold_left
        (fun sum x =>
           let s := (of_Z x / Fin 2147483648)%float in
           (sum + s * s)%float)
        samples (Fin 0) in
    let rms := sqrt (sum / of_Z count)%float in
    let rms := if (rms <? Fin (1 # 1000000000))%float then Fin (1 # 1000000000) else rms in
    let db := (Fin 20.0 * log10f rms + MIC_DB_OFFSET)%float in
    let db := if (db <? Fin 20.0)%float then Fin 20.0 else db in
    let db := if (db >? Fin 90.0)%float then Fin 90.0 else db in
    if negb (isfinite db) then calculateAverage a else db.

(** The sample tick of [loop]: read the microphone, record the reading. *)
Definition sampleTick (sqrt log10f : float -> float) (samples : list Z)
  (a : Averager) : Averager :=
  updateRollingAverage (readMicDB sqrt log10f samples a) a.

(** The buffer is the 150-slot array and the index points into it. *)
Definition averager_ok (a : Averager) : Prop :=
  List.length (dbHistory a) = Z.to_nat AVG_SAMPLE_COUNT
  /\ (0 <= currentIndex a < AVG_SAMPLE_COUNT)%Z.

(** The buffer read in the order it was written, oldest slot first. *)
Definition chronological (a : Averager) : list float :=
  skipn (Z.to_nat (currentIndex a)) (dbHistory a)
  ++ firstn (Z.to_nat (currentIndex a)) (dbHistory a).

(** The finite values of a list of readings, in order. *)
Fixpoint finite_values (l : list float) : list Q :=
  match l with
  | [] => []
  | Fin q :: r => q :: finite_values r
  | _ :: r => finite_values r
  end.

(** The last [n] elements. *)
Definition lastn {A : Type} (n : nat) (l : list A) : list A :=
  skipn (List.length l - n) l.

(** Every slot holds a finite value inside [[lo, hi]]. *)
Definition slots_within (lo hi : Q) (l : list float) : Prop :=
  Forall (fun v => exists c, v = Fin c /\ (lo <= c <= hi)%Q) l.

(** Readings recorded in order. *)
Definition feedAverage (samples : list float) (a : Averager) : Averager :=
  fold_left (fun a x => updateRollingAverage x a) samples a.

(** Successive sample ticks, one list of microphone samples each. *)
Definition runSamples (sqrt log10f : float -> float) (inputs : list (list Z))
  (a : Averager) : Averager :=
  fold_left (fun a s => sampleTick sqrt log10f s a) inputs a.

(** ** Reward timing *)

(** The state a completed learning window leaves behind. *)
Definition settled_g : Globals :=
  finalizeRoomCalibrationIfDue sqrt_approx learned_epoch learned_g.

(** The [millis] readings of the iterations never go back: each is at least
    [from] and at least the one before. *)
Fixpoint clock_monotone (from : Z) (ts : list Tick) : bool :=
  match ts with
  | [] => true
  | t :: ts' => (from <=? u32 (nowMs t))%Z && clock_monotone (u32 (nowMs t)) ts'
  end.

(** The reward record a grant at [now] leaves. *)
Definition granted_reward (now : Z) (r : Reward) : Reward :=
  set_quietStartMs 0
    (set_rewardStartMs now
       (set_rewardShowing true
          (set_rewardLogUntilMs (uadd now REWARD_LOG_WINDOW_MS)
             (set_rewardActiveForLog true
                (set_needsResetAboveGood true
                   (set_rewardCooldownUntilMs (uadd now REWARD_COOLDOWN_MS) r)))))).

(** Since the clock passed [L] no streak can have started before [L]: the
    streak start is unset or lies between [L] and the latest clock reading
    [last], and the cooldown deadline is at least [L] unless the clock has
    already passed [L]. *)
Definition streak_not_before (L last : Z) (r : Reward) : Prop :=
  (quietStartMs r = 0%Z \/ (L <= quietStartMs r <= last)%Z)
  /\ ((L <= rewardCooldownUntilMs r)%Z \/ (L <= last)%Z).

(** Every iteration of [ts] falls in a window other than LESSON under the
    timetable [tt]. *)
Definition outside_lesson (tt : Timetable) (ts : list Tick) : bool :=
  forallb (fun t => negb (WindowState_eqb
                            (getWindowState tt (wday t) (hour t) (minute t)) LESSON))
          ts.

(** An iteration on a Monday at 10:40 (BREAK under the default timetable). *)
Definition break_tick (ms : Z) (avg : Q) : Tick :=
  mkTick ms 1 10 40 (Fin avg) MODE_NORMAL 0 ms ms.

(** The state right after the first reward of [second_reward_g0]. *)
Definition rewarded_g : Globals :=
  fst (loop sqrt_approx second_reward_t0 second_reward_g0).

(** ** LED smoothing *)

(** The globals of the LED smoothing: the clock of the last sample tick,
    the smoothed level and the flag that gates the smoothing. *)
Definition led_fields (g : Globals) : Z * float * bool :=
  (lastSampleTime g, ledDB g, hasNewSampleForLed g).

(** Every iteration of [ts] reads the clock less than SAMPLE_INTERVAL_MS
    after [last], so that none of them is a sample tick. *)
Definition between_samples (last : Z) (ts : list Tick) : bool :=
  forallb (fun t => (usub (u32 (nowMs t)) last <? SAMPLE_INTERVAL_MS)%Z) ts.

(** The iteration is a sample tick. *)
Definition sample_due (t : Tick) (g : Globals) : bool :=
  (usub (u32 (nowMs t)) (lastSampleTime g) >=? SAMPLE_INTERVAL_MS)%Z.

(** ** Button handling and Holly Hop

    The head of [loop]: the push button toggles Holly Hop, a 20 s hold wipes
    the Wi-Fi settings and restarts the chip.  [true] is HIGH (released, the
    pin has a pull-up), [false] is LOW (pressed). *)

Module Button.

Inductive HopStage : Type := HOP_NONE | HOP_ENTERING | HOP_EXITING.

Definition DEBOUNCE_MS : Z := 120.
Definition HOLLY_HOP_DURATION_MS : Z := 30 * 60 * 1000.
Definition HOP_STAGE_MS : Z := 250.

Record State : Type := mkState {
  lastButtonState : bool;
  buttonPressStart : Z;
  wipeTriggered : bool;
  lastToggleAt : Z;
  deviceMode : DeviceMode;
  hollyHopEndAt : Z;
  hopStage : HopStage;
  hopPendingExit : bool;
  hopStageUntil : Z
}.

(** The globals as their initialisers leave them. *)
Definition initial : State :=
  mkState true 0 false 0 MODE_NORMAL 0 HOP_NONE false 0.

Definition enterHollyHop (nowMs : Z) (s : State) : State :=
  match deviceMode s with
  | MODE_HOLLY_HOP => s
  | MODE_NORMAL =>
      mkState (lastButtonState s) (buttonPressStart s) (wipeTriggered s)
              (lastToggleAt s) MODE_HOLLY_HOP (uadd nowMs HOLLY_HOP_DURATION_MS)
              HOP_ENTERING false (uadd nowMs HOP_STAGE_MS)
  end.

Definition beginExitHollyHop (nowMs : Z) (s : State) : State :=
  match deviceMode s with
  | MODE_NORMAL => s
  | MODE_HOLLY_HOP =>
      mkState (lastButtonState s) (buttonPressStart s) (wipeTriggered s)
              (lastToggleAt s) (deviceMode s) (hollyHopEndAt s)
              HOP_EXITING true (uadd nowMs HOP_STAGE_MS)
  end.

Definition set_press (start : Z) (wipe : bool) (s : State) : State :=
  mkState (lastButtonState s) start wipe (lastToggleAt s) (deviceMode s)
          (hollyHopEndAt s) (hopStage s) (hopPendingExit s) (hopStageUntil s).

Definition set_lastToggleAt (v : Z) (s : State) : State :=
  mkState (lastButtonState s) (buttonPressStart s) (wipeTriggered s) v (deviceMode s)
          (hollyHopEndAt s) (hopStage s) (hopPendingExit s) (hopStageUntil s).

Definition set_lastButtonState (v : bool) (s : State) : State :=
  mkState v (buttonPressStart s) (wipeTriggered s) (lastToggleAt s) (deviceMode s)
          (hollyHopEndAt s) (hopStage s) (hopPendingExit s) (hopStageUntil s).

(** The button block of [loop]; the flag says that [ESP.restart] was
    reached, after which nothing else of the iteration runs. *)
Definition buttonHandling (currentButtonState : bool) (nowMs : Z) (s : State)
  : State * bool :=
  let s :=
    if currentButtonState && negb (lastButtonState s) then set_press 0 false s
    else s in
  let s :=
    if negb currentButtonState && lastButtonState s then
      if (usub nowMs (lastToggleAt s) >=? DEBOUNCE_MS)%Z then
        let s := set_lastToggleAt nowMs (set_press nowMs false s) in
        match deviceMode s with
        | MODE_HOLLY_HOP => beginExitHollyHop nowMs s
        | MODE_NORMAL => enterHollyHop nowMs s
        end
      else s
    else s in
  if negb currentButtonState && negb (wipeTriggered s)
     && negb (buttonPressStart s =? 0)%Z
     && (usub nowMs (buttonPressStart s) >=? 20000)%Z
  then (set_press (buttonPressStart s) true s, true)
  else (set_lastButtonState currentButtonState s, false).

End Button.

(** The iteration [t] with the device mode the button block left. *)
Definition with_deviceMode (m : DeviceMode) (t : Tick) : Tick :=
  mkTick (nowMs t) (wday t) (hour t) (minute t) (avgDB t) m (nowEpoch t) (calMs t)
         (rewardMs t).

(** One whole iteration of the sketch's [loop] on the pin reading [btn]:
    the button block, then the rest with the mode it left; [None] when the
    chip restarts. *)
Definition sketch_loop (sqrt : float -> float) (btn : bool) (t : Tick)
  (b : Button.State) (g : Globals) : option (Button.State * Globals * LoopOut) :=
  let '(b1, restart) := Button.buttonHandling btn (u32 (nowMs t)) b in
  if restart then None
  else
    let '(g1, o) := loop sqrt (with_deviceMode (Button.deviceMode b1) t) g in
    Some (b1, g1, o).

(** Successive iterations up to the first restart. *)
Fixpoint sketch_run (sqrt : float -> float) (ins : list (bool * Tick))
  (b : Button.State) (g : Globals) : Button.State * Globals * list LoopOut :=
  match ins with
  | [] => (b, g, [])
  | (btn, t) :: ins' =>
      match sketch_loop sqrt btn t b g with
      | None => (b, g, [])
      | Some (b1, g1, o) =>
          let '(b2, g2, os) := sketch_run sqrt ins' b1 g1 in
          (b2, g2, o :: os)
      end
  end.

(** The running statistics of the learning window. *)
Definition cal_stats (c : RoomCal) : Z * float * float * float * float :=
  (calCount c, calMean c, calM2 c, calMinDb c, calMaxDb c).

(** The button state after one press at 1 s from the initial state, and
    later iterations: release, a second press, and one past the 30 minutes
    of HOLLY_HOP_DURATION_MS. *)
Definition hop_b : Button.State :=
  fst (Button.buttonHandling false 1000 Button.initial).

Definition hop_ins : list (bool * Tick) :=
  [(true, lesson_tick 2000 40); (false, lesson_tick 3000 40);
   (true, lesson_tick 4000 40); (true, lesson_tick 1900000 40)].

(** The button block alone over successive pin and clock readings; [None]
    once a restart has been reached. *)
Fixpoint button_run (ins : list (bool * Z)) (s : Button.State) : option Button.State :=
  match ins with
  | [] => Some s
  | (btn, now) :: ins' =>
      let '(s1, restart) := Button.buttonHandling btn now s in
      if restart then None else button_run ins' s1
  end.

(** A press start that is set belongs to a press seen in [seen], and the
    button has read LOW since. *)
Definition press_recorded (seen : list (bool * Z)) (s : Button.State) : Prop :=
  Button.buttonPressStart s <> 0%Z ->
  Button.lastButtonState s = false
  /\ In (false, Button.buttonPressStart s) seen.

(** A press at 1 s that is still held at 10 s. *)
Definition hold_ins : list (bool * Z) := [(false, 1000%Z); (false, 10000%Z)].

Definition hold_s : Button.State :=
  fst (Button.buttonHandling false 10000
         (fst (Button.buttonHandling false 1000 Button.initial))).

(** ** Timetable strings *)

(** [n] as two decimal digits, and a time of day as the portal's "HH:MM". *)
Definition two_digits (n : Z) : string :=
  String (ascii_of_nat (48 + Z.to_nat (n / 10)))
    (String (ascii_of_nat (48 + Z.to_nat (n mod 10))) EmptyString).

Definition hh_mm (h m : Z) : string :=
  (two_digits h ++ String ":"%char (two_digits m))%string.

(** The six boundaries of a timetable in minutes of the day. *)
Definition dayStart (tt : Timetable) : Z := parseTimeToMins (t_day_start tt).
Definition break1Start (tt : Timetable) : Z := parseTimeToMins (t_break1_start tt).
Definition break1End (tt : Timetable) : Z := parseTimeToMins (t_break1_end tt).
Definition lunchStart (tt : Timetable) : Z := parseTimeToMins (t_lunch_start tt).
Definition lunchEnd (tt : Timetable) : Z := parseTimeToMins (t_lunch_end tt).
Definition dayEnd (tt : Timetable) : Z := parseTimeToMins (t_day_end tt).

(** All six parse and are in order. *)
Definition well_ordered (tt : Timetable) : Prop :=
  (0 <= dayStart tt < break1Start tt)%Z
  /\ (break1Start tt < break1End tt <= lunchStart tt)%Z
  /\ (lunchStart tt < lunchEnd tt < dayEnd tt)%Z.

(** The built-in schedule used when the configured one is rejected. *)
Definition fallback_schedule (mins : Z) : WindowState :=
  if ((530 <=? mins) && (mins <? 625))%Z then LESSON
  else if ((625 <=? mins) && (mins <? 645))%Z then ASSEMBLY
  else if ((645 <=? mins) && (mins <? 660))%Z then BREAK
  else if ((660 <=? mins) && (mins <? 720))%Z then LESSON
  else if ((720 <=? mins) && (mins <? 780))%Z then LUNCH
  else if ((780 <=? mins) && (mins <? 920))%Z then LESSON
  else OFF.

(** The default timetable with an unparsable day start. *)
Definition broken_timetable : Timetable :=
  mkTimetable true "8.50" "10:30" "10:45" "12:00" "13:00" "15:20".

(** ** LED colour *)

(** The conversion [(uint8_t)x] of a float: the value is truncated toward
    zero; C leaves the conversion undefined when the truncated value does
    not fit (and for NaN and the infinities), which is [None] here. *)
Definition Qtrunc (q : Q) : Z := if Qltb q 0 then Qceiling q else Qfloor q.

Definition to_uint8 (x : float) : option Z :=
  match x with
  | Fin q =>
      let z := Qtrunc q in
      if ((0 <=? z) && (z <=? 255))%Z then Some z else None
  | _ => None
  end.

(** The red and green channels that [updateLEDs] hands to [strip.Color]
    (blue is 0); the globals read by the C function, [yearBand], [ACTIVE_TH]
    and [currentZone], are its first three arguments here. *)
Definition updateLEDs (yearBand : string) (th : Thresholds) (currentZone : ColorZone)
  (dbForLeds : float) : option (Z * Z) :=
  let gMax := greenMax th in
  let aMax := amberMax th in
  let rWarn := redWarnDb th in
  let red := Some (255, if isSendClassroom yearBand then 80 else 0)%Z in
  match currentZone with
  | Z_RED => red
  | _ =>
      if (dbForLeds <=? gMax)%float then Some (0, 255)%Z
      else if (dbForLeds <=? aMax)%float then
        let t := ((dbForLeds - gMax) / (aMax - gMax))%float in
        let t := clampf t (Fin 0.0) (Fin 1.0) in
        match to_uint8 (t * Fin 180.0)%float,
              to_uint8 (Fin 255.0 - t * Fin 155.0)%float with
        | Some r, Some g => Some (r, g)
        | _, _ => None
        end
      else if (dbForLeds <=? rWarn)%float then
        let t := ((dbForLeds - aMax) / (rWarn - aMax))%float in
        let t := clampf t (Fin 0.0) (Fin 1.0) in
        match to_uint8 (Fin 180.0 + t * (Fin 255.0 - Fin 180.0))%float,
              to_uint8 (Fin 100.0 - t * Fin 100.0)%float with
        | Some r, Some g => Some (r, g)
        | _, _ => None
        end
      else red
  end.

(** The three thresholds are finite numbers. *)
Definition finite_thresholds (th : Thresholds) : bool :=
  isfinite (greenMax th) && isfinite (amberMax th) && isfinite (redWarnDb th).

(** ... and in order. *)
Definition ordered_thresholds (th : Thresholds) : bool :=
  finite_thresholds th
  && (greenMax th <=? amberMax th)%float && (amberMax th <=? redWarnDb th)%float.

(** How far [d] is along the ramp from [lo] to [hi]. *)
Definition ramp (lo hi d : Q) : Q := (d + - lo) / (hi + - lo).

(** ** Sleep *)

(** The iteration is outside LESSON or reads an average below
    SLEEP_DB_THRESHOLD. *)
Definition silent_tick (tt : Timetable) (t : Tick) : Prop :=
  getWindowState tt (wday t) (hour t) (minute t) = LESSON ->
  (avgDB t <? SLEEP_DB_THRESHOLD)%float = true.

(** Some iteration of [ts] read the clock [start], and it and all the
    iterations after it were silent. *)
Definition silent_since (tt : Timetable) (start : Z) (ts : list Tick) : Prop :=
  exists (ts1 : list Tick) (t : Tick) (ts2 : list Tick),
    ts = ts1 ++ t :: ts2 /\ u32 (nowMs t) = start
    /\ Forall (silent_tick tt) (t :: ts2).

(** A silence timer that is running was started within [seen]. *)
Definition silence_recorded (tt : Timetable) (seen : list Tick) (g : Globals) : Prop :=
  silenceStart g <> 0%Z -> silent_since tt (silenceStart g) seen.

(** Thirty LESSON iterations at 20 dB, ten seconds apart, from 1 s. *)
Definition sleepy_ts : list Tick := lesson_ticks 30 1000 10000 20.

(** ** Thresholds in force *)

(** The triple keeps the two gaps and lies within the guardrails of the
    band. *)
Definition guarded (band : string) (th : Thresholds) : Prop :=
  gap_invariant th = true
  /\ in_guardrails th (guardrailsForBand (Some band)) = true.

(** What is asked of libm's [sqrt]: no NaN on an argument that is neither
    NaN nor negative. *)
Definition sqrt_defined (sqrt : float -> float) : Prop :=
  forall x : float,
    isnan x = false -> (x <? Fin 0)%float = false -> isnan (sqrt x) = false.

Definition stats_finite (c : RoomCal) : Prop :=
  isfinite (calMean c) = true /\ isfinite (calM2 c) = true /\ (0 <= calCount c)%Z.

(** The running statistics are finite with room for [n] more samples before
    the 32-bit count wraps, the stored calibrated triple has no NaN, and the
    active triple is guarded. *)
Definition thresholds_sound (n : Z) (g : Globals) : Prop :=
  stats_finite (cal g)
  /\ (calCount (cal g) + n < 2 ^ 32)%Z
  /\ no_nan (CAL_TH (cal g)) = true
  /\ guarded (yearBand g) (ACTIVE_TH g).

(** The part of the state the thresholds live in. *)
Definition th_fields (g : Globals) : string * Thresholds * RoomCal :=
  (yearBand g, ACTIVE_TH g, cal g).

(** Two LESSON iterations for [learned_g]: one inside the learning window
    that takes a sample, one at its end that finalises. *)
Definition learned_ts : list Tick :=
  [mkTick 70000 1 9 0 (Fin 47) MODE_NORMAL 1700000100 70000 70000;
   mkTick 80000 1 9 0 (Fin 47) MODE_NORMAL learned_epoch 80000 80000].

(** ** Animations *)

Definition u8 (z : Z) : Z := z mod 256.
Definition u16 (z : Z) : Z := z mod 65536.

Definition NUM_LEDS : Z := 120.

(** [Adafruit_NeoPixel::Color]: three bytes packed as 0x00RRGGBB. *)
Definition Color (r g b : Z) : Z :=
  Z.lor (Z.lor (Z.shiftl (u8 r) 16) (Z.shiftl (u8 g) 8)) (u8 b).

Definition red_of (c : Z) : Z := Z.land (Z.shiftr c 16) 255.
Definition green_of (c : Z) : Z := Z.land (Z.shiftr c 8) 255.
Definition blue_of (c : Z) : Z := Z.land c 255.

Definition wheel (pos : Z) : Z :=
  let pos := u8 (255 - pos) in
  if (pos <? 85)%Z then Color (255 - pos * 3) 0 (pos * 3)
  else if (pos <? 170)%Z then
    let pos := u8 (pos - 85) in
    Color 0 (pos * 3) (255 - pos * 3)
  else
    let pos := u8 (pos - 170) in
    Color (pos * 3) (255 - pos * 3) 0.

(** The statics of [renderSleepingRainbow]. *)
Record Rainbow : Type := mkRainbow {
  rainbow_lastUpdate : Z;
  hueOffset : Z
}.

(** The colours of the pixels 0 .. NUM_LEDS - 1 for a hue offset. *)
Definition rainbow_frame (hue : Z) : list Z :=
  map (fun i => wheel (u8 (Z.land ((Z.of_nat i * 256) / NUM_LEDS + hue) 255)))
      (seq 0 (Z.to_nat NUM_LEDS)).

(** One call, with the two readings of [millis]; the frame shown, if any. *)
Definition renderSleepingRainbow (now1 now2 : Z) (s : Rainbow)
  : Rainbow * option (list Z) :=
  if (usub (u32 now1) (rainbow_lastUpdate s) <? 20)%Z then (s, None)
  else (mkRainbow (u32 now2) (u16 (hueOffset s + 1)),
        Some (rainbow_frame (hueOffset s))).

(** Successive calls: the final statics and the frames shown, in order. *)
Fixpoint rainbow_run (calls : list (Z * Z)) (s : Rainbow) : Rainbow * list (list Z) :=
  match calls with
  | [] => (s, [])
  | (now1, now2) :: calls' =>
      let '(s1, f) := renderSleepingRainbow now1 now2 s in
      let '(s2, fs) := rainbow_run calls' s1 in
      (s2, match f with Some x => x :: fs | None => fs end)
  end.

(** The frame a rainbow that never wraps shows after [k] earlier frames. *)
Definition ideal_frame (k : nat) : list Z :=
  map (fun i => wheel (((Z.of_nat i * 256) / NUM_LEDS + Z.of_nat k) mod 256))
      (seq 0 (Z.to_nat NUM_LEDS)).

(** The statics of [breathingBlue] and of [standbyCyanPulse]. *)
Record Pulse : Type := mkPulse {
  brightness : Z;
  delta : Z;
  pulse_lastUpdate : Z
}.

(** One call of [breathingBlue], with the two readings of [millis]; the
    blue byte shown, if any. *)
Definition breathingBlue (now1 now2 : Z) (s : Pulse) : Pulse * option Z :=
  if (usub (u32 now1) (pulse_lastUpdate s) >=? 20)%Z then
    let brightness := (brightness s + delta s)%Z in
    let delta := delta s in
    let '(brightness, delta) :=
      if (brightness >=? 255)%Z then (255, - Z.abs delta)%Z else (brightness, delta) in
    let '(brightness, delta) :=
      if (brightness <=? 0)%Z then (0, Z.abs delta)%Z else (brightness, delta) in
    (mkPulse brightness delta (u32 now2), Some (u8 brightness))
  else (s, None).

(** One call of [standbyCyanPulse]; the green and blue byte shown, if any. *)
Definition standbyCyanPulse (now1 now2 : Z) (s : Pulse) : Pulse * option Z :=
  if (usub (u32 now1) (pulse_lastUpdate s) >=? 12)%Z then
    let brightness := (brightness s + delta s)%Z in
    let delta := delta s in
    let '(brightness, delta) :=
      if (brightness >=? 255)%Z then (255, - Z.abs delta)%Z else (brightness, delta) in
    let '(brightness, delta) :=
      if (brightness <=? 0)%Z then (0, Z.abs delta)%Z else (brightness, delta) in
    (mkPulse brightness delta (u32 now2), Some (u8 brightness))
  else (s, None).

(** Successive calls of a pulse: the final statics and the bytes shown. *)
Fixpoint pulse_run (step : Z -> Z -> Pulse -> Pulse * option Z)
  (calls : list (Z * Z)) (s : Pulse) : Pulse * list Z :=
  match calls with
  | [] => (s, [])
  | (now1, now2) :: calls' =>
      let '(s1, b) := step now1 now2 s in
      let '(s2, bs) := pulse_run step calls' s1 in
      (s2, match b with Some x => x :: bs | None => bs end)
  end.

(** Neighbouring bytes of [bs], started after [b0], differ by at most [d]. *)
Fixpoint steps_within (d b0 : Z) (bs : list Z) : Prop :=
  match bs with
  | [] => True
  | b :: bs' => (Z.abs (b - b0) <= d)%Z /\ steps_within d b bs'
  end.

(** What one call of a pulse with step [d] guarantees. *)
Definition pulse_step_ok (d : Z) (step : Z -> Z -> Pulse -> Pulse * option Z) : Prop :=
  forall (now1 now2 : Z) (s : Pulse),
    (0 <= brightness s <= 255)%Z -> Z.abs (delta s) = d ->
    (0 <= brightness (fst (step now1 now2 s)) <= 255)%Z
    /\ Z.abs (delta (fst (step now1 now2 s))) = d
    /\ match snd (step now1 now2 s) with
       | Some b =>
           b = brightness (fst (step now1 now2 s))
           /\ (Z.abs (b - brightness s) <= d)%Z
       | None => fst (step now1 now2 s) = s
       end.

(** * Proofs *)

(** ** Comparisons on rationals and floats *)

Lemma Qltb_lt (x y : Q) : Qltb x y = true <-> (x < y)%Q.
Proof.
  unfold Qltb. rewrite negb_true_iff.
  split; intro H.
  - apply Qnot_le_lt. intro L. apply Qle_bool_iff in L. congruence.
  - destruct (Qle_bool y x) eqn:E; [|reflexivity].
    apply Qle_bool_iff in E. exfalso. apply (Qlt_not_le _ _ H E).
Qed.

Lemma Qltb_ge (x y : Q) : Qltb x y = false <-> (y <= x)%Q.
Proof.
  unfold Qltb. rewrite negb_false_iff. apply Qle_bool_iff.
Qed.

Lemma Qleb_gt (x y : Q) : Qle_bool x y = false <-> (y < x)%Q.
Proof.
  rewrite <- Qltb_lt. unfold Qltb. now rewrite negb_true_iff.
Qed.

Lemma Qeqb_false (x y : Q) : Qeq_bool x y = false <-> ~ (x == y)%Q.
Proof.
  split.
  - apply Qeq_bool_neq.
  - intro H. destruct (Qeq_bool x y) eqn:E; [|reflexivity].
    apply Qeq_bool_iff in E. contradiction.
Qed.

(** Turn every boolean comparison on rationals in the context and the goal
    into the proposition it decides. *)
Ltac q_reflect :=
  repeat match goal with
  | H : Qltb _ _ = true |- _ => apply Qltb_lt in H
  | H : Qltb _ _ = false |- _ => apply Qltb_ge in H
  | H : Qle_bool _ _ = true |- _ => apply Qle_bool_iff in H
  | H : Qle_bool _ _ = false |- _ => apply Qleb_gt in H
  | H : Qeq_bool _ _ = true |- _ => apply Qeq_bool_iff in H
  | H : Qeq_bool _ _ = false |- _ => apply Qeqb_false in H
  | |- Qltb _ _ = true => apply Qltb_lt
  | |- Qltb _ _ = false => apply Qltb_ge
  | |- Qle_bool _ _ = true => apply Qle_bool_iff
  | |- Qle_bool _ _ = false => apply Qleb_gt
  end.

Lemma flt_fle_excl (x y : float) : (x <? y)%float = true -> (y <=? x)%float = false.
Proof.
  destruct x, y; simpl; try congruence.
  intro H. q_reflect. exact H.
Qed.

(** ** Guardrails: clamping and gap normalisation *)

Lemma clampf_finite (v : float) (lo hi : Q) :
  isnan v = false -> (lo <= hi)%Q ->
  exists c, clampf v (Fin lo) (Fin hi) = Fin c /\ (lo <= c <= hi)%Q.
Proof.
  intros Hn Hb. unfold clampf, fgt.
  destruct v as [q| | |]; simpl in *; try discriminate.
  - destruct (Qltb q lo) eqn:E1.
    + exists lo. split; [reflexivity|]. split; [apply Qle_refl|exact Hb].
    + destruct (Qltb hi q) eqn:E2.
      * exists hi. split; [reflexivity|]. split; [exact Hb|apply Qle_refl].
      * exists q. q_reflect. auto.
  - exists hi. split; [reflexivity|]. split; [exact Hb|apply Qle_refl].
  - exists lo. split; [reflexivity|]. split; [apply Qle_refl|exact Hb].
Qed.

Lemma normalize_bounds (g a r g0 g1 a0 a1 r0 r1 : Q) :
  (g0 <= g <= g1)%Q -> (a0 <= a <= a1)%Q -> (r0 <= r <= r1)%Q ->
  (g1 + 2 <= a1)%Q -> (a1 + 2 <= r1)%Q ->
  let n := normalizeThresholds (th3 g a r) in
  gap_invariant n = true /\ in_guardrails n (gr6 g0 g1 a0 a1 r0 r1) = true.
Proof.
  intros Hg Ha Hr H1 H2. unfold normalizeThresholds, th3. simpl.
  destruct (Qltb a (g + 2.0)) eqn:E1; simpl;
    [destruct (Qltb r (g + 2.0 + 2.0)) eqn:E2 | destruct (Qltb r (a + 2.0)) eqn:E2];
    unfold gap_invariant, in_guardrails, within; simpl;
    q_reflect; rewrite !andb_true_iff; repeat split; q_reflect; lra.
Qed.

Lemma guardrailsForBand_cases (band : option string) :
  In (guardrailsForBand band)
     [gr6 42 55 46 60 50 66; gr6 40 52 44 56 48 60; gr6 38 52 42 56 46 60;
      gr6 40 54 45 58 49 62; gr6 39 52 44 56 48 60].
Proof.
  unfold guardrailsForBand.
  repeat match goal with
  | |- context [if ?b then _ else _] => destruct b
  end; simpl; tauto.
Qed.

Lemma applyGuardrails_sound_for (th : Thresholds) (band : option string)
  (g0 g1 a0 a1 r0 r1 : Q) :
  guardrailsForBand band = gr6 g0 g1 a0 a1 r0 r1 ->
  (g0 <= g1)%Q -> (a0 <= a1)%Q -> (r0 <= r1)%Q ->
  (g1 + 2 <= a1)%Q -> (a1 + 2 <= r1)%Q ->
  no_nan th = true ->
  gap_invariant (applyGuardrails th band) = true
  /\ in_guardrails (applyGuardrails th band) (guardrailsForBand band) = true.
Proof.
  intros E Hg Ha Hr H1 H2 Hn. unfold applyGuardrails. rewrite E. simpl.
  unfold no_nan in Hn. rewrite !andb_true_iff, !negb_true_iff in Hn.
  destruct Hn as [[Ng Na] Nr].
  destruct (clampf_finite (greenMax th) _ _ Ng Hg) as (g & -> & Bg).
  destruct (clampf_finite (amberMax th) _ _ Na Ha) as (a & -> & Ba).
  destruct (clampf_finite (redWarnDb th) _ _ Nr Hr) as (r & -> & Br).
  apply (normalize_bounds _ _ _ _ _ _ _ _ _ Bg Ba Br H1 H2).
Qed.

(** C2 (as amended): for every input triple with no NaN field and every
    band, the result of [applyGuardrails] satisfies
    greenMax < amberMax - 1 and amberMax < redWarnDb - 1, and each field lies
    within the guardrail bounds of the band. *)
Theorem applyGuardrails_invariant (th : Thresholds) (band : option string) :
  no_nan th = true ->
  gap_invariant (applyGuardrails th band) = true
  /\ in_guardrails (applyGuardrails th band) (guardrailsForBand band) = true.
Proof.
  intro Hn.
  pose proof (guardrailsForBand_cases band) as Hc. simpl in Hc.
  destruct Hc as [E|[E|[E|[E|[E|[]]]]]]; symmetry in E;
    apply (applyGuardrails_sound_for th band _ _ _ _ _ _ E); try exact Hn; lra.
Qed.

Lemma applyGuardrails_invariant_witness :
  no_nan (th3 30 70 50) = true
  /\ gap_invariant (applyGuardrails (th3 30 70 50) (Some "SEND"%string)) = true
  /\ in_guardrails (applyGuardrails (th3 30 70 50) (Some "SEND"%string))
       (guardrailsForBand (Some "SEND"%string)) = true.
Proof.
  split; [reflexivity|].
  apply (applyGuardrails_invariant (th3 30 70 50) (Some "SEND"%string)).
  reflexivity.
Defined.

(** C2 (as stated) fails: a NaN field passes through [clampf] and the gap
    normalisation unchanged, so the result is neither ordered nor bounded. *)
Lemma applyGuardrails_nan_counterexample :
  let r := applyGuardrails (mkThresholds NaN (Fin 50) (Fin 55)) (Some "Y2Y3"%string) in
  r = mkThresholds NaN (Fin 50) (Fin 55)
  /\ gap_invariant r = false
  /\ in_guardrails r (guardrailsForBand (Some "Y2Y3"%string)) = false.
Proof.
  vm_compute. repeat split.
Qed.

(** ** Room calibration ignores non-finite samples *)

(** C10: for every argument that is NaN or infinite,
    [updateRoomCalibration] leaves calCount, calMean, calM2, calMinDb and
    calMaxDb (indeed the whole calibration state) unchanged. *)
Theorem updateRoomCalibration_nonfinite (x : float) (c : RoomCal) :
  isfinite x = false -> updateRoomCalibration x c = c.
Proof.
  intro H. unfold updateRoomCalibration. now rewrite H.
Qed.

Lemma updateRoomCalibration_nonfinite_witness :
  isfinite NaN = false /\ isfinite PInf = false /\ isfinite NInf = false
  /\ updateRoomCalibration NaN initial_cal = initial_cal
  /\ updateRoomCalibration PInf initial_cal = initial_cal
  /\ updateRoomCalibration NInf initial_cal = initial_cal.
Proof.
  split; [reflexivity|]. split; [reflexivity|]. split; [reflexivity|].
  split; [|split].
  - apply (updateRoomCalibration_nonfinite NaN initial_cal). reflexivity.
  - apply (updateRoomCalibration_nonfinite PInf initial_cal). reflexivity.
  - apply (updateRoomCalibration_nonfinite NInf initial_cal). reflexivity.
Defined.

Lemma isfinite_false_cases (x : float) :
  isfinite x = false <-> x = NaN \/ x = PInf \/ x = NInf.
Proof.
  destruct x; simpl; split; intro H; try tauto; try discriminate.
  destruct H as [H|[H|H]]; discriminate.
Qed.

(** ** Timetable *)

(** C8: with the timetable in use [getWindowState] returns OFF on weekday 6
    at every hour and minute, whatever the six boundaries are; with the
    always-on override ([useTimetable] false) it returns LESSON for every
    weekday, hour and minute. *)
Theorem getWindowState_saturday_and_override
  (ds bs be ls le de : string) (wd h m : Z) :
  getWindowState (mkTimetable true ds bs be ls le de) 6 h m = OFF
  /\ getWindowState (mkTimetable false ds bs be ls le de) wd h m = LESSON.
Proof.
  unfold getWindowState. split; reflexivity.
Qed.

Lemma getWindowState_weekend (tt : Timetable) (wd h m : Z) :
  useTimetable tt = true -> (wd < 1 \/ 5 < wd)%Z -> getWindowState tt wd h m = OFF.
Proof.
  intros E H. unfold getWindowState. rewrite E. simpl.
  replace ((wd <? 1)%Z || (wd >? 5)%Z) with true; [reflexivity|].
  symmetry. apply orb_true_iff. destruct H; [left|right]; lia.
Qed.

Lemma default_timetable_monday :
  getWindowState default_timetable 1 9 0 = LESSON
  /\ getWindowState default_timetable 1 10 30 = BREAK
  /\ getWindowState default_timetable 1 12 30 = LUNCH
  /\ getWindowState default_timetable 1 15 20 = OFF.
Proof.
  vm_compute. repeat split.
Qed.

(** ** Sticky hysteresis *)

Lemma hys_band_excl (x g : float) (h : Q) :
  (0 < h)%Q -> (x <? g - Fin h)%float = true -> (x >? g + Fin h)%float = false.
Proof.
  intros Hh. unfold fgt, fsub.
  destruct x, g; simpl; try congruence; try reflexivity.
  intro H. q_reflect. lra.
Qed.

Lemma hys_margins_positive (yearBand : string) :
  exists ga ad : Q,
    (if isSendClassroom yearBand then Fin 1.2 else HYS_GA_DEFAULT) = Fin ga
    /\ (if isSendClassroom yearBand then Fin 1.5 else HYS_AD_DEFAULT) = Fin ad
    /\ (0 < ga)%Q /\ (0 < ad)%Q.
Proof.
  destruct (isSendClassroom yearBand).
  - exists 1.2, 1.5. repeat split; reflexivity.
  - exists 0.7, 0.9. repeat split; reflexivity.
Qed.

(** The six switching tests of one value, and the zone transition they
    decide; a test for leaving downwards excludes the one for leaving
    upwards across the same threshold. *)
Lemma applyStickyHysteresis_tests (yearBand : string) (th : Thresholds) (v : float) :
  exists gu gd au ad ru rd : bool,
    (gd = true -> gu = false) /\ (ad = true -> au = false)
    /\ (rd = true -> ru = false)
    /\ forall z, applyStickyHysteresis yearBand th z v =
         match z with
         | Z_GREEN => if gu then Z_AMBER else Z_GREEN
         | Z_AMBER => if gd then Z_GREEN else if au then Z_DEEP else Z_AMBER
         | Z_DEEP => if ad then Z_AMBER else if ru then Z_RED else Z_DEEP
         | Z_RED => if rd then Z_DEEP else Z_RED
         end.
Proof.
  destruct (hys_margins_positive yearBand) as (ga & ad & Ega & Ead & Pga & Pad).
  exists (v >? greenMax th + Fin ga)%float, (v <? greenMax th - Fin ga)%float,
         (v >? amberMax th + Fin ad)%float, (v <? amberMax th - Fin ad)%float,
         (v >? redWarnDb th + Fin 1.0)%float, (v <? redWarnDb th - Fin 1.0)%float.
  split; [apply hys_band_excl; exact Pga|].
  split; [apply hys_band_excl; exact Pad|].
  split; [apply hys_band_excl; reflexivity|].
  intro z. unfold applyStickyHysteresis. rewrite Ega, Ead.
  destruct z; reflexivity.
Qed.

(** C4 (as stated) fails: under the Y2Y3 defaults (49, 52, 55) the value 53
    takes Green to Amber, and a second application with the same value takes
    Amber on to Deep. *)
Lemma applyStickyHysteresis_not_idempotent :
  let th := applyGuardrails (thresholdsForBand (Some "Y2Y3"%string)) (Some "Y2Y3"%string) in
  applyStickyHysteresis "Y2Y3" th Z_GREEN (Fin 53) = Z_AMBER
  /\ applyStickyHysteresis "Y2Y3" th Z_AMBER (Fin 53) = Z_DEEP.
Proof.
  vm_compute. split; reflexivity.
Qed.

(** C4 (as amended): a second application at the same value never undoes
    the first.  Either the first application kept the zone and the second
    keeps it too, or the first moved one zone up (down) and the second
    returns that zone or the next one up (down). *)
Theorem applyStickyHysteresis_twice (yearBand : string) (th : Thresholds)
  (z : ColorZone) (v : float) :
  let z1 := applyStickyHysteresis yearBand th z v in
  let z2 := applyStickyHysteresis yearBand th z1 v in
  (z1 = z /\ z2 = z)
  \/ (zone_rank z1 = zone_rank z + 1
      /\ (z2 = z1 \/ zone_rank z2 = zone_rank z1 + 1))%Z
  \/ (zone_rank z1 = zone_rank z - 1
      /\ (z2 = z1 \/ zone_rank z2 = zone_rank z1 - 1))%Z.
Proof.
  destruct (applyStickyHysteresis_tests yearBand th v)
    as (gu & gd & au & ad & ru & rd & X1 & X2 & X3 & E).
  cbv zeta. rewrite !E.
  destruct z, gu, gd, au, ad, ru, rd; simpl;
    try (specialize (X1 eq_refl)); try (specialize (X2 eq_refl));
    try (specialize (X3 eq_refl)); try discriminate; simpl; tauto.
Qed.

Lemma iterateHysteresis_fixed (yearBand : string) (th : Thresholds)
  (z : ColorZone) (v : float) (n : nat) :
  applyStickyHysteresis yearBand th z v = z ->
  iterateHysteresis n yearBand th z v = z.
Proof.
  intro H. induction n as [|n IH]; simpl; [reflexivity|].
  rewrite H. exact IH.
Qed.

Lemma iterateHysteresis_three_fixed (yearBand : string) (th : Thresholds)
  (z : ColorZone) (v : float) :
  applyStickyHysteresis yearBand th (iterateHysteresis 3 yearBand th z v) v
  = iterateHysteresis 3 yearBand th z v.
Proof.
  destruct (applyStickyHysteresis_tests yearBand th v)
    as (gu & gd & au & ad & ru & rd & X1 & X2 & X3 & E).
  simpl. rewrite !E.
  destruct z, gu, gd, au, ad, ru, rd; simpl;
    try (specialize (X1 eq_refl)); try (specialize (X2 eq_refl));
    try (specialize (X3 eq_refl)); try discriminate; reflexivity.
Qed.

Lemma iterateHysteresis_plus (yearBand : string) (th : Thresholds)
  (z : ColorZone) (v : float) (n m : nat) :
  iterateHysteresis (n + m) yearBand th z v
  = iterateHysteresis m yearBand th (iterateHysteresis n yearBand th z v) v.
Proof.
  revert z. induction n as [|n IH]; intro z; simpl; [reflexivity|]. apply IH.
Qed.

(** C9: from every starting zone and at every fixed value, under any
    threshold set and either margin profile, the iteration is at a fixed
    point after three applications: the fourth application returns what the
    third returned, every later one does too, and a zone that is returned
    unchanged once is returned unchanged by every further application. *)
Theorem iterateHysteresis_stabilises (yearBand : string) (th : Thresholds)
  (z : ColorZone) (v : float) :
  iterateHysteresis 4 yearBand th z v = iterateHysteresis 3 yearBand th z v
  /\ (forall n, iterateHysteresis (3 + n) yearBand th z v
                = iterateHysteresis 3 yearBand th z v)
  /\ (forall z' n, applyStickyHysteresis yearBand th z' v = z' ->
                   iterateHysteresis n yearBand th z' v = z').
Proof.
  assert (F : forall n, iterateHysteresis (3 + n) yearBand th z v
                        = iterateHysteresis 3 yearBand th z v).
  { intro n. rewrite iterateHysteresis_plus.
    apply iterateHysteresis_fixed, iterateHysteresis_three_fixed. }
  split; [exact (F 1%nat)|]. split; [exact F|].
  intros z' n H. now apply iterateHysteresis_fixed.
Qed.

Lemma iterateHysteresis_stabilises_witness :
  applyStickyHysteresis "Y2Y3" (th3 49 52 55) Z_DEEP (Fin 53) = Z_DEEP
  /\ iterateHysteresis 7 "Y2Y3" (th3 49 52 55) Z_DEEP (Fin 53) = Z_DEEP.
Proof.
  split; [reflexivity|].
  apply (proj2 (proj2 (iterateHysteresis_stabilises "Y2Y3" (th3 49 52 55)
                         Z_GREEN (Fin 53))) Z_DEEP 7%nat).
  reflexivity.
Defined.

(** Three applications are needed: Green reaches Red only at the third. *)
Lemma iterateHysteresis_three_needed :
  iterateHysteresis 2 "Y2Y3" (th3 49 52 55) Z_GREEN (Fin 60) = Z_DEEP
  /\ iterateHysteresis 3 "Y2Y3" (th3 49 52 55) Z_GREEN (Fin 60) = Z_RED.
Proof.
  vm_compute. split; reflexivity.
Qed.

(** ** Welford statistics *)

Lemma Qlen_snoc (l : list Q) (x : Q) : (Qlen (l ++ [x]) == Qlen l + 1)%Q.
Proof.
  unfold Qlen. rewrite length_app. simpl.
  rewrite Nat2Z.inj_add, inject_Z_plus. reflexivity.
Qed.

Lemma Qsum_snoc (l : list Q) (x : Q) : (Qsum (l ++ [x]) == Qsum l + x)%Q.
Proof.
  unfold Qsum. induction l as [|y l IH]; simpl; [ring|]. rewrite IH. ring.
Qed.

Lemma Qsumsq_snoc (l : list Q) (x : Q) : (Qsumsq (l ++ [x]) == Qsumsq l + x * x)%Q.
Proof.
  unfold Qsumsq. rewrite map_app. simpl. apply Qsum_snoc.
Qed.

Lemma Qlen_nil_iff (l : list Q) : (Qlen l == 0)%Q <-> l = [].
Proof.
  unfold Qlen. change 0%Q with (inject_Z 0). rewrite inject_Z_injective.
  destruct l; simpl; split; intro H; try reflexivity; try discriminate; lia.
Qed.

Lemma feedCalibration_snoc (l : list float) (x : float) (c : RoomCal) :
  feedCalibration (l ++ [x]) c = updateRoomCalibration x (feedCalibration l c).
Proof.
  unfold feedCalibration. now rewrite fold_left_app.
Qed.

Lemma welford_reset (band : string) (epoch : Z) (c : RoomCal) :
  welford_state [] (resetRoomCalibration band epoch c).
Proof.
  split; [reflexivity|]. exists 0%Q, 0%Q. simpl.
  repeat split; try reflexivity.
Qed.

(** One Welford update keeps the state tied to the sums, as long as the
    32-bit count does not wrap. *)
Lemma welford_step (l : list Q) (x : Q) (c : RoomCal) :
  (Z.of_nat (List.length l) + 1 < 2 ^ 32)%Z ->
  welford_state l c ->
  welford_state (l ++ [x]) (updateRoomCalibration (Fin x) c).
Proof.
  intros Hlen (Hc & m & q & Em & Eq & Hm & Hq & H0).
  unfold updateRoomCalibration. simpl isfinite. cbv iota. simpl negb. cbv iota.
  set (n := Z.of_nat (List.length l)) in *.
  assert (Hu : u32 (calCount c + 1) = (n + 1)%Z).
  { rewrite Hc. unfold u32. apply Z.mod_small. lia. }
  rewrite Hu.
  assert (Hn1 : ~ (inject_Z (n + 1) == 0)%Q).
  { change 0%Q with (inject_Z 0). rewrite inject_Z_injective. lia. }
  assert (HQn : (Qlen l == inject_Z n)%Q) by reflexivity.
  assert (HQn1 : (Qlen (l ++ [x]) == inject_Z (n + 1))%Q).
  { rewrite Qlen_snoc, HQn, inject_Z_plus. reflexivity. }
  split.
  - simpl. rewrite length_app. simpl. lia.
  - rewrite Em, Eq. unfold of_Z. simpl.
    apply Qeqb_false in Hn1. rewrite Hn1.
    apply Qeqb_false in Hn1.
    eexists. eexists. split; [reflexivity|]. split; [reflexivity|].
    rewrite Qsum_snoc, Qsumsq_snoc, HQn1.
    assert (Hk : (inject_Z (n + 1) == Qlen l + 1)%Q).
    { rewrite inject_Z_plus, HQn. reflexivity. }
    split; [|split].
    + rewrite <- Hm. rewrite Hk in *. field. exact Hn1.
    + destruct (Qeq_dec (Qlen l) 0) as [Z0|NZ].
      * apply Qlen_nil_iff in Z0. destruct (H0 Z0) as [M0 Q0]. subst l.
        unfold n. simpl. rewrite M0, Q0. unfold Qsumsq, Qsum. simpl.
        field.
      * assert (Em' : (m == Qsum l / Qlen l)%Q).
        { rewrite <- Hm. field. exact NZ. }
        assert (Eq' : (q == Qsumsq l - Qsum l * Qsum l / Qlen l)%Q).
        { apply (Qmult_inj_r _ _ (Qlen l) NZ). rewrite Hq. field. exact NZ. }
        rewrite Em', Eq', Hk in *. field. split; assumption.
    + intro E. destruct l; discriminate.
Qed.

Lemma welford_feed (l : list Q) (c : RoomCal) :
  welford_state [] c ->
  (Z.of_nat (List.length l) < 2 ^ 32)%Z ->
  welford_state l (feedCalibration (map Fin l) c).
Proof.
  intro H0. induction l as [|x l IH] using rev_ind; intro Hlen.
  - exact H0.
  - rewrite map_app. simpl map. rewrite feedCalibration_snoc.
    rewrite length_app in Hlen. simpl in Hlen.
    apply welford_step; [lia|]. apply IH. lia.
Qed.

Lemma Qlen_cons (x : Q) (l : list Q) : (Qlen (x :: l) == Qlen l + 1)%Q.
Proof.
  unfold Qlen. simpl List.length. rewrite Nat2Z.inj_succ.
  unfold Z.succ. rewrite inject_Z_plus. reflexivity.
Qed.

(** Sum of squared deviations from any centre, by the sums of the samples. *)
Lemma Qsum_sqdev (l : list Q) (c : Q) :
  (Qsum (map (fun x => (x - c) * (x - c)) l)
   == Qsumsq l - 2 * c * Qsum l + Qlen l * c * c)%Q.
Proof.
  induction l as [|x l IH].
  - unfold Qsumsq, Qsum, Qlen. simpl. ring.
  - rewrite Qlen_cons. unfold Qsumsq, Qsum in *. simpl. rewrite IH. ring.
Qed.

Lemma welford_mean (l : list Q) (c : RoomCal) :
  welford_state l c -> exists m, calMean c = Fin m /\ (m == arithmetic_mean l)%Q.
Proof.
  intros (_ & m & q & Em & _ & Hm & _ & H0).
  exists m. split; [exact Em|]. unfold arithmetic_mean.
  destruct (Qeq_dec (Qlen l) 0) as [Z0|NZ].
  - apply Qlen_nil_iff in Z0. destruct (H0 Z0) as [M0 _]. subst l.
    rewrite M0. reflexivity.
  - rewrite <- Hm. field. exact NZ.
Qed.

Lemma welford_variance (l : list Q) (c : RoomCal) :
  (Z.of_nat (List.length l) < 2 ^ 32)%Z -> (2 <= List.length l)%nat ->
  welford_state l c ->
  exists v, (calM2 c / of_Z (u32 (calCount c - 1)))%float = Fin v
            /\ (v == sample_variance l)%Q.
Proof.
  intros Hlen H2 (Hc & m & q & _ & Eq & _ & Hq & _).
  set (n := Z.of_nat (List.length l)) in *.
  assert (Hn : (2 <= n)%Z) by lia.
  assert (Hu : u32 (calCount c - 1) = (n - 1)%Z).
  { rewrite Hc. unfold u32. apply Z.mod_small. lia. }
  assert (Hn1 : ~ (inject_Z (n - 1) == 0)%Q).
  { change 0%Q with (inject_Z 0). rewrite inject_Z_injective. lia. }
  assert (HQn : (Qlen l == inject_Z n)%Q) by reflexivity.
  assert (NZ : ~ (Qlen l == 0)%Q).
  { rewrite HQn. change 0%Q with (inject_Z 0). rewrite inject_Z_injective. lia. }
  assert (Hk : (inject_Z (n - 1) == Qlen l - 1)%Q).
  { unfold Z.sub. rewrite inject_Z_plus, HQn. reflexivity. }
  rewrite Eq, Hu. unfold of_Z. simpl.
  apply Qeqb_false in Hn1. rewrite Hn1. apply Qeqb_false in Hn1.
  eexists. split; [reflexivity|].
  unfold sample_variance. rewrite Qsum_sqdev. unfold arithmetic_mean.
  assert (Eq' : (q == Qsumsq l - Qsum l * Qsum l / Qlen l)%Q).
  { apply (Qmult_inj_r _ _ (Qlen l) NZ). rewrite Hq. field. exact NZ. }
  rewrite Eq'. rewrite Hk in *. field. split; assumption.
Qed.



(** ** Welford statistics under rounding *)

Lemma bound_scale (t c y : Q) :
  0 <= t -> t <= 1 -> - c <= y -> y <= c -> - c <= y * t /\ y * t <= c.
Proof.
  intros. split; nra.
Qed.

Lemma bound_prod (A C a c : Q) :
  - A <= a -> a <= A -> - C <= c -> c <= C -> - (A * C) <= a * c /\ a * c <= A * C.
Proof.
  intros. split; nra.
Qed.

Lemma bound_convex (t B m x : Q) :
  0 <= t -> t <= 1 -> - B <= m -> m <= B -> - B <= x -> x <= B ->
  - B <= m + (x + - m) * t /\ m + (x + - m) * t <= B.
Proof.
  intros. split; nra.
Qed.

Lemma Qabs_bound (x c : Q) : Qabs x <= c <-> - c <= x /\ x <= c.
Proof.
  apply Qabs_Qle_condition.
Qed.

Lemma Qinv_unit (k : Q) : 1 <= k -> 0 <= / k /\ / k <= 1.
Proof.
  intro H. assert (P : 0 < k) by lra. split.
  - apply Qlt_le_weak, Qinv_lt_0_compat, P.
  - setoid_replace (/ k) with (1 / k) by (unfold Qdiv; ring).
    apply Qle_shift_div_r; [exact P|lra].
Qed.

Section RoundedStep.

Variable rnd : Q -> Q.
Variables u eta R : Q.
Hypothesis rnd_model : rounding_model u eta R rnd.
Hypothesis eta_nonneg : 0 <= eta.
Hypothesis eta_le_u : eta <= u.

Lemma rnd_err (q c : Q) :
  - c <= q -> q <= c -> c <= R ->
  - (u * c + eta) <= rnd q - q /\ rnd q - q <= u * c + eta.
Proof.
  intros H1 H2 H3.
  assert (A : Qabs q <= c) by (apply Qabs_bound; split; assumption).
  assert (E : Qabs (rnd q - q) <= u * Qabs q + eta) by (apply rnd_model; lra).
  apply Qabs_bound in E.
  assert (U : 0 <= u) by lra.
  assert (M : u * Qabs q <= u * c) by nra.
  lra.
Qed.

(** One update, exact against rounded: the rounded mean and M2 move away
    from the exact ones by a bounded amount, and every value that is rounded
    has magnitude at most [R]. *)
Lemma welford_step_error (B a Amax sb b k x m s M S : Q) :
  1 <= B -> 17 * u <= 1 -> 1 <= k ->
  - B <= x <= B -> - B <= m <= B -> - sb <= s <= sb ->
  - a <= M - m <= a -> - b <= S - s <= b ->
  a + 17 * (u * B) <= Amax -> Amax <= B ->
  sb + b + 17 * (B * B) <= R ->
  let d := rnd (x + - M) in
  let M' := rnd (M + rnd (d / k)) in
  let d2 := rnd (x + - M') in
  let S' := rnd (S + rnd (d * d2)) in
  let m' := m + (x + - m) / k in
  let s' := s + (x + - m) * (x + - m') in
  - B <= m' <= B
  /\ - (sb + 4 * (B * B)) <= s' <= sb + 4 * (B * B)
  /\ - (a + 17 * (u * B)) <= M' - m' <= a + 17 * (u * B)
  /\ - (b + 6 * (Amax * B) + 26 * (u * B * B) + u * (sb + b + 17 * (B * B)))
     <= S' - s'
     <= b + 6 * (Amax * B) + 26 * (u * B * B) + u * (sb + b + 17 * (B * B))
  /\ (Qabs (x + - M) <= R /\ Qabs (d / k) <= R /\ Qabs (M + rnd (d / k)) <= R
      /\ Qabs (x + - M') <= R /\ Qabs (d * d2) <= R
      /\ Qabs (S + rnd (d * d2)) <= R).
Proof.
  intros HB Hu Hk Hx Hm Hs HM HS Ha HA HR.
  unfold Qdiv. destruct (Qinv_unit k Hk) as [r0 r1].
  set (r := / k) in *.
  assert (U : 0 <= u) by lra.
  assert (a0 : 0 <= a) by lra.
  assert (b0 : 0 <= b) by lra.
  assert (s0 : 0 <= sb) by lra.
  assert (FuB : u <= u * B) by nra.
  assert (FBB : B <= B * B) by nra.
  assert (FuBB : u * B <= u * B * B) by nra.
  assert (F17 : 17 * (u * B) <= B) by nra.
  assert (F17b : 17 * (u * B * B) <= B * B) by nra.
  (* delta *)
  destruct (rnd_err (x + - M) (3 * B)) as [E1l E1u]; [lra|lra|lra|].
  set (d := rnd (x + - M)) in *.
  destruct (bound_scale r (4 * B) d r0 r1) as [D1l D1u]; [lra|lra|].
  (* delta / count *)
  destruct (rnd_err (d * r) (4 * B)) as [E2l E2u]; [lra|lra|lra|].
  set (q1 := rnd (d * r)) in *.
  (* mean *)
  destruct (rnd_err (M + q1) (7 * B)) as [E3l E3u]; [lra|lra|lra|].
  set (M' := rnd (M + q1)) in *.
  destruct (bound_convex r B m x r0 r1) as [C1l C1u]; [lra|lra|lra|lra|].
  set (m' := m + (x + - m) * r) in *.
  destruct (bound_scale (1 - r) a (M - m)) as [P1l P1u]; [lra|lra|lra|lra|].
  destruct (bound_scale r (u * (3 * B) + eta) (d - (x + - M)) r0 r1)
    as [P2l P2u]; [lra|lra|].
  assert (EM : - (a + 17 * (u * B)) <= M' - m' <= a + 17 * (u * B)).
  { unfold m'. split; lra. }
  (* delta2 *)
  destruct (rnd_err (x + - M') (3 * B)) as [E4l E4u]; [lra|lra|lra|].
  set (d2 := rnd (x + - M')) in *.
  (* delta * delta2 *)
  destruct (bound_prod (4 * B) (4 * B) d d2) as [P3l P3u]; [lra|lra|lra|lra|].
  destruct (rnd_err (d * d2) (4 * B * (4 * B))) as [E5l E5u]; [lra|lra|lra|].
  set (p := rnd (d * d2)) in *.
  (* M2 *)
  destruct (rnd_err (S + p) (sb + b + 17 * (B * B))) as [E6l E6u]; [lra|lra|lra|].
  set (S' := rnd (S + p)) in *.
  destruct (bound_prod (2 * B) (2 * B) (x + - m) (x + - m')) as [P4l P4u];
    [lra|lra|lra|lra|].
  destruct (bound_prod Amax (4 * B) (d - (x + - m)) d2) as [P5l P5u];
    [lra|lra|lra|lra|].
  destruct (bound_prod (2 * B) (Amax + 4 * (u * B)) (x + - m) (d2 - (x + - m')))
    as [P6l P6u]; [lra|lra|lra|lra|].
  split; [split; assumption|]. split; [split; lra|]. split; [exact EM|].
  split; [split; lra|].
  repeat split; apply Qabs_bound; split; lra.
Qed.

End RoundedStep.

Lemma feedCalibration_fl_snoc (rd : float -> float) (l : list float) (x : float)
  (c : RoomCal) :
  feedCalibration_fl rd (l ++ [x]) c
  = updateRoomCalibration_fl rd x (feedCalibration_fl rd l c).
Proof.
  unfold feedCalibration_fl. now rewrite fold_left_app.
Qed.

(** With nothing rounded the rounded update is the exact one. *)
Lemma updateRoomCalibration_fl_exact (x : float) (c : RoomCal) :
  updateRoomCalibration_fl (fun y => y) x c = updateRoomCalibration x c.
Proof.
  reflexivity.
Qed.

(** The exact update on finite statistics, field by field. *)
Lemma updateRoomCalibration_Fin (x m s : Q) (k : Z) (c : RoomCal) :
  calMean c = Fin m -> calM2 c = Fin s -> u32 (calCount c + 1) = k -> (1 <= k)%Z ->
  let c' := updateRoomCalibration (Fin x) c in
  let m' := m + (x + - m) / inject_Z k in
  calCount c' = k /\ calMean c' = Fin m'
  /\ calM2 c' = Fin (s + (x + - m) * (x + - m')).
Proof.
  intros Em Es Ek Hk.
  unfold updateRoomCalibration. cbn [isfinite negb]. cbv zeta.
  rewrite Em, Es, Ek. unfold of_Z. cbn [fsub fadd fopp fdiv].
  replace (Qeq_bool (inject_Z k) 0) with false.
  2:{ symmetry. apply Qeqb_false. change 0 with (inject_Z 0).
      rewrite inject_Z_injective. lia. }
  cbn [fsub fadd fopp fmul calCount calMean calM2 set_stats].
  repeat split.
Qed.

(** The rounded update on finite statistics, field by field, where the
    values that are rounded are within the range of the format. *)
Lemma updateRoomCalibration_fl_Fin (rd : float -> float) (rnd : Q -> Q) (R : Q)
  (x M S : Q) (k : Z) (c : RoomCal) :
  rounds_finite R rd rnd ->
  calMean c = Fin M -> calM2 c = Fin S -> u32 (calCount c + 1) = k -> (1 <= k)%Z ->
  let c' := updateRoomCalibration_fl rd (Fin x) c in
  let d := rnd (x + - M) in
  let M' := rnd (M + rnd (d / inject_Z k)) in
  let d2 := rnd (x + - M') in
  Qabs (x + - M) <= R /\ Qabs (d / inject_Z k) <= R
  /\ Qabs (M + rnd (d / inject_Z k)) <= R
  /\ Qabs (x + - M') <= R /\ Qabs (d * d2) <= R
  /\ Qabs (S + rnd (d * d2)) <= R ->
  calCount c' = k /\ calMean c' = Fin M'
  /\ calM2 c' = Fin (rnd (S + rnd (d * d2))).
Proof.
  intros Hrd EM ES Ek Hk c' d M' d2 (R1 & R2 & R3 & R4 & R5 & R6).
  unfold c', updateRoomCalibration_fl. cbn [isfinite negb]. cbv zeta.
  rewrite EM, ES, Ek. unfold of_Z. cbn [fsub fadd fopp].
  rewrite (Hrd _ R1). fold d. cbn [fdiv].
  replace (Qeq_bool (inject_Z k) 0) with false.
  2:{ symmetry. apply Qeqb_false. change 0 with (inject_Z 0).
      rewrite inject_Z_injective. lia. }
  rewrite (Hrd _ R2). cbn [fadd]. rewrite (Hrd _ R3). fold M'.
  cbn [fadd fopp]. rewrite (Hrd _ R4). fold d2.
  cbn [fmul]. rewrite (Hrd _ R5). cbn [fadd]. rewrite (Hrd _ R6).
  cbn [calCount calMean calM2 set_stats].
  repeat split.
Qed.

Lemma Qlen_nonneg (l : list Q) : 0 <= Qlen l.
Proof.
  unfold Qlen. change 0 with (inject_Z 0). rewrite <- Zle_Qle. lia.
Qed.

Lemma welford_error_reset (u B n : Q) (band : string) (epoch : Z) (c : RoomCal) :
  1 <= B ->
  welford_error_state u B n []
    (resetRoomCalibration band epoch c) (resetRoomCalibration band epoch c).
Proof.
  intro HB. split; [reflexivity|]. split; [reflexivity|].
  exists 0, 0, 0, 0. repeat (split; [reflexivity|]).
  change (Qlen []) with 0.
  repeat split; apply Qabs_bound; split; lra.
Qed.

Lemma welford_error_step (rd : float -> float) (rnd : Q -> Q) (u eta R B n : Q)
  (l : list Q) (x : Q) (ce cf : RoomCal) :
  rounds_finite R rd rnd ->
  rounding_model u eta R rnd -> 0 <= eta -> eta <= u -> 1 <= B ->
  145 * n * u <= 1 -> (5 * n + 12) * (B * B) <= R ->
  Qlen l + 1 <= n -> (Z.of_nat (List.length l) + 1 < 2 ^ 32)%Z ->
  Qabs x <= B ->
  welford_error_state u B n l ce cf ->
  welford_error_state u B n (l ++ [x])
    (updateRoomCalibration (Fin x) ce) (updateRoomCalibration_fl rd (Fin x) cf).
Proof.
  intros Hrd Hrnd He0 Heu HB Hnu HR Hn Hlen Hx
    (Hce & Hcf & m & s & M & S & Em & Es & EM & ES & Bm & Bs & BM & BS).
  apply Qabs_bound in Hx, Bm, Bs, BM, BS.
  pose proof (Qlen_nonneg l) as L0.
  set (L := Qlen l) in *.
  set (k := (Z.of_nat (List.length l) + 1)%Z).
  assert (Ek : inject_Z k == L + 1).
  { unfold k, L, Qlen. rewrite inject_Z_plus. reflexivity. }
  assert (Hk : (1 <= k)%Z) by (unfold k; lia).
  assert (Uce : u32 (calCount ce + 1) = k).
  { rewrite Hce. unfold u32. apply Z.mod_small. unfold k. lia. }
  assert (Ucf : u32 (calCount cf + 1) = k).
  { rewrite Hcf. unfold u32. apply Z.mod_small. unfold k. lia. }
  assert (U0 : 0 <= u) by lra.
  assert (W0 : 0 <= u * B * B) by nra.
  assert (V0 : 0 <= u * B) by nra.
  assert (BB0 : 0 <= B * B) by nra.
  assert (N1 : 1 <= n) by lra.
  assert (NU : 0 <= n * u) by nra.
  assert (T17 : 17 * u <= 1) by nra.
  assert (TA : 17 * L * (u * B) + 17 * (u * B) <= 17 * n * (u * B)) by nra.
  assert (TB : 17 * n * (u * B) <= B) by nra.
  assert (LBB : 0 <= L * (B * B)) by nra.
  assert (LW : 0 <= L * (u * B * B)) by nra.
  assert (T1 : 145 * L * n * (u * B * B) <= L * (B * B)) by nra.
  assert (T2 : u * (145 * L * n * (u * B * B)) <= L * (u * B * B)) by nra.
  assert (T3 : (5 * L + 17) * (B * B) <= (5 * n + 12) * (B * B)) by nra.
  assert (T4 : (43 + 5 * L) * (u * B * B) <= 43 * n * (u * B * B)) by nra.
  destruct (welford_step_error rnd u eta R Hrnd He0 Heu B
              (17 * L * (u * B)) (17 * n * (u * B)) (4 * L * (B * B))
              (145 * L * n * (u * B * B)) (inject_Z k) x m s M S)
    as (Rm & Rs & RM & RS & RR);
    try assumption; try lra.
  destruct (updateRoomCalibration_fl_Fin rd rnd R x M S k cf Hrd EM ES Ucf Hk RR)
    as (F1 & F2 & F3).
  destruct (updateRoomCalibration_Fin x m s k ce Em Es Uce Hk) as (G1 & G2 & G3).
  assert (Elen : Z.of_nat (List.length (l ++ [x])) = k).
  { rewrite length_app. simpl. unfold k. lia. }
  split; [rewrite G1; symmetry; exact Elen|].
  split; [rewrite F1; symmetry; exact Elen|].
  eexists _, _, _, _.
  split; [exact G2|]. split; [exact G3|]. split; [exact F2|]. split; [exact F3|].
  rewrite !Qlen_snoc. fold L.
  repeat split; apply Qabs_bound; split; lra.
Qed.

Lemma welford_error_feed (rd : float -> float) (rnd : Q -> Q) (u eta R B n : Q)
  (l : list Q) (c0 : RoomCal) :
  rounds_finite R rd rnd ->
  rounding_model u eta R rnd -> 0 <= eta -> eta <= u -> 1 <= B ->
  145 * n * u <= 1 -> (5 * n + 12) * (B * B) <= R ->
  welford_error_state u B n [] c0 c0 ->
  Forall (fun x => Qabs x <= B) l ->
  Qlen l <= n -> (Z.of_nat (List.length l) < 2 ^ 32)%Z ->
  welford_error_state u B n l
    (feedCalibration (map Fin l) c0) (feedCalibration_fl rd (map Fin l) c0).
Proof.
  intros Hrd Hrnd He0 Heu HB Hnu HR H0.
  induction l as [|x l IH] using rev_ind; intros Hb Hn Hlen.
  - exact H0.
  - apply Forall_app in Hb. destruct Hb as [Hb Hx].
    apply Forall_inv in Hx.
    rewrite Qlen_snoc in Hn. rewrite length_app in Hlen. simpl in Hlen.
    rewrite map_app. simpl map.
    rewrite feedCalibration_snoc, feedCalibration_fl_snoc.
    apply (welford_error_step rd rnd u eta R B n l x); try assumption; try lia.
    apply IH; [exact Hb| |lia].
    pose proof (Qlen_nonneg l). lra.
Qed.

Lemma bound_mul (c y t : Q) :
  0 <= t -> - c <= y -> y <= c -> - (c * t) <= y * t /\ y * t <= c * t.
Proof.
  intros. split; nra.
Qed.

(** The rounded statistics against the closed forms. *)
Lemma welford_rounded (rd : float -> float) (rnd : Q -> Q) (u eta R B : Q)
  (l : list Q) (band : string) (epoch : Z) (c : RoomCal) :
  (Z.of_nat (List.length l) < 2 ^ 32)%Z ->
  rounds_finite R rd rnd ->
  rounding_model u eta R rnd -> 0 <= eta <= u -> 1 <= B ->
  Forall (fun x => Qabs x <= B) l ->
  145 * Qlen l * u <= 1 -> (5 * Qlen l + 12) * (B * B) <= R ->
  let c' := feedCalibration_fl rd (map Fin l) (resetRoomCalibration band epoch c) in
  calCount c' = Z.of_nat (List.length l)
  /\ (exists M, calMean c' = Fin M
                /\ Qabs (M - arithmetic_mean l) <= 17 * Qlen l * u * B)
  /\ ((2 <= List.length l)%nat ->
      exists V, variance_fl rd c' = Fin V
                /\ Qabs (V - sample_variance l) <= 301 * Qlen l * u * (B * B)).
Proof.
  intros Hlen Hrd Hrnd [He0 Heu] HB Hb Hnu HR c'.
  set (c0 := resetRoomCalibration band epoch c) in *.
  pose proof (welford_feed l c0 (welford_reset band epoch c) Hlen) as W.
  pose proof (welford_error_feed rd rnd u eta R B (Qlen l) l c0 Hrd Hrnd He0 Heu HB
                Hnu HR
                (welford_error_reset u B (Qlen l) band epoch c HB) Hb
                (Qle_refl _) Hlen) as E.
  fold c' in E.
  set (ce := feedCalibration (map Fin l) c0) in *.
  destruct E as (Hce & Hcf & m & s & M & S & Em & Es & EM & ES & Bm & Bs & BM & BS).
  apply Qabs_bound in Bm, Bs, BM, BS.
  split; [exact Hcf|]. split.
  - destruct (welford_mean l ce W) as (m0 & Em0 & Hm0).
    rewrite Em in Em0. injection Em0 as <-.
    exists M. split; [exact EM|]. apply Qabs_bound. split; lra.
  - intro H2.
    destruct (welford_variance l ce Hlen H2 W) as (v & Ev & Hv).
    set (N := Z.of_nat (List.length l)) in *.
    assert (HN : (2 <= N)%Z) by (unfold N; lia).
    assert (Uce : u32 (calCount ce - 1) = (N - 1)%Z).
    { rewrite Hce. unfold u32. apply Z.mod_small. lia. }
    assert (Ucf : u32 (calCount c' - 1) = (N - 1)%Z).
    { rewrite Hcf. unfold u32. apply Z.mod_small. lia. }
    assert (NZ : Qeq_bool (inject_Z (N - 1)) 0 = false).
    { apply Qeqb_false. change 0 with (inject_Z 0).
      rewrite inject_Z_injective. lia. }
    rewrite Es, Uce in Ev. unfold of_Z in Ev. cbn [fdiv] in Ev.
    rewrite NZ in Ev. injection Ev as <-.
    unfold variance_fl. rewrite ES, Ucf. unfold of_Z. cbn [fdiv]. rewrite NZ.
    unfold Qdiv in *.
    assert (En : Qlen l == inject_Z (N - 1) + 1).
    { unfold Qlen. fold N. replace N with ((N - 1) + 1)%Z at 1 by lia.
      rewrite inject_Z_plus. reflexivity. }
    assert (K1 : 1 <= inject_Z (N - 1)).
    { change 1 with (inject_Z 1). rewrite <- Zle_Qle. lia. }
    destruct (Qinv_unit _ K1) as [r0 r1].
    assert (KR : inject_Z (N - 1) * / inject_Z (N - 1) == 1).
    { apply Qmult_inv_r. intro Z0. rewrite Z0 in K1. lra. }
    set (n := Qlen l) in *. set (k := inject_Z (N - 1)) in *.
    set (r := / k) in *.
    assert (NR : n * r == 1 + r).
    { rewrite En. setoid_replace ((k + 1) * r) with (k * r + r) by ring.
      rewrite KR. reflexivity. }
    assert (U0 : 0 <= u) by lra.
    assert (N2 : 2 <= n) by lra.
    assert (BB0 : 0 <= B * B) by nra.
    assert (W0 : 0 <= u * B * B) by nra.
    assert (BB1 : 1 <= B * B) by nra.
    assert (FBB : u <= u * B * B) by nra.
    assert (NB : 0 <= n * (B * B)) by nra.
    assert (NW : 0 <= n * (u * B * B)) by nra.
    assert (T1 : 145 * n * n * (u * B * B) <= n * (B * B)) by nra.
    destruct (bound_mul (5 * n * (B * B)) S r r0) as [S1 S2]; [lra|lra|].
    assert (T2 : 5 * n * (B * B) * r <= 10 * (B * B)) by nra.
    destruct (rnd_err rnd u eta R Hrnd He0 Heu (S * r) (10 * (B * B)))
      as [E1 E2]; [lra|lra|nra|].
    destruct (bound_mul (145 * n * n * (u * B * B)) (S - s) r r0) as [D1 D2];
      [lra|lra|].
    assert (T3 : 145 * n * n * (u * B * B) * r <= 290 * n * (u * B * B)) by nra.
    assert (T4 : 11 * (u * B * B) <= 11 * n * (u * B * B)) by nra.
    rewrite (Hrd (S * r)) by (apply Qabs_bound; split; nra).
    eexists. split; [reflexivity|].
    apply Qabs_bound. split; lra.
Qed.

(** ** binary64 *)

Lemma round_half_even_err (y : Q) :
  - (1 # 2) <= inject_Z (round_half_even y) - y /\ inject_Z (round_half_even y) - y <= 1 # 2.
Proof.
  unfold round_half_even. cbv zeta.
  pose proof (Qfloor_le y) as F1. pose proof (Qlt_floor y) as F2.
  rewrite inject_Z_plus in F2. change (inject_Z 1) with 1 in F2.
  destruct (Qltb (y - inject_Z (Qfloor y)) (1 # 2)) eqn:E1; q_reflect.
  - split; lra.
  - destruct (Qltb (1 # 2) (y - inject_Z (Qfloor y))) eqn:E2; q_reflect.
    + rewrite inject_Z_plus. change (inject_Z 1) with 1. split; lra.
    + destruct (Z.even (Qfloor y)).
      * split; lra.
      * rewrite inject_Z_plus. change (inject_Z 1) with 1. split; lra.
Qed.

Lemma Qpower2_pos (t : Z) : 0 < 2 ^ t.
Proof.
  apply Qpower_0_lt. reflexivity.
Qed.

Lemma Qpower2_succ (t : Z) : 2 ^ (t + 1) == 2 * 2 ^ t.
Proof.
  rewrite Qpower_plus by discriminate. change (2 ^ 1) with 2. ring.
Qed.

Lemma Qpower2_inject (n : Z) : (0 <= n)%Z -> 2 ^ n == inject_Z (2 ^ n).
Proof.
  intro H. symmetry. apply (Zpower_Qpower 2 n H).
Qed.

(** The exponent found is not above the value. *)
Lemma Qlog2_floor_le (q : Q) : 0 < q -> 2 ^ Qlog2_floor q <= q.
Proof.
  intro P. unfold Qlog2_floor. cbv zeta.
  destruct (Qle_bool (2 ^ (Z.log2 (Qnum q) - Z.log2 (Z.pos (Qden q)))) q) eqn:E;
    q_reflect; [exact E|].
  destruct q as [a b]. cbn [Qnum Qden] in *.
  assert (Pa : (0 < a)%Z).
  { unfold Qlt in P. cbn in P. lia. }
  destruct (Z.log2_spec a Pa) as [A1 _].
  destruct (Z.log2_spec (Z.pos b) (Pos2Z.is_pos b)) as [_ B2].
  set (la := Z.log2 a) in *. set (lb := Z.log2 (Z.pos b)) in *.
  assert (La : (0 <= la)%Z) by apply Z.log2_nonneg.
  assert (Lb : (0 <= lb)%Z) by apply Z.log2_nonneg.
  replace (la - lb - 1)%Z with (la + - (lb + 1))%Z by lia.
  rewrite Qpower_plus by discriminate. rewrite Qpower_opp.
  rewrite (Qpower2_inject la La), (Qpower2_inject (lb + 1)) by lia.
  assert (Pb : 0 < inject_Z (2 ^ (lb + 1))).
  { change 0 with (inject_Z 0). rewrite <- Zlt_Qlt. apply Z.pow_pos_nonneg; lia. }
  apply Qle_shift_div_r; [exact Pb|].
  unfold Qle, Qmult, inject_Z. cbn [Qnum Qden].
  rewrite !Z.mul_1_r, Pos.mul_1_r.
  fold (Z.succ lb) in *. nia.
Qed.

(** ... and the next power of two is above it. *)
Lemma Qlog2_floor_lt (q : Q) : 0 < q -> q < 2 ^ (Qlog2_floor q + 1).
Proof.
  intro P. unfold Qlog2_floor. cbv zeta.
  destruct (Qle_bool (2 ^ (Z.log2 (Qnum q) - Z.log2 (Z.pos (Qden q)))) q) eqn:E;
    q_reflect.
  2:{ replace (Z.log2 (Qnum q) - Z.log2 (Z.pos (Qden q)) - 1 + 1)%Z
        with (Z.log2 (Qnum q) - Z.log2 (Z.pos (Qden q)))%Z by lia.
      exact E. }
  clear E. destruct q as [a b]. cbn [Qnum Qden] in *.
  assert (Pa : (0 < a)%Z).
  { unfold Qlt in P. cbn in P. lia. }
  destruct (Z.log2_spec a Pa) as [_ A2].
  destruct (Z.log2_spec (Z.pos b) (Pos2Z.is_pos b)) as [B1 _].
  set (la := Z.log2 a) in *. set (lb := Z.log2 (Z.pos b)) in *.
  assert (La : (0 <= la)%Z) by apply Z.log2_nonneg.
  assert (Lb : (0 <= lb)%Z) by apply Z.log2_nonneg.
  replace (la - lb + 1)%Z with ((la + 1) + - lb)%Z by lia.
  rewrite Qpower_plus by discriminate. rewrite Qpower_opp.
  rewrite (Qpower2_inject (la + 1)), (Qpower2_inject lb Lb) by lia.
  assert (Pb : 0 < inject_Z (2 ^ lb)).
  { change 0 with (inject_Z 0). rewrite <- Zlt_Qlt. apply Z.pow_pos_nonneg; lia. }
  apply Qlt_shift_div_l; [exact Pb|].
  unfold Qlt, Qmult, inject_Z. cbn [Qnum Qden].
  rewrite !Z.mul_1_r.
  fold (Z.succ la) in *. nia.
Qed.

(** Doubles by this rounding: 0.1 is 0x3FB999999999999A; a tie goes to the
    even neighbour; 2^-1074 is the smallest subnormal and half of it is a
    tie that goes to zero; the largest double is kept, and from half a unit
    in the last place above it the result is an infinity. *)
Lemma binary64_examples :
  round_binary64 (1 # 10) == 3602879701896397 # 2 ^ 55
  /\ round_binary64 (inject_Z (2 ^ 53 + 1)) == inject_Z (2 ^ 53)
  /\ round_binary64 (inject_Z (2 ^ 53 + 3)) == inject_Z (2 ^ 53 + 4)
  /\ round_binary64 (- inject_Z (2 ^ 53 + 3)) == - inject_Z (2 ^ 53 + 4)
  /\ round_binary64 (1 # 2 ^ 1074) == 1 # 2 ^ 1074
  /\ round_binary64 (1 # 2 ^ 1075) == 0
  /\ round_binary64 (3 # 2 ^ 1075) == 2 # 2 ^ 1074
  /\ round_binary64 binary64_max == binary64_max
  /\ (exists q, binary64 (Fin binary64_max) = Fin q /\ q == binary64_max)
  /\ binary64 (Fin binary64_overflow) = PInf
  /\ binary64 (Fin (- binary64_overflow)) = NInf
  /\ binary64 NaN = NaN.
Proof.
  repeat split; try (vm_compute; reflexivity).
  eexists. split; vm_compute; reflexivity.
Qed.

(** binary64 rounding obeys the standard model, wherever it does not
    overflow. *)
Lemma binary64_model (R : Q) :
  rounding_model binary64_u binary64_eta R round_binary64.
Proof.
  intros q _. unfold round_binary64.
  destruct (Qeq_bool q 0) eqn:Z0; q_reflect.
  { pose proof (Qabs_nonneg q) as A.
    assert (E : 0 <= binary64_u * Qabs q + binary64_eta).
    { unfold binary64_u, binary64_eta.
      assert (0 <= (1 # 2 ^ 53) * Qabs q) by (apply Qmult_le_0_compat; [discriminate|exact A]).
      assert (0 <= 1 # 2 ^ 1075) by discriminate. lra. }
    apply Qabs_bound. split; lra. }
  cbv zeta.
  assert (P : 0 < Qabs q).
  { pose proof (Qabs_nonneg q) as A. apply Qle_lteq in A. destruct A as [A|A]; [exact A|].
    exfalso. apply Z0.
    assert (B : Qabs q <= 0) by lra. apply Qabs_bound in B. lra. }
  pose proof (Qlog2_floor_le (Qabs q) P) as L.
  set (e := Qlog2_floor (Qabs q)) in *.
  set (t := (Z.max e (-1022) - 52)%Z).
  pose proof (Qpower2_pos t) as Pt.
  assert (H : (2 ^ t) * (1 # 2) <= binary64_u * Qabs q + binary64_eta).
  { unfold binary64_u, binary64_eta.
    assert (0 <= (1 # 2 ^ 53) * Qabs q) by (apply Qmult_le_0_compat; [discriminate|lra]).
    assert (E0 : 0 <= 1 # 2 ^ 1075) by discriminate.
    unfold t. destruct (Z.max_spec e (-1022)) as [[C ->]|[C ->]].
    - setoid_replace (2 ^ (-1022 - 52) * (1 # 2)) with (1 # 2 ^ 1075)
        by (vm_compute; reflexivity).
      lra.
    - replace (e - 52)%Z with (e + -52)%Z by lia.
      rewrite Qpower_plus by discriminate.
      setoid_replace (2 ^ (-52)) with (2 * (1 # 2 ^ 53)) by (vm_compute; reflexivity).
      setoid_replace (2 ^ e * (2 * (1 # 2 ^ 53)) * (1 # 2)) with ((1 # 2 ^ 53) * 2 ^ e)
        by ring.
      assert ((1 # 2 ^ 53) * 2 ^ e <= (1 # 2 ^ 53) * Qabs q)
        by (apply Qmult_le_l; [reflexivity|exact L]).
      lra. }
  destruct (round_half_even_err (q / 2 ^ t)) as [E1 E2].
  set (z := inject_Z (round_half_even (q / 2 ^ t))) in *.
  assert (Eq : q == q / 2 ^ t * 2 ^ t) by (field; lra).
  set (y := q / 2 ^ t) in *. set (p := 2 ^ t) in *.
  apply Qabs_bound. fold p. clearbody z y p. split; nra.
Qed.

(** Below the largest double, [binary64] is [round_binary64]. *)
Lemma binary64_finite : rounds_finite binary64_max binary64 round_binary64.
Proof.
  intros q H. unfold binary64.
  replace (Qltb (Qabs q) binary64_overflow) with true; [reflexivity|].
  symmetry. apply Qltb_lt.
  apply Qle_lt_trans with binary64_max; [exact H|].
  vm_compute. reflexivity.
Qed.

(** In binary64, with fewer than 2^32 samples of the magnitude of a
    [float], the side conditions of [welford_rounded] hold. *)
Lemma binary64_room (N : Z) (B : Q) :
  (0 <= N < 2 ^ 32)%Z -> 1 <= B -> B <= 2 ^ 128 ->
  145 * inject_Z N * binary64_u <= 1
  /\ (5 * inject_Z N + 12) * (B * B) <= binary64_max.
Proof.
  intros HN HB1 HB2.
  assert (N0 : 0 <= inject_Z N).
  { change 0 with (inject_Z 0). rewrite <- Zle_Qle. lia. }
  assert (N1 : inject_Z N <= 4294967296).
  { change 4294967296 with (inject_Z (2 ^ 32)). rewrite <- Zle_Qle. lia. }
  assert (E : 2 ^ 128 == 340282366920938463463374607431768211456) by reflexivity.
  rewrite E in HB2.
  assert (C : (5 * 4294967296 + 12)
              * (340282366920938463463374607431768211456
                 * 340282366920938463463374607431768211456) <= binary64_max)
    by (vm_compute; discriminate).
  set (K := 340282366920938463463374607431768211456) in *.
  assert (K0 : 0 <= K) by (unfold K; discriminate).
  split.
  - unfold binary64_u. change (1 # 2 ^ 53) with (1 # 9007199254740992). lra.
  - assert (BB : B * B <= K * K) by nra.
    assert (BB0 : 0 <= B * B) by nra.
    assert (T : (5 * inject_Z N + 12) * (B * B) <= (5 * 4294967296 + 12) * (K * K))
      by nra.
    lra.
Qed.

(** C5 (as amended): for every sequence of fewer than 2^32 finite samples
    fed in order to [updateRoomCalibration] after [resetRoomCalibration],
    calCount is the number of samples, and
    - over exact arithmetic calMean is their arithmetic mean and, from two
      samples on, calM2 divided by (count - 1) is their closed-form unbiased
      sample variance;
    - in binary64, every operation rounded to nearest and overflowing to
      an infinity, for n samples of magnitude at most B, with B between 1
      and 2^128 as every [float] is, calMean is finite and within
      17 n 2^-53 B of the arithmetic mean and, from two samples on, the
      quotient of calM2 by (count - 1) is finite and within 301 n 2^-53 B^2
      of the sample variance. *)
Theorem welford_mean_variance (l : list Q) (band : string) (epoch : Z) (c : RoomCal) :
  (Z.of_nat (List.length l) < 2 ^ 32)%Z ->
  let c0 := resetRoomCalibration band epoch c in
  let n := Qlen l in
  (let c' := feedCalibration (map Fin l) c0 in
   calCount c' = Z.of_nat (List.length l)
   /\ (exists m, calMean c' = Fin m /\ (m == arithmetic_mean l)%Q)
   /\ ((2 <= List.length l)%nat ->
       exists v, (calM2 c' / of_Z (u32 (calCount c' - 1)))%float = Fin v
                 /\ (v == sample_variance l)%Q))
  /\ (forall B : Q,
        1 <= B -> B <= 2 ^ 128 -> Forall (fun x => Qabs x <= B) l ->
        let c' := feedCalibration_fl binary64 (map Fin l) c0 in
        calCount c' = Z.of_nat (List.length l)
        /\ (exists M, calMean c' = Fin M
                      /\ Qabs (M - arithmetic_mean l) <= 17 * n * binary64_u * B)
        /\ ((2 <= List.length l)%nat ->
            exists V, variance_fl binary64 c' = Fin V
                      /\ Qabs (V - sample_variance l)
                         <= 301 * n * binary64_u * (B * B))).
Proof.
  intros Hlen c0 n. split.
  - intro c'.
    pose proof (welford_feed l _ (welford_reset band epoch c) Hlen) as W.
    fold c0 in W. fold c' in W.
    split; [exact (proj1 W)|]. split.
    + apply welford_mean. exact W.
    + intro H2. apply welford_variance; assumption.
  - intros B HB1 HB2 Hb.
    destruct (binary64_room (Z.of_nat (List.length l)) B) as [Hnu HR];
      [lia|exact HB1|exact HB2|].
    apply (welford_rounded binary64 round_binary64 binary64_u binary64_eta
             binary64_max B l band epoch c Hlen binary64_finite
             (binary64_model binary64_max)); try assumption.
    split; vm_compute; discriminate.
Qed.

Lemma welford_mean_variance_witness :
  let l := [40.1; 42.3; 47.7; 51.2]%Q in
  let c0 := resetRoomCalibration "Y2Y3" 1700000001 initial_cal in
  (Z.of_nat (List.length l) < 2 ^ 32)%Z
  /\ (2 <= List.length l)%nat
  /\ Forall (fun x => Qabs x <= 90) l
  /\ (let c' := feedCalibration (map Fin l) c0 in
      calCount c' = 4%Z
      /\ (exists m, calMean c' = Fin m /\ (m == arithmetic_mean l)%Q)
      /\ (exists v, (calM2 c' / of_Z (u32 (calCount c' - 1)))%float = Fin v
                    /\ (v == sample_variance l)%Q))
  /\ (let c' := feedCalibration_fl binary64 (map Fin l) c0 in
      calCount c' = 4%Z
      /\ (exists M, calMean c' = Fin M
                    /\ Qabs (M - arithmetic_mean l) <= 17 * Qlen l * binary64_u * 90)
      /\ (exists V, variance_fl binary64 c' = Fin V
                    /\ Qabs (V - sample_variance l)
                       <= 301 * Qlen l * binary64_u * (90 * 90))).
Proof.
  intros l c0.
  assert (B : (Z.of_nat (List.length l) < 2 ^ 32)%Z) by (simpl; lia).
  assert (T : (2 <= List.length l)%nat) by (simpl; lia).
  assert (F : Forall (fun x => Qabs x <= 90) l)
    by (repeat constructor; vm_compute; discriminate).
  assert (HB1 : 1 <= 90) by (vm_compute; discriminate).
  assert (HB2 : 90 <= 2 ^ 128) by (vm_compute; discriminate).
  split; [exact B|]. split; [exact T|]. split; [exact F|].
  destruct (welford_mean_variance l "Y2Y3" 1700000001 initial_cal B) as [[Hc [Hm Hv]] Hf].
  split.
  - split; [exact Hc|]. split; [exact Hm|]. exact (Hv T).
  - destruct (Hf 90 HB1 HB2 F) as [Gc [Gm Gv]].
    split; [exact Gc|]. split; [exact Gm|]. exact (Gv T).
Defined.

(** The rounding is at work in that run: the binary64 mean is the double
    nearest to 45.325, which is not 45.325; it lies above it, by less than
    2^-48. *)
Lemma welford_binary64_example :
  let l := [40.1; 42.3; 47.7; 51.2]%Q in
  let c' := feedCalibration_fl binary64 (map Fin l)
              (resetRoomCalibration "Y2Y3" 1700000001 initial_cal) in
  exists M, calMean c' = Fin M /\ arithmetic_mean l == 45.325
            /\ M == round_binary64 45.325
            /\ arithmetic_mean l < M /\ M - arithmetic_mean l <= 1 # 2 ^ 48.
Proof.
  eexists. split; [vm_compute; reflexivity|].
  split; [vm_compute; reflexivity|]. split; [vm_compute; reflexivity|].
  split; [vm_compute; reflexivity|vm_compute; intro H; discriminate H].
Qed.

(** Figures of an exact run: the samples 40, 42, 47, 51 have mean 45 and
    sample variance 74/3. *)
Lemma welford_example_values :
  (arithmetic_mean [40; 42; 47; 51] == 45)%Q
  /\ (sample_variance [40; 42; 47; 51] == 74 # 3)%Q.
Proof.
  split; vm_compute; reflexivity.
Qed.

Lemma Qsum_repeat_one (k : nat) : (Qsum (repeat 1%Q k) == inject_Z (Z.of_nat k))%Q.
Proof.
  induction k as [|k IH].
  - reflexivity.
  - cbn [repeat]. unfold Qsum in *. cbn [fold_right]. rewrite IH.
    rewrite Nat2Z.inj_succ. unfold Z.succ. rewrite inject_Z_plus. ring.
Qed.

(** When the 32-bit count wraps to zero the update divides by zero. *)
Lemma welford_wrap_step (k : nat) (c : RoomCal) :
  Z.of_nat k = (2 ^ 32 - 1)%Z ->
  welford_state (repeat 1%Q k) c ->
  calCount (updateRoomCalibration (Fin 1) c) = 0%Z
  /\ calMean (updateRoomCalibration (Fin 1) c) = NaN.
Proof.
  intros Hk (Hc & m & q & Em & _ & Hm & _ & _).
  rewrite repeat_length in Hc.
  assert (Hm1 : (m == 1)%Q).
  { unfold Qlen in Hm. rewrite repeat_length, Qsum_repeat_one, Hk in Hm.
    assert (NZ : ~ (inject_Z (2 ^ 32 - 1) == 0)%Q) by discriminate.
    apply (Qmult_inj_r _ _ _ NZ). rewrite Hm. ring. }
  unfold updateRoomCalibration. simpl isfinite. cbv iota. simpl negb. cbv iota.
  rewrite Hc, Hk, Em.
  change (u32 (2 ^ 32 - 1 + 1)) with 0%Z.
  split; [reflexivity|].
  cbn [calMean set_stats]. unfold of_Z, fsub, fadd, fdiv, fopp.
  change (Qeq_bool (inject_Z 0) 0) with true. cbv iota.
  unfold Qsign_pick.
  assert (E1 : Qltb 0 (1 + - m) = false) by (apply Qltb_ge; lra).
  assert (E2 : Qltb (1 + - m) 0 = false) by (apply Qltb_ge; lra).
  rewrite E1, E2. reflexivity.
Qed.

(** C5 (as stated) fails: [calCount] is a [uint32_t], so the 2^32-th sample
    of a constant reading 1.0 wraps it to zero and the mean update divides
    zero by zero: the mean is NaN, not 1. *)
Lemma welford_count_wraps :
  let c' := feedCalibration (repeat (Fin 1) (Z.to_nat (2 ^ 32)))
              (resetRoomCalibration "Y2Y3" 1700000001 initial_cal) in
  calCount c' = 0%Z /\ calMean c' = NaN.
Proof.
  remember (Z.to_nat (2 ^ 32 - 1)) as k eqn:Ek.
  assert (Hk : Z.of_nat k = (2 ^ 32 - 1)%Z) by (rewrite Ek; apply Z2Nat.id; discriminate).
  assert (HS : Z.to_nat (2 ^ 32) = S k).
  { apply Nat2Z.inj. rewrite Nat2Z.inj_succ, Hk, Z2Nat.id by discriminate. reflexivity. }
  rewrite HS. clear Ek HS.
  intro c'. subst c'.
  replace (repeat (Fin 1) (S k)) with (map Fin (repeat 1%Q k) ++ [Fin 1]).
  - rewrite feedCalibration_snoc. apply welford_wrap_step with (k := k); [exact Hk|].
    apply welford_feed; [apply welford_reset|].
    rewrite repeat_length, Hk. reflexivity.
  - rewrite map_repeat. symmetry. apply repeat_cons.
Qed.

(** ** Deriving the calibrated thresholds *)





(** The figures of that run: sigma is 3.162277, so the raw thresholds are
    47.8460493, 50.0596432 and 52.5894648; they are inside the Y2Y3
    guardrails and two apart, and are adopted unchanged. *)
Lemma finalize_example_values :
  ACTIVE_TH (finalizeRoomCalibrationIfDue sqrt_approx learned_epoch learned_g)
  = mkThresholds (Fin (45 + 0.90 * (3162277 # 1000000)))
                 (Fin (45 + 1.60 * (3162277 # 1000000)))
                 (Fin (45 + 2.40 * (3162277 # 1000000))).
Proof.
  vm_compute. reflexivity.
Qed.

(** The guardrails at work: with mean 30 and M2 990 over 100 samples the raw
    thresholds 32.846, 35.059 and 37.589 lie below the Y2Y3 guardrails, and
    the adopted triple is their lower bounds 38, 42 and 46. *)
Lemma finalize_clamps_example :
  ACTIVE_TH
    (finalizeRoomCalibrationIfDue sqrt_approx learned_epoch
       (set_cal (mkRoomCal true false 1700000001 100 (Fin 30) (Fin 990) (Fin 20)
                           (Fin 40) (th3 49 52 55))
                (initial_globals 0)))
  = th3 38 42 46.
Proof.
  vm_compute. reflexivity.
Qed.

(** With fewer than 60 samples the band default is adopted, whatever the
    statistics and whatever was active before. *)
Lemma finalize_few_samples_example :
  ACTIVE_TH
    (finalizeRoomCalibrationIfDue sqrt_approx learned_epoch
       (set_ACTIVE_TH (th3 40 45 50)
          (set_cal (mkRoomCal true false 1700000001 59 (Fin 30) (Fin 990) (Fin 20)
                              (Fin 40) (th3 40 45 50))
                   (initial_globals 0))))
  = th3 49 52 55.
Proof.
  vm_compute. reflexivity.
Qed.


(** ** What an iteration does to the reward state *)

Ltac split_ifs :=
  repeat match goal with
  | |- context [if ?b then _ else _] => destruct b eqn:?
  end.

Lemma reward_loop_sleep (t : Tick) (g : Globals) : reward (loop_sleep t g) = reward g.
Proof.
  unfold loop_sleep. split_ifs; reflexivity.
Qed.

Lemma reward_finalize (sqrt : float -> float) (epoch : Z) (g : Globals) :
  reward (finalizeRoomCalibrationIfDue sqrt epoch g) = reward g.
Proof.
  unfold finalizeRoomCalibrationIfDue. split_ifs; reflexivity.
Qed.

Lemma reward_loop_calibrate (sqrt : float -> float) (t : Tick) (g : Globals) :
  reward (loop_calibrate sqrt t g) = reward g.
Proof.
  unfold loop_calibrate. cbv zeta.
  match goal with
  | |- context [finalizeRoomCalibrationIfDue sqrt ?e ?x] =>
      pose proof (reward_finalize sqrt e x) as F;
      destruct (roomCalEnabled (cal (finalizeRoomCalibrationIfDue sqrt e x))
                && roomCalComplete (cal (finalizeRoomCalibrationIfDue sqrt e x)));
      simpl; rewrite F
  end; split_ifs; reflexivity.
Qed.

(** The LESSON edge is the only thing the sensing part does to the reward
    state. *)
Lemma reward_loop_sense (t : Tick) (g : Globals) :
  reward (loop_sense t g)
  = if WindowState_eqb (tick_ws t g) LESSON && negb (WindowState_eqb (lastWs g) LESSON)
    then set_quietStartMs 0 (set_lessonStartMs (u32 (nowMs t)) (reward g))
    else reward g.
Proof.
  unfold loop_sense, tick_ws. cbv zeta.
  destruct (usub (u32 (nowMs t)) (lastSampleTime g) >=? SAMPLE_INTERVAL_MS)%Z;
    simpl;
    destruct (WindowState_eqb
                (getWindowState (timetable g) (wday t) (hour t) (minute t)) LESSON
              && negb (WindowState_eqb (lastWs g) LESSON));
    simpl; split_ifs; reflexivity.
Qed.

Lemma flag_before_reward (sqrt : float -> float) (t : Tick) (g : Globals) :
  needsResetAboveGood (reward (loop_before_reward sqrt t g))
  = needsResetAboveGood (reward g).
Proof.
  unfold loop_before_reward.
  rewrite reward_loop_calibrate, reward_loop_sleep, reward_loop_sense.
  split_ifs; reflexivity.
Qed.

Lemma flag_loop_display (t : Tick) (g : Globals) :
  needsResetAboveGood (reward (fst (loop_display t g)))
  = needsResetAboveGood (reward g)
  /\ granted (snd (loop_display t g)) = false.
Proof.
  unfold loop_display. split_ifs; split; reflexivity.
Qed.

(** With the flag set the block cannot grant, and it clears the flag only
    on an average strictly above [goodDb]. *)
Lemma rewardLogic_flag_set (th : Thresholds) (now : Z) (avg : float) (r : Reward) :
  needsResetAboveGood r = true ->
  snd (rewardLogic th now avg r) = false
  /\ ((avg >? greenMax th)%float = false ->
      needsResetAboveGood (fst (rewardLogic th now avg r)) = true).
Proof.
  intro F. destruct r as [qs rs sh al lu cu pu fl ls]. simpl in F. subst fl.
  unfold rewardLogic. cbv zeta. simpl.
  destruct (usub now ls <? MIN_LESSON_BEFORE_REWARD_MS)%Z;
    [split; [reflexivity|intros _; reflexivity]|].
  destruct (avg >=? greenMax th + REWARD_SPIKE_MARGIN_DB)%float;
    [split; [reflexivity|intros _; reflexivity]|].
  destruct (avg >? greenMax th)%float eqn:A.
  - pose proof (flt_fle_excl _ _ A) as L. unfold fgt in *.
    simpl. destruct ((now <? cu)%Z || (now <? pu)%Z); simpl;
      [split; [reflexivity|discriminate]|].
    rewrite L. split_ifs; split; try reflexivity; discriminate.
  - simpl. destruct ((now <? cu)%Z || (now <? pu)%Z); simpl;
      split; try reflexivity; intros _; reflexivity.
Qed.


(** ** Frame properties of the parts of an iteration *)

Lemma loop_sense_frame (t : Tick) (g : Globals) :
  ACTIVE_TH (loop_sense t g) = ACTIVE_TH g
  /\ cal (loop_sense t g) = cal g
  /\ timetable (loop_sense t g) = timetable g
  /\ yearBand (loop_sense t g) = yearBand g
  /\ lastWs (loop_sense t g) = tick_ws t g.
Proof.
  unfold loop_sense, tick_ws. cbv zeta.
  destruct (usub (u32 (nowMs t)) (lastSampleTime g) >=? SAMPLE_INTERVAL_MS)%Z;
    cbn [timetable set_hasNewSampleForLed set_lastSampleTime lastWs];
    destruct (WindowState_eqb
                (getWindowState (timetable g) (wday t) (hour t) (minute t)) LESSON
              && negb (WindowState_eqb (lastWs g) LESSON));
    cbn [set_lastWs set_reward hasNewSampleForLed set_hasNewSampleForLed
         set_lastSampleTime];
    destruct (hasNewSampleForLed g); repeat split.
Qed.

Lemma loop_sleep_frame (t : Tick) (g : Globals) :
  ACTIVE_TH (loop_sleep t g) = ACTIVE_TH g
  /\ cal (loop_sleep t g) = cal g
  /\ timetable (loop_sleep t g) = timetable g
  /\ yearBand (loop_sleep t g) = yearBand g
  /\ lastWs (loop_sleep t g) = lastWs g.
Proof.
  unfold loop_sleep. split_ifs; repeat split.
Qed.





(** The LESSON branch of [loop], once the device is awake. *)
Lemma loop_lesson_awake (sqrt : float -> float) (t : Tick) (g : Globals) :
  tick_ws t g = LESSON ->
  inSleepMode (loop_sleep t (loop_sense t g)) = false ->
  loop sqrt t g =
    let g2 := loop_before_reward sqrt t g in
    if negb (rewardShowing (reward g2)) && is_normal (deviceMode t) then
      if snd (rewardLogic (ACTIVE_TH g2) (u32 (nowMs t)) (avgDB t) (reward g2))
      then (set_reward (fst (rewardLogic (ACTIVE_TH g2) (u32 (nowMs t)) (avgDB t)
                               (reward g2))) g2,
            mkLoopOut true ShowNothing)
      else loop_display t
             (set_reward (fst (rewardLogic (ACTIVE_TH g2) (u32 (nowMs t)) (avgDB t)
                                 (reward g2))) g2)
    else loop_display t g2.
Proof.
  intros W S. unfold loop. cbv zeta. rewrite W, S.
  change (loop_calibrate sqrt t (loop_sleep t (loop_sense t g)))
    with (loop_before_reward sqrt t g).
  destruct (negb (rewardShowing (reward (loop_before_reward sqrt t g)))
            && is_normal (deviceMode t)); [|reflexivity].
  destruct (rewardLogic (ACTIVE_TH (loop_before_reward sqrt t g)) (u32 (nowMs t))
              (avgDB t) (reward (loop_before_reward sqrt t g))) as [r won].
  reflexivity.
Qed.

Lemma loop_lesson_asleep (sqrt : float -> float) (t : Tick) (g : Globals) :
  tick_ws t g = LESSON ->
  inSleepMode (loop_sleep t (loop_sense t g)) = true ->
  loop sqrt t g = (loop_sleep t (loop_sense t g), mkLoopOut false ShowSleepRainbow).
Proof.
  intros W S. unfold loop. cbv zeta. rewrite W, S. reflexivity.
Qed.

Lemma loop_not_lesson (sqrt : float -> float) (t : Tick) (g : Globals) :
  tick_ws t g <> LESSON ->
  fst (loop sqrt t g) = loop_sense t g /\ granted (snd (loop sqrt t g)) = false.
Proof.
  intro W. unfold loop. cbv zeta.
  destruct (tick_ws t g); try (split; reflexivity). now elim W.
Qed.

(** A grant by the reward block leaves the above-good flag set. *)
Lemma rewardLogic_grant_sets_flag (th : Thresholds) (now : Z) (avg : float) (r : Reward) :
  snd (rewardLogic th now avg r) = true ->
  needsResetAboveGood (fst (rewardLogic th now avg r)) = true.
Proof.
  unfold rewardLogic. cbv zeta.
  destruct (usub now (lessonStartMs r) <? MIN_LESSON_BEFORE_REWARD_MS)%Z;
    [discriminate|].
  destruct (avg >=? greenMax th + REWARD_SPIKE_MARGIN_DB)%float; [discriminate|].
  match goal with
  | |- context [if ?c || ?d then _ else _] => destruct (c || d); [discriminate|]
  end.
  match goal with
  | |- context [if negb ?b then _ else _] => destruct (negb b); [|discriminate]
  end.
  destruct (avg <=? greenMax th)%float.
  - match goal with
    | |- context [if (?a >=? QUIET_REWARD_MS)%Z then _ else _] =>
        destruct (a >=? QUIET_REWARD_MS)%Z; [reflexivity|discriminate]
    end.
  - destruct (avg >=? greenMax th + REWARD_BREAK_MARGIN_DB)%float; discriminate.
Qed.

Lemma run_cons (sqrt : float -> float) (t : Tick) (ts : list Tick) (g : Globals) :
  run sqrt (t :: ts) g
  = (fst (run sqrt ts (fst (loop sqrt t g))),
     snd (loop sqrt t g) :: snd (run sqrt ts (fst (loop sqrt t g)))).
Proof.
  simpl. destruct (loop sqrt t g) as [g1 o]. simpl.
  destruct (run sqrt ts g1) as [g2 os]. reflexivity.
Qed.


Lemma state_before_S (sqrt : float -> float) (t : Tick) (ts : list Tick)
  (k : nat) (g : Globals) :
  state_before sqrt (t :: ts) (S k) g = state_before sqrt ts k (fst (loop sqrt t g)).
Proof.
  unfold state_before. rewrite firstn_cons, run_cons. reflexivity.
Qed.

(** One iteration started with the above-good flag set: no grant, and the
    flag survives unless the reward block saw the average above [goodDb]. *)
Lemma loop_flag_set (sqrt : float -> float) (t : Tick) (g : Globals) :
  needsResetAboveGood (reward g) = true ->
  granted (snd (loop sqrt t g)) = false
  /\ (observes_above_good sqrt t g = false ->
      needsResetAboveGood (reward (fst (loop sqrt t g))) = true).
Proof.
  intro F.
  pose proof (flag_before_reward sqrt t g) as Fb. rewrite F in Fb.
  unfold observes_above_good, reward_logic_runs, goodDb_of.
  destruct (WindowState_eqb (tick_ws t g) LESSON) eqn:W.
  - assert (W' : tick_ws t g = LESSON) by (destruct (tick_ws t g); discriminate || reflexivity).
    destruct (inSleepMode (loop_sleep t (loop_sense t g))) eqn:S.
    + rewrite (loop_lesson_asleep sqrt t g W' S). cbn [fst snd granted].
      split; [reflexivity|]. intros _.
      rewrite reward_loop_sleep, reward_loop_sense. split_ifs; exact F.
    + rewrite (loop_lesson_awake sqrt t g W' S). cbv zeta. cbn [negb andb].
      set (g2 := loop_before_reward sqrt t g) in *.
      destruct (negb (rewardShowing (reward g2)) && is_normal (deviceMode t)) eqn:R.
      * destruct (rewardLogic_flag_set (ACTIVE_TH g2) (u32 (nowMs t)) (avgDB t)
                    (reward g2) Fb) as [Hw Hf].
        rewrite Hw.
        destruct (flag_loop_display t
                    (set_reward (fst (rewardLogic (ACTIVE_TH g2) (u32 (nowMs t))
                                        (avgDB t) (reward g2))) g2)) as [D1 D2].
        split; [exact D2|]. intro A. rewrite D1. cbn [reward set_reward].
        apply Hf. exact A.
      * destruct (flag_loop_display t g2) as [D1 D2].
        split; [exact D2|]. intros _. now rewrite D1.
  - assert (W' : tick_ws t g <> LESSON) by (intro E; rewrite E in W; discriminate).
    destruct (loop_not_lesson sqrt t g W') as [E1 E2]. rewrite E1, E2.
    split; [reflexivity|]. intros _.
    rewrite reward_loop_sense. split_ifs; exact F.
Qed.

(** A granting iteration leaves the above-good flag set. *)
Lemma loop_grant_sets_flag (sqrt : float -> float) (t : Tick) (g : Globals) :
  granted (snd (loop sqrt t g)) = true ->
  needsResetAboveGood (reward (fst (loop sqrt t g))) = true.
Proof.
  destruct (WindowState_eqb (tick_ws t g) LESSON) eqn:W.
  - assert (W' : tick_ws t g = LESSON) by (destruct (tick_ws t g); discriminate || reflexivity).
    destruct (inSleepMode (loop_sleep t (loop_sense t g))) eqn:S.
    + rewrite (loop_lesson_asleep sqrt t g W' S). discriminate.
    + rewrite (loop_lesson_awake sqrt t g W' S). cbv zeta.
      set (g2 := loop_before_reward sqrt t g).
      destruct (negb (rewardShowing (reward g2)) && is_normal (deviceMode t)).
      * pose proof (rewardLogic_grant_sets_flag (ACTIVE_TH g2) (u32 (nowMs t))
                      (avgDB t) (reward g2)) as G.
        destruct (snd (rewardLogic (ACTIVE_TH g2) (u32 (nowMs t)) (avgDB t) (reward g2))).
        -- intros _. cbn [fst reward set_reward]. now apply G.
        -- intro H. destruct (flag_loop_display t
                    (set_reward (fst (rewardLogic (ACTIVE_TH g2) (u32 (nowMs t))
                                        (avgDB t) (reward g2))) g2)) as [_ D].
           congruence.
      * intro H. destruct (flag_loop_display t g2) as [_ D]. congruence.
  - assert (W' : tick_ws t g <> LESSON) by (intro E; rewrite E in W; discriminate).
    destruct (loop_not_lesson sqrt t g W') as [_ E2]. congruence.
Qed.

Lemma no_second_grant_from_flag (sqrt : float -> float) (ts : list Tick) :
  forall (g : Globals) (k : nat) (tk : Tick),
    needsResetAboveGood (reward g) = true ->
    nth_error ts k = Some tk ->
    granted (snd (loop sqrt tk (state_before sqrt ts k g))) = true ->
    exists (j : nat) (tj : Tick),
      (j < k)%nat /\ nth_error ts j = Some tj
      /\ observes_above_good sqrt tj (state_before sqrt ts j g) = true.
Proof.
  induction ts as [|t ts IH]; intros g k tk F Hk Hg.
  - destruct k; discriminate.
  - destruct (loop_flag_set sqrt t g F) as [Hn Hf].
    destruct k as [|k].
    + simpl in Hk. inversion Hk; subst tk.
      unfold state_before in Hg. simpl in Hg. congruence.
    + simpl in Hk. rewrite state_before_S in Hg.
      destruct (observes_above_good sqrt t g) eqn:A.
      * exists 0%nat, t. split; [lia|]. split; [reflexivity|exact A].
      * destruct (IH _ _ _ (Hf eq_refl) Hk Hg) as (j & tj & Hj & Hnj & Ho).
        exists (S j), tj. split; [lia|]. split; [exact Hnj|].
        rewrite state_before_S. exact Ho.
Qed.

(** C1: after an iteration that grants a reward, any later iteration that
    grants a reward is preceded by an iteration whose quiet-reward block ran
    and observed the rolling average strictly above goodDb (the greenMax in
    force at that iteration), whatever the clock readings and inputs of the
    iterations in between. *)
Theorem no_second_reward_before_above_good (sqrt : float -> float)
  (g0 : Globals) (t0 : Tick) (ts : list Tick) (k : nat) (tk : Tick) :
  granted (snd (loop sqrt t0 g0)) = true ->
  nth_error ts k = Some tk ->
  granted (snd (loop sqrt tk (state_before sqrt ts k (fst (loop sqrt t0 g0))))) = true ->
  exists (j : nat) (tj : Tick),
    (j < k)%nat /\ nth_error ts j = Some tj
    /\ observes_above_good sqrt tj (state_before sqrt ts j (fst (loop sqrt t0 g0))) = true.
Proof.
  intros G0. apply no_second_grant_from_flag. now apply loop_grant_sets_flag.
Qed.

Lemma no_second_reward_before_above_good_witness :
  let g1 := fst (loop sqrt_approx second_reward_t0 second_reward_g0) in
  granted (snd (loop sqrt_approx second_reward_t0 second_reward_g0)) = true
  /\ nth_error second_reward_ts 29 = Some (lesson_tick 540000 40)
  /\ granted (snd (loop sqrt_approx (lesson_tick 540000 40)
                     (state_before sqrt_approx second_reward_ts 29 g1))) = true
  /\ exists (j : nat) (tj : Tick),
       (j < 29)%nat /\ nth_error second_reward_ts j = Some tj
       /\ observes_above_good sqrt_approx tj
            (state_before sqrt_approx second_reward_ts j g1) = true.
Proof.
  assert (H0 : granted (snd (loop sqrt_approx second_reward_t0 second_reward_g0)) = true)
    by (vm_compute; reflexivity).
  assert (H1 : nth_error second_reward_ts 29 = Some (lesson_tick 540000 40))
    by (vm_compute; reflexivity).
  assert (H2 : granted (snd (loop sqrt_approx (lesson_tick 540000 40)
                 (state_before sqrt_approx second_reward_ts 29
                    (fst (loop sqrt_approx second_reward_t0 second_reward_g0))))) = true)
    by (vm_compute; reflexivity).
  intro g1. split; [exact H0|]. split; [exact H1|]. split; [exact H2|].
  exact (no_second_reward_before_above_good sqrt_approx second_reward_g0
           second_reward_t0 second_reward_ts 29%nat (lesson_tick 540000 40) H0 H1 H2).
Defined.

(** ** Spike penalty *)

Lemma u32_range (z : Z) : (0 <= u32 z < 2 ^ 32)%Z.
Proof.
  unfold u32. apply Z.mod_pos_bound. reflexivity.
Qed.

Lemma u32_small (z : Z) : (0 <= z < 2 ^ 32)%Z -> u32 z = z.
Proof.
  intro H. unfold u32. now apply Z.mod_small.
Qed.











(** The same during a learning window: calibration enabled and sampling,
    the lockout follows the spike all the same. *)
Lemma spike_while_calibrating :
  let g := set_cal (mkRoomCal true false 1700000001 0 (Fin 0) (Fin 0) (Fin 0) (Fin 0)
                              (th3 49 52 55)) spike_g in
  let g1 := fst (loop sqrt_approx spike_t0 g) in
  roomCalEnabled (cal g) = true
  /\ penaltyUntilMs (reward g1) = 250000%Z
  /\ no_grant (snd (run sqrt_approx spike_ts g1)) = true.
Proof.
  vm_compute. repeat split.
Qed.


(** ** The quiet streak *)






























(** The figures of that run: 600 iterations on the LEDs, the grant exactly
    120 s after the first, 14 iterations of animation, then the LEDs. *)
Lemma quiet_run_figures :
  List.length quiet_pre = 599%nat /\ List.length quiet_show = 14%nat
  /\ nowMs quiet_tg = (nowMs quiet_t1 + 120000)%Z
  /\ nowMs quiet_te = (nowMs quiet_tg + 3000)%Z.
Proof.
  vm_compute. repeat split.
Qed.


(** * Further properties of the code *)

(** ** Guardrails: fixed points *)

(** X1: The band defaults already satisfy the guardrails of their own band, for
    every band string (and for the null pointer): [applyGuardrails] leaves
    them as they are. *)
Theorem band_defaults_pass_guardrails (band : option string) :
  applyGuardrails (thresholdsForBand band) band = thresholdsForBand band.
Proof.
  destruct band as [s|]; [|reflexivity].
  unfold applyGuardrails, thresholdsForBand, guardrailsForBand.
  set (u := toUpperCase s).
  destruct (String.eqb u "RY1") eqn:E1.
  { apply String.eqb_eq in E1. rewrite E1. reflexivity. }
  destruct (String.eqb u "Y2Y3") eqn:E2.
  { apply String.eqb_eq in E2. rewrite E2. reflexivity. }
  destruct (String.eqb u "Y4Y6") eqn:E3.
  { apply String.eqb_eq in E3. rewrite E3. reflexivity. }
  destruct (String.eqb u "SEND") eqn:E4; reflexivity.
Qed.

Lemma flt_same (x : float) : (x <? x)%float = false.
Proof.
  destruct x; simpl; try reflexivity. q_reflect. apply Qle_refl.
Qed.

Lemma normalizeThresholds_idempotent (th : Thresholds) :
  normalizeThresholds (normalizeThresholds th) = normalizeThresholds th.
Proof.
  destruct th as [g a r]. unfold normalizeThresholds. cbn [greenMax amberMax redWarnDb].
  destruct (a <? g + Fin 2.0)%float eqn:E1.
  - rewrite flt_same.
    destruct (r <? g + Fin 2.0 + Fin 2.0)%float eqn:E2.
    + rewrite flt_same. reflexivity.
    + rewrite E2. reflexivity.
  - rewrite E1.
    destruct (r <? a + Fin 2.0)%float eqn:E2.
    + rewrite flt_same. reflexivity.
    + rewrite E2. reflexivity.
Qed.

Lemma clampf_nan_or_within (v : float) (lo hi : Q) :
  (lo <= hi)%Q -> nan_or_within (clampf v (Fin lo) (Fin hi)) lo hi.
Proof.
  intro Hb. destruct v as [q| | |].
  - right. destruct (clampf_finite (Fin q) lo hi eq_refl Hb) as (c & E & B).
    exists c. split; assumption.
  - right. exists hi. split; [reflexivity|]. split; [exact Hb|apply Qle_refl].
  - right. exists lo. split; [reflexivity|]. split; [apply Qle_refl|exact Hb].
  - left. reflexivity.
Qed.

Lemma clampf_fixed (v : float) (lo hi : Q) :
  nan_or_within v lo hi -> clampf v (Fin lo) (Fin hi) = v.
Proof.
  intros [->|(c & -> & B1 & B2)]; [reflexivity|].
  unfold clampf, fgt. simpl.
  replace (Qltb c lo) with false by (symmetry; q_reflect; exact B1).
  replace (Qltb hi c) with false by (symmetry; q_reflect; exact B2).
  reflexivity.
Qed.

(** Gap normalisation keeps clamped values inside the guardrails, when the
    upper bounds themselves are two apart. *)
Lemma normalize_keeps_within (g a r : float) (g0 g1 a0 a1 r0 r1 : Q) :
  nan_or_within g g0 g1 -> nan_or_within a a0 a1 -> nan_or_within r r0 r1 ->
  (g1 + 2 <= a1)%Q -> (a1 + 2 <= r1)%Q ->
  let n := normalizeThresholds (mkThresholds g a r) in
  nan_or_within (greenMax n) g0 g1 /\ nan_or_within (amberMax n) a0 a1
  /\ nan_or_within (redWarnDb n) r0 r1.
Proof.
  intros Hg Ha Hr H1 H2. unfold normalizeThresholds.
  cbn [greenMax amberMax redWarnDb].
  split; [exact Hg|].
  assert (Ha' : nan_or_within
                  (if (a <? g + Fin 2.0)%float then (g + Fin 2.0)%float else a) a0 a1).
  { destruct (a <? g + Fin 2.0)%float eqn:E; [|exact Ha].
    destruct Hg as [->|(cg & -> & Bg)]; [destruct a; discriminate|].
    destruct Ha as [->|(ca & -> & Ba)]; [discriminate|].
    simpl in E. q_reflect. right. exists (cg + 2.0)%Q.
    split; [reflexivity|]. lra. }
  split; [exact Ha'|].
  set (a' := if (a <? g + Fin 2.0)%float then (g + Fin 2.0)%float else a) in *.
  destruct (r <? a' + Fin 2.0)%float eqn:E; [|exact Hr].
  destruct Ha' as [Ea|(ca & Ea & Ba)]; rewrite Ea in *; [destruct r; discriminate|].
  destruct Hr as [->|(cr & -> & Br)]; [discriminate|].
  simpl in E. q_reflect. right. exists (ca + 2.0)%Q.
  split; [reflexivity|]. lra.
Qed.

Lemma applyGuardrails_idempotent_for (th : Thresholds) (band : option string)
  (g0 g1 a0 a1 r0 r1 : Q) :
  guardrailsForBand band = gr6 g0 g1 a0 a1 r0 r1 ->
  (g0 <= g1)%Q -> (a0 <= a1)%Q -> (r0 <= r1)%Q ->
  (g1 + 2 <= a1)%Q -> (a1 + 2 <= r1)%Q ->
  applyGuardrails (applyGuardrails th band) band = applyGuardrails th band.
Proof.
  intros E Hg Ha Hr H1 H2. unfold applyGuardrails. rewrite E.
  cbn [gMin gMax aMin aMax rMin rMax gr6].
  set (c := mkThresholds (clampf (greenMax th) (Fin g0) (Fin g1))
                         (clampf (amberMax th) (Fin a0) (Fin a1))
                         (clampf (redWarnDb th) (Fin r0) (Fin r1))).
  destruct (normalize_keeps_within _ _ _ g0 g1 a0 a1 r0 r1
              (clampf_nan_or_within (greenMax th) g0 g1 Hg)
              (clampf_nan_or_within (amberMax th) a0 a1 Ha)
              (clampf_nan_or_within (redWarnDb th) r0 r1 Hr) H1 H2)
    as (Wg & Wa & Wr).
  fold c in Wg, Wa, Wr. cbv zeta in Wg, Wa, Wr.
  rewrite (clampf_fixed _ _ _ Wg), (clampf_fixed _ _ _ Wa), (clampf_fixed _ _ _ Wr).
  destruct (normalizeThresholds c) as [ng na nr] eqn:N. cbn [greenMax amberMax redWarnDb].
  rewrite <- N. apply normalizeThresholds_idempotent.
Qed.

Lemma applyGuardrails_idem (th : Thresholds) (band : option string) :
  applyGuardrails (applyGuardrails th band) band = applyGuardrails th band.
Proof.
  pose proof (guardrailsForBand_cases band) as Hc. simpl in Hc.
  destruct Hc as [E|[E|[E|[E|[E|[]]]]]]; symmetry in E;
    apply (applyGuardrails_idempotent_for th band _ _ _ _ _ _ E); lra.
Qed.

(** X2: [applyGuardrails] is idempotent, for every triple (NaN and infinite
    fields included) and every band: the re-application that [loop] makes on
    every iteration once calibration is complete cannot make the thresholds
    drift. *)
Theorem applyGuardrails_idempotent (th : Thresholds) (band : option string) :
  applyGuardrails (applyGuardrails th band) band = applyGuardrails th band.
Proof.
  apply applyGuardrails_idem.
Qed.

(** ** Zones: classifier and hysteresis together *)

(** Case analysis on floats for facts about comparisons and a margin. *)
Ltac float_cases :=
  unfold fgt, fge, fsub in *;
  repeat match goal with
  | x : float |- _ => destruct x
  end;
  simpl in *; try congruence; try reflexivity;
  q_reflect; try lra.

Lemma fle_flt_trans (x y z : float) :
  (x <=? y)%float = true -> (y <? z)%float = true -> (x <? z)%float = true.
Proof. intros H1 H2. float_cases. Qed.

Lemma flt_fle_trans (x y z : float) :
  (x <? y)%float = true -> (y <=? z)%float = true -> (x <? z)%float = true.
Proof. intros H1 H2. float_cases. Qed.

Lemma fle_trans (x y z : float) :
  (x <=? y)%float = true -> (y <=? z)%float = true -> (x <=? z)%float = true.
Proof. intros H1 H2. float_cases. Qed.

Lemma fle_not_above (v g : float) (h : Q) :
  (0 < h)%Q -> (v <=? g)%float = true -> (v >? g + Fin h)%float = false.
Proof. intros Hh H. float_cases. Qed.

Lemma above_margin_not_fle (v g : float) (h : Q) :
  (0 < h)%Q -> (v >? g + Fin h)%float = true -> (v <=? g)%float = false.
Proof. intros Hh H. float_cases. Qed.

Lemma not_fle_not_below (v g : float) (h : Q) :
  (0 < h)%Q -> (v <=? g)%float = false -> (v <? g - Fin h)%float = false.
Proof. intros Hh H. float_cases. Qed.

Lemma below_margin_fle (v g : float) (h : Q) :
  (0 < h)%Q -> (v <? g - Fin h)%float = true -> (v <=? g)%float = true.
Proof. intros Hh H. float_cases. Qed.

(** The six switching tests of a value against the classifier's three. *)
Lemma hysteresis_tests_vs_classifier (yearBand : string) (th : Thresholds) (v : float) :
  exists gu gd au ad ru rd : bool,
    let cg := (v <=? greenMax th)%float in
    let ca := (v <=? amberMax th)%float in
    let cr := (v <=? redWarnDb th)%float in
    (cg = true -> gu = false) /\ (gu = true -> cg = false)
    /\ (cg = false -> gd = false) /\ (gd = true -> cg = true)
    /\ (ca = true -> au = false) /\ (au = true -> ca = false)
    /\ (ca = false -> ad = false) /\ (ad = true -> ca = true)
    /\ (cr = true -> ru = false) /\ (ru = true -> cr = false)
    /\ (cr = false -> rd = false) /\ (rd = true -> cr = true)
    /\ forall z, applyStickyHysteresis yearBand th z v =
         match z with
         | Z_GREEN => if gu then Z_AMBER else Z_GREEN
         | Z_AMBER => if gd then Z_GREEN else if au then Z_DEEP else Z_AMBER
         | Z_DEEP => if ad then Z_AMBER else if ru then Z_RED else Z_DEEP
         | Z_RED => if rd then Z_DEEP else Z_RED
         end.
Proof.
  destruct (hys_margins_positive yearBand) as (ga & ad & Ega & Ead & Pga & Pad).
  exists (v >? greenMax th + Fin ga)%float, (v <? greenMax th - Fin ga)%float,
         (v >? amberMax th + Fin ad)%float, (v <? amberMax th - Fin ad)%float,
         (v >? redWarnDb th + Fin 1.0)%float, (v <? redWarnDb th - Fin 1.0)%float.
  cbv zeta.
  assert (P1 : (0 < 1.0)%Q) by reflexivity.
  repeat match goal with
  | |- _ /\ _ => split
  end;
    try (apply fle_not_above; assumption);
    try (apply above_margin_not_fle; assumption);
    try (apply not_fle_not_below; assumption);
    try (apply below_margin_fle; assumption).
  intro z. unfold applyStickyHysteresis. rewrite Ega, Ead.
  destruct z; reflexivity.
Qed.

(** X3: A value that the classifier puts in the current zone never moves the
    sticky zone, whatever the thresholds are. *)
Theorem hysteresis_keeps_own_zone (yearBand : string) (th : Thresholds) (v : float) :
  applyStickyHysteresis yearBand th (classifyZone th v) v = classifyZone th v.
Proof.
  destruct (hysteresis_tests_vs_classifier yearBand th v)
    as (gu & gd & au & ad & ru & rd & H).
  cbv zeta in H.
  destruct H as (G1 & G2 & G3 & G4 & A1 & A2 & A3 & A4 & R1 & R2 & R3 & R4 & E).
  rewrite E. unfold classifyZone.
  destruct (v <=? greenMax th)%float.
  - rewrite (G1 eq_refl). reflexivity.
  - rewrite (G3 eq_refl).
    destruct (v <=? amberMax th)%float.
    + rewrite (A1 eq_refl). reflexivity.
    + rewrite (A3 eq_refl).
      destruct (v <=? redWarnDb th)%float.
      * rewrite (R1 eq_refl). reflexivity.
      * rewrite (R3 eq_refl). reflexivity.
Qed.

(** X4: With ordered thresholds the sticky zone only moves toward the zone the
    classifier gives the value: it lands between the current zone and that
    zone. *)
Theorem hysteresis_moves_toward_classifier (yearBand : string) (th : Thresholds)
  (z : ColorZone) (v : float) :
  (greenMax th <=? amberMax th)%float = true ->
  (amberMax th <=? redWarnDb th)%float = true ->
  let z' := applyStickyHysteresis yearBand th z v in
  let c := classifyZone th v in
  (Z.min (zone_rank z) (zone_rank c) <= zone_rank z'
   <= Z.max (zone_rank z) (zone_rank c))%Z.
Proof.
  intros O1 O2.
  destruct (hysteresis_tests_vs_classifier yearBand th v)
    as (gu & gd & au & ad & ru & rd & H).
  cbv zeta in H.
  destruct H as (G1 & G2 & G3 & G4 & A1 & A2 & A3 & A4 & R1 & R2 & R3 & R4 & E).
  assert (Oga : (v <=? greenMax th)%float = true -> (v <=? amberMax th)%float = true)
    by (intro X; exact (fle_trans _ _ _ X O1)).
  assert (Oar : (v <=? amberMax th)%float = true -> (v <=? redWarnDb th)%float = true)
    by (intro X; exact (fle_trans _ _ _ X O2)).
  cbv zeta. rewrite E. unfold classifyZone.
  destruct (v <=? greenMax th)%float eqn:Cg;
    destruct (v <=? amberMax th)%float eqn:Ca;
    destruct (v <=? redWarnDb th)%float eqn:Cr;
    try (specialize (Oga eq_refl)); try (specialize (Oar eq_refl));
    try discriminate;
    destruct z, gu, gd, au, ad, ru, rd; simpl;
    try (specialize (G1 eq_refl)); try (specialize (G2 eq_refl));
    try (specialize (G3 eq_refl)); try (specialize (G4 eq_refl));
    try (specialize (A1 eq_refl)); try (specialize (A2 eq_refl));
    try (specialize (A3 eq_refl)); try (specialize (A4 eq_refl));
    try (specialize (R1 eq_refl)); try (specialize (R2 eq_refl));
    try (specialize (R3 eq_refl)); try (specialize (R4 eq_refl));
    try discriminate; lia.
Qed.

Lemma hysteresis_moves_toward_classifier_witness :
  let th := th3 49 52 55 in
  (greenMax th <=? amberMax th)%float = true
  /\ (amberMax th <=? redWarnDb th)%float = true
  /\ classifyZone th (Fin 53) = Z_DEEP
  /\ (Z.min (zone_rank Z_GREEN) (zone_rank (classifyZone th (Fin 53)))
      <= zone_rank (applyStickyHysteresis "Y2Y3" th Z_GREEN (Fin 53))
      <= Z.max (zone_rank Z_GREEN) (zone_rank (classifyZone th (Fin 53))))%Z.
Proof.
  split; [reflexivity|]. split; [reflexivity|]. split; [reflexivity|].
  apply (hysteresis_moves_toward_classifier "Y2Y3" (th3 49 52 55) Z_GREEN (Fin 53));
    reflexivity.
Defined.

Lemma fgt_mono (v1 v2 x : float) :
  (v1 <=? v2)%float = true -> (v1 >? x)%float = true -> (v2 >? x)%float = true.
Proof. intros H1 H2. float_cases. Qed.

Lemma flt_mono (v1 v2 x : float) :
  (v1 <=? v2)%float = true -> (v2 <? x)%float = true -> (v1 <? x)%float = true.
Proof. intros H1 H2. float_cases. Qed.

Lemma hysteresis_monotone_value (yearBand : string) (th : Thresholds)
  (z : ColorZone) (v1 v2 : float) :
  (v1 <=? v2)%float = true ->
  (zone_rank (applyStickyHysteresis yearBand th z v1)
   <= zone_rank (applyStickyHysteresis yearBand th z v2))%Z.
Proof.
  intro L.
  destruct (hys_margins_positive yearBand) as (ga & ad & Ega & Ead & Pga & Pad).
  unfold applyStickyHysteresis. rewrite Ega, Ead. cbv zeta.
  pose proof (fun x => fgt_mono v1 v2 x L) as U.
  pose proof (fun x => flt_mono v1 v2 x L) as D.
  pose proof (fun g h P => hys_band_excl v1 g h P) as X1.
  pose proof (fun g h P => hys_band_excl v2 g h P) as X2.
  destruct z.
  - destruct (v1 >? greenMax th + Fin ga)%float eqn:A1.
    + rewrite (U _ A1). simpl. lia.
    + destruct (v2 >? greenMax th + Fin ga)%float; simpl; lia.
  - destruct (v2 <? greenMax th - Fin ga)%float eqn:B2.
    + rewrite (D _ B2). simpl. lia.
    + destruct (v1 <? greenMax th - Fin ga)%float eqn:B1.
      * destruct (v2 >? amberMax th + Fin ad)%float; simpl; lia.
      * destruct (v1 >? amberMax th + Fin ad)%float eqn:A1.
        -- rewrite (U _ A1). simpl. lia.
        -- destruct (v2 >? amberMax th + Fin ad)%float; simpl; lia.
  - destruct (v2 <? amberMax th - Fin ad)%float eqn:B2.
    + rewrite (D _ B2). simpl. lia.
    + destruct (v1 <? amberMax th - Fin ad)%float eqn:B1.
      * destruct (v2 >? redWarnDb th + HYS_DR_DEFAULT)%float; simpl; lia.
      * destruct (v1 >? redWarnDb th + HYS_DR_DEFAULT)%float eqn:A1.
        -- rewrite (U _ A1). simpl. lia.
        -- destruct (v2 >? redWarnDb th + HYS_DR_DEFAULT)%float; simpl; lia.
  - destruct (v2 <? redWarnDb th - HYS_DR_DEFAULT)%float eqn:B2.
    + rewrite (D _ B2). simpl. lia.
    + destruct (v1 <? redWarnDb th - HYS_DR_DEFAULT)%float; simpl; lia.
Qed.

Lemma hysteresis_monotone_zone (yearBand : string) (th : Thresholds)
  (z1 z2 : ColorZone) (v : float) :
  (zone_rank z1 <= zone_rank z2)%Z ->
  (zone_rank (applyStickyHysteresis yearBand th z1 v)
   <= zone_rank (applyStickyHysteresis yearBand th z2 v))%Z.
Proof.
  intro L.
  destruct (applyStickyHysteresis_tests yearBand th v)
    as (gu & gd & au & ad & ru & rd & X1 & X2 & X3 & E).
  rewrite !E.
  destruct z1, z2; simpl in L; try lia;
    destruct gu, gd, au, ad, ru, rd; simpl;
    try (specialize (X1 eq_refl)); try (specialize (X2 eq_refl));
    try (specialize (X3 eq_refl)); try discriminate; lia.
Qed.

(** X5: The sticky hysteresis preserves order: a current zone that is no more
    severe and a value that is no louder give a zone that is no more
    severe, whatever the thresholds are. *)
Theorem hysteresis_monotone (yearBand : string) (th : Thresholds)
  (z1 z2 : ColorZone) (v1 v2 : float) :
  (zone_rank z1 <= zone_rank z2)%Z -> (v1 <=? v2)%float = true ->
  (zone_rank (applyStickyHysteresis yearBand th z1 v1)
   <= zone_rank (applyStickyHysteresis yearBand th z2 v2))%Z.
Proof.
  intros Lz Lv.
  apply Z.le_trans with (zone_rank (applyStickyHysteresis yearBand th z1 v2)).
  - apply hysteresis_monotone_value. exact Lv.
  - apply hysteresis_monotone_zone. exact Lz.
Qed.

Lemma hysteresis_monotone_witness :
  (zone_rank Z_GREEN <= zone_rank Z_AMBER)%Z
  /\ (Fin 48 <=? Fin 53)%float = true
  /\ (zone_rank (applyStickyHysteresis "SEND" (th3 52 56 60) Z_GREEN (Fin 48))
      <= zone_rank (applyStickyHysteresis "SEND" (th3 52 56 60) Z_AMBER (Fin 53)))%Z.
Proof.
  assert (A : (zone_rank Z_GREEN <= zone_rank Z_AMBER)%Z) by (simpl; lia).
  assert (B : (Fin 48 <=? Fin 53)%float = true) by reflexivity.
  split; [exact A|]. split; [exact B|].
  exact (hysteresis_monotone "SEND" (th3 52 56 60) Z_GREEN Z_AMBER (Fin 48) (Fin 53) A B).
Defined.

(** X6: The classifier preserves order too, whatever the thresholds are. *)
Theorem classifyZone_monotone (th : Thresholds) (v1 v2 : float) :
  (v1 <=? v2)%float = true ->
  (zone_rank (classifyZone th v1) <= zone_rank (classifyZone th v2))%Z.
Proof.
  intro L. unfold classifyZone.
  pose proof (fun x => fle_trans v1 v2 x L) as T.
  destruct (v2 <=? greenMax th)%float eqn:G2; [rewrite (T _ G2); simpl; lia|].
  destruct (v2 <=? amberMax th)%float eqn:A2.
  { rewrite (T _ A2). destruct (v1 <=? greenMax th)%float; simpl; lia. }
  destruct (v2 <=? redWarnDb th)%float eqn:R2.
  { rewrite (T _ R2).
    destruct (v1 <=? greenMax th)%float; [simpl; lia|].
    destruct (v1 <=? amberMax th)%float; simpl; lia. }
  destruct (v1 <=? greenMax th)%float; [simpl; lia|].
  destruct (v1 <=? amberMax th)%float; [simpl; lia|].
  destruct (v1 <=? redWarnDb th)%float; simpl; lia.
Qed.

Lemma classifyZone_monotone_witness :
  (Fin 50 <=? Fin 54)%float = true
  /\ (zone_rank (classifyZone (th3 49 52 55) (Fin 50))
      <= zone_rank (classifyZone (th3 49 52 55) (Fin 54)))%Z.
Proof.
  assert (B : (Fin 50 <=? Fin 54)%float = true) by reflexivity.
  split; [exact B|].
  exact (classifyZone_monotone (th3 49 52 55) (Fin 50) (Fin 54) B).
Defined.

(** ** Rolling average *)

Lemma array_set_length (l : list float) (i : nat) (v : float) :
  List.length (array_set l i v) = List.length l.
Proof.
  revert i. induction l as [|x l IH]; intros [|i]; simpl; try reflexivity.
  now rewrite IH.
Qed.

Lemma array_set_app (A B : list float) (y v : float) :
  array_set (A ++ y :: B) (List.length A) v = A ++ v :: B.
Proof.
  induction A as [|x A IH]; simpl; [reflexivity|]. now rewrite IH.
Qed.

Lemma updateRollingAverage_ok (x : float) (a : Averager) :
  averager_ok a -> averager_ok (updateRollingAverage x a).
Proof.
  intros [L I]. unfold updateRollingAverage.
  destruct (negb (isfinite x)); [split; assumption|].
  split; cbn [dbHistory currentIndex].
  - rewrite array_set_length. exact L.
  - unfold AVG_SAMPLE_COUNT in *.
    pose proof (Z.rem_bound_pos (currentIndex a + 1) 150). lia.
Qed.

(** Recording a finite value drops the oldest slot and appends the value. *)
Lemma chronological_update (q : Q) (a : Averager) :
  averager_ok a ->
  chronological (updateRollingAverage (Fin q) a) = tl (chronological a) ++ [Fin q].
Proof.
  intros [L I]. unfold updateRollingAverage, chronological.
  cbn [isfinite negb dbHistory currentIndex].
  unfold AVG_SAMPLE_COUNT in *.
  set (i := Z.to_nat (currentIndex a)).
  assert (Hi : (i < 150)%nat) by (unfold i; lia).
  change (Z.to_nat 150) with 150%nat in L.
  assert (Hs : dbHistory a = firstn i (dbHistory a) ++ skipn i (dbHistory a))
    by (symmetry; apply firstn_skipn).
  destruct (skipn i (dbHistory a)) as [|y B] eqn:Sk.
  { exfalso. assert (K : List.length (skipn i (dbHistory a)) = (150 - i)%nat)
      by (rewrite length_skipn; lia).
    rewrite Sk in K. cbn [List.length] in K. lia. }
  set (A := firstn i (dbHistory a)) in *.
  assert (LA : List.length A = i) by (unfold A; rewrite length_firstn; lia).
  assert (LB : List.length B = (149 - i)%nat).
  { assert (K : List.length (A ++ y :: B) = 150%nat) by (rewrite <- Hs; exact L).
    rewrite length_app in K. cbn [List.length] in K. lia. }
  assert (AS : array_set (dbHistory a) i (Fin q) = A ++ Fin q :: B).
  { rewrite Hs, <- LA. apply array_set_app. }
  rewrite AS.
  cbn [tl app].
  destruct (Z.eq_dec (currentIndex a + 1) 150) as [E|N].
  - rewrite E. change (Z.rem 150 150) with 0%Z. cbn [Z.to_nat skipn firstn app].
    assert (B = []) by (destruct B; [reflexivity|cbn [List.length] in LB; lia]). subst B.
    rewrite app_nil_r. reflexivity.
  - rewrite Z.rem_small by lia.
    replace (Z.to_nat (currentIndex a + 1)) with (S i) by (unfold i; lia).
    assert (E1 : skipn (S i) (A ++ Fin q :: B) = B).
    { rewrite <- LA. rewrite skipn_app, skipn_all2 by lia.
      replace (S (List.length A) - List.length A)%nat with 1%nat by lia. reflexivity. }
    assert (E2 : firstn (S i) (A ++ Fin q :: B) = A ++ [Fin q]).
    { rewrite <- LA. rewrite firstn_app, firstn_all2 by lia.
      replace (S (List.length A) - List.length A)%nat with 1%nat by lia. reflexivity. }
    rewrite E1, E2. rewrite app_assoc. reflexivity.
Qed.

Lemma feedAverage_snoc (l : list float) (x : float) (a : Averager) :
  feedAverage (l ++ [x]) a = updateRollingAverage x (feedAverage l a).
Proof.
  unfold feedAverage. now rewrite fold_left_app.
Qed.

Lemma feedAverage_ok (l : list float) (a : Averager) :
  averager_ok a -> averager_ok (feedAverage l a).
Proof.
  intro H. induction l as [|x l IH] using rev_ind; [exact H|].
  rewrite feedAverage_snoc. now apply updateRollingAverage_ok.
Qed.

Lemma chronological_length (a : Averager) :
  averager_ok a -> List.length (chronological a) = 150%nat.
Proof.
  intros [L I]. unfold chronological. rewrite length_app, length_skipn, length_firstn.
  unfold AVG_SAMPLE_COUNT in *. change (Z.to_nat 150) with 150%nat in L. lia.
Qed.

Lemma finite_values_app (l1 l2 : list float) :
  finite_values (l1 ++ l2) = finite_values l1 ++ finite_values l2.
Proof.
  induction l1 as [|x l1 IH]; [reflexivity|].
  destruct x; simpl; rewrite IH; reflexivity.
Qed.

Lemma tl_skipn {A : Type} (n : nat) (l : list A) : tl (skipn n l) = skipn (S n) l.
Proof.
  revert l. induction n as [|n IH]; intros [|x l]; try reflexivity.
  apply (IH l).
Qed.

(** The buffer in chronological order is what was there before followed by
    the finite readings, less as many of the oldest slots. *)
Lemma chronological_feed (l : list float) (a : Averager) :
  averager_ok a ->
  chronological (feedAverage l a)
  = skipn (List.length (finite_values l))
          (chronological a ++ map Fin (finite_values l)).
Proof.
  intro H. induction l as [|x l IH] using rev_ind.
  - simpl. rewrite app_nil_r. reflexivity.
  - rewrite feedAverage_snoc, finite_values_app.
    pose proof (feedAverage_ok l a H) as Hl.
    destruct x as [q| | |];
      try (cbn [finite_values]; rewrite app_nil_r; exact IH).
    rewrite (chronological_update q _ Hl), IH.
    cbn [finite_values]. rewrite length_app, map_app. cbn [List.length map].
    rewrite tl_skipn, Nat.add_1_r.
    rewrite app_assoc. rewrite (skipn_app (S _) (_ ++ _) [Fin q]).
    rewrite length_app, length_map, (chronological_length a H).
    replace (S (List.length (finite_values l)) - (150 + List.length (finite_values l)))%nat
      with 0%nat by lia.
    reflexivity.
Qed.

Lemma fold_fadd_Fin (qs : list Q) (acc : Q) :
  exists s, fold_left fadd (map Fin qs) (Fin acc) = Fin s /\ (s == acc + Qsum qs)%Q.
Proof.
  revert acc. induction qs as [|q qs IH]; intro acc.
  - exists acc. split; [reflexivity|]. unfold Qsum. simpl. ring.
  - simpl. destruct (IH (acc + q)%Q) as (s & E & Hs).
    exists s. split; [exact E|]. rewrite Hs. unfold Qsum. simpl. ring.
Qed.

(** The average of a full buffer of finite values is their mean. *)
Lemma calculateAverage_mean (a : Averager) (qs : list Q) :
  dbHistory a = map Fin qs -> List.length qs = 150%nat ->
  exists m, calculateAverage a = Fin m /\ (m == Qsum qs / 150)%Q.
Proof.
  intros E L. unfold calculateAverage, AVG_SAMPLE_COUNT. rewrite E.
  change (Z.to_nat 150) with 150%nat.
  rewrite firstn_all2 by (rewrite length_map; lia).
  destruct (fold_fadd_Fin qs 0) as (s & Es & Hs). rewrite Es.
  exists (s / inject_Z 150)%Q. split; [reflexivity|].
  rewrite Hs. change (inject_Z 150) with 150%Q. field.
Qed.

Lemma currentIndex_feed (l : list float) (a : Averager) :
  averager_ok a ->
  currentIndex (feedAverage l a)
  = ((currentIndex a + Z.of_nat (List.length (finite_values l))) mod AVG_SAMPLE_COUNT)%Z.
Proof.
  intro H. induction l as [|x l IH] using rev_ind.
  - simpl. rewrite Z.add_0_r. symmetry. apply Z.mod_small. exact (proj2 H).
  - rewrite feedAverage_snoc, finite_values_app.
    pose proof (feedAverage_ok l a H) as [_ Hi].
    destruct x as [q| | |];
      try (cbn [finite_values]; rewrite app_nil_r; exact IH).
    unfold updateRollingAverage. cbn [isfinite negb currentIndex].
    unfold AVG_SAMPLE_COUNT in *.
    rewrite Z.rem_mod_nonneg by lia.
    rewrite IH. cbn [finite_values]. rewrite length_app. cbn [List.length].
    rewrite Nat2Z.inj_add, Z.add_assoc. change (Z.of_nat 1) with 1%Z.
    rewrite Zplus_mod_idemp_l. reflexivity.
Qed.

(** X7: Once 150 finite readings have been recorded, whatever the buffer held
    before and whatever non-finite readings came in between, the 150 slots
    of [dbHistory] hold exactly the last 150 finite readings, the oldest at
    [currentIndex] and the others after it in the order they came, wrapping
    at the end of the array; [currentIndex] has advanced by the number of
    finite readings modulo 150.  These are the values [calculateAverage]
    sums. *)
Theorem rolling_buffer_holds_last_150 (l : list float) (a : Averager) :
  averager_ok a ->
  (150 <= List.length (finite_values l))%nat ->
  chronological (feedAverage l a) = map Fin (lastn 150 (finite_values l))
  /\ List.length (dbHistory (feedAverage l a)) = 150%nat
  /\ currentIndex (feedAverage l a)
     = ((currentIndex a + Z.of_nat (List.length (finite_values l))) mod 150)%Z.
Proof.
  intros H N. split; [|split].
  - rewrite (chronological_feed l a H).
    rewrite skipn_app, (chronological_length a H).
    rewrite skipn_all2 by (rewrite (chronological_length a H); lia).
    rewrite skipn_map. reflexivity.
  - exact (proj1 (feedAverage_ok l a H)).
  - exact (currentIndex_feed l a H).
Qed.

Lemma rolling_buffer_holds_last_150_witness :
  let a := clearDBHistory (mkAverager [] 0) in
  let l := (Fin 60 :: NaN :: repeat (Fin 40) 150) in
  averager_ok a
  /\ (150 <= List.length (finite_values l))%nat
  /\ chronological (feedAverage l a) = map Fin (lastn 150 (finite_values l))
  /\ List.length (dbHistory (feedAverage l a)) = 150%nat
  /\ currentIndex (feedAverage l a)
     = ((currentIndex a + Z.of_nat (List.length (finite_values l))) mod 150)%Z.
Proof.
  assert (A : averager_ok (clearDBHistory (mkAverager [] 0))).
  { split; [reflexivity|]. split; [discriminate|reflexivity]. }
  assert (N : (150 <= List.length (finite_values (Fin 60 :: NaN :: repeat (Fin 40) 150)))%nat).
  { apply Nat.leb_le. vm_compute. reflexivity. }
  split; [exact A|]. split; [exact N|].
  exact (rolling_buffer_holds_last_150 (Fin 60 :: NaN :: repeat (Fin 40) 150)
           (clearDBHistory (mkAverager [] 0)) A N).
Defined.

(** ** Microphone reading and the range of the rolling average *)

Lemma Qsum_bounds (lo hi : Q) (qs : list Q) :
  Forall (fun c => (lo <= c <= hi)%Q) qs ->
  (Qlen qs * lo <= Qsum qs <= Qlen qs * hi)%Q.
Proof.
  induction 1 as [|c qs Hc _ IH].
  - change (Qlen []) with 0%Q. change (Qsum []) with 0%Q.
    split; apply Qle_lteq; right; ring.
  - rewrite Qlen_cons. unfold Qsum in *. simpl.
    destruct IH as [I1 I2]. destruct Hc as [C1 C2].
    split.
    + setoid_replace ((Qlen qs + 1) * lo)%Q with (Qlen qs * lo + lo)%Q by ring. lra.
    + setoid_replace ((Qlen qs + 1) * hi)%Q with (Qlen qs * hi + hi)%Q by ring. lra.
Qed.

Lemma slots_within_values (lo hi : Q) (l : list float) :
  slots_within lo hi l ->
  exists qs, l = map Fin qs /\ Forall (fun c => (lo <= c <= hi)%Q) qs.
Proof.
  induction 1 as [|v l (c & -> & Hc) _ (qs & -> & Hq)].
  - exists []. split; [reflexivity|constructor].
  - exists (c :: qs). split; [reflexivity|]. constructor; assumption.
Qed.

(** With every slot inside [lo, hi] the average is inside [lo, hi]. *)
Lemma calculateAverage_within (lo hi : Q) (a : Averager) :
  averager_ok a -> slots_within lo hi (dbHistory a) ->
  exists m, calculateAverage a = Fin m /\ (lo <= m <= hi)%Q.
Proof.
  intros [L _] S. destruct (slots_within_values _ _ _ S) as (qs & E & B).
  assert (Lq : List.length qs = 150%nat) by (rewrite E, length_map in L; exact L).
  destruct (calculateAverage_mean a qs E Lq) as (m & Em & Hm).
  exists m. split; [exact Em|].
  pose proof (Qsum_bounds lo hi qs B) as Hb.
  unfold Qlen in Hb. rewrite Lq in Hb. change (inject_Z (Z.of_nat 150)) with 150%Q in Hb.
  rewrite Hm. split.
  - apply Qle_shift_div_l; [reflexivity|]. lra.
  - apply Qle_shift_div_r; [reflexivity|]. lra.
Qed.

(** [readMicDB] returns a finite value between 20 and 90, for every
    sample block and whatever [sqrt] and [log10f] return (NaN and infinities
    included), as long as the buffer it falls back on is within that range. *)
Lemma readMicDB_range (sqrt log10f : float -> float) (samples : list Z) (a : Averager) :
  averager_ok a -> slots_within 20 90 (dbHistory a) ->
  exists c, readMicDB sqrt log10f samples a = Fin c /\ (20 <= c <= 90)%Q.
Proof.
  intros H S. pose proof (calculateAverage_within 20 90 a H S) as Av.
  unfold readMicDB. cbv zeta.
  destruct (Z.of_nat (List.length samples) <=? 0)%Z; [exact Av|].
  match goal with
  | |- context [(Fin 20.0 * log10f ?r + MIC_DB_OFFSET)%float] =>
      generalize (Fin 20.0 * log10f r + MIC_DB_OFFSET)%float
  end.
  intro db. unfold fgt.
  destruct db as [q| | |]; simpl.
  - destruct (Qltb q 20.0) eqn:E1; simpl.
    + exists 20.0%Q. split; [reflexivity|]. lra.
    + destruct (Qltb 90.0 q) eqn:E2; simpl.
      * exists 90.0%Q. split; [reflexivity|]. lra.
      * exists q. split; [reflexivity|]. q_reflect. lra.
  - exists 90.0%Q. split; [reflexivity|]. lra.
  - exists 20.0%Q. split; [reflexivity|]. lra.
  - exact Av.
Qed.

Lemma array_set_within (lo hi : Q) (l : list float) (i : nat) (v : float) :
  slots_within lo hi l -> (exists c, v = Fin c /\ (lo <= c <= hi)%Q) ->
  slots_within lo hi (array_set l i v).
Proof.
  intros S Hv. revert i. induction S as [|x l Hx S IH]; intros [|i]; simpl.
  - constructor.
  - constructor.
  - constructor; assumption.
  - constructor; [exact Hx|apply IH].
Qed.

Lemma sampleTick_keeps_range (sqrt log10f : float -> float) (samples : list Z)
  (a : Averager) :
  averager_ok a /\ slots_within 20 90 (dbHistory a) ->
  averager_ok (sampleTick sqrt log10f samples a)
  /\ slots_within 20 90 (dbHistory (sampleTick sqrt log10f samples a)).
Proof.
  intros [H S]. unfold sampleTick.
  split; [now apply updateRollingAverage_ok|].
  destruct (readMicDB_range sqrt log10f samples a H S) as (c & E & B).
  rewrite E. unfold updateRollingAverage. cbn [isfinite negb dbHistory].
  apply array_set_within; [exact S|]. exists c. split; [reflexivity|exact B].
Qed.

(** X8: From the buffer that [setup] fills with 35.0, after any sequence of
    sample ticks, with any microphone data and any libm results, the rolling
    average is a finite value between 20 and 90 dB. *)
Theorem rolling_average_between_20_and_90 (sqrt log10f : float -> float)
  (inputs : list (list Z)) (a0 : Averager) :
  (0 <= currentIndex a0 < AVG_SAMPLE_COUNT)%Z ->
  exists m,
    calculateAverage (runSamples sqrt log10f inputs (clearDBHistory a0)) = Fin m
    /\ (20 <= m <= 90)%Q.
Proof.
  intro I.
  assert (H0 : averager_ok (clearDBHistory a0)
               /\ slots_within 20 90 (dbHistory (clearDBHistory a0))).
  { split; [split; [reflexivity|exact I]|].
    unfold clearDBHistory, slots_within. cbn [dbHistory].
    apply Forall_forall. intros v Hv. apply repeat_spec in Hv. subst v.
    exists 35.0%Q. split; [reflexivity|]. lra. }
  assert (K : averager_ok (runSamples sqrt log10f inputs (clearDBHistory a0))
              /\ slots_within 20 90
                   (dbHistory (runSamples sqrt log10f inputs (clearDBHistory a0)))).
  { unfold runSamples. generalize dependent (clearDBHistory a0).
    induction inputs as [|s inputs IH]; intros a Ha; [exact Ha|].
    simpl. apply IH. now apply sampleTick_keeps_range. }
  destruct K as [K1 K2]. exact (calculateAverage_within 20 90 _ K1 K2).
Qed.

Lemma rolling_average_between_20_and_90_witness :
  (0 <= currentIndex (mkAverager [] 0) < AVG_SAMPLE_COUNT)%Z
  /\ exists m,
       calculateAverage
         (runSamples sqrt_approx (fun _ => NInf) [[1000000; -2000000]%Z; []; [5%Z]]
            (clearDBHistory (mkAverager [] 0))) = Fin m
       /\ (20 <= m <= 90)%Q.
Proof.
  assert (I : (0 <= currentIndex (mkAverager [] 0) < AVG_SAMPLE_COUNT)%Z)
    by (split; [discriminate|reflexivity]).
  split; [exact I|].
  exact (rolling_average_between_20_and_90 sqrt_approx (fun _ => NInf)
           [[1000000; -2000000]%Z; []; [5%Z]] (mkAverager [] 0) I).
Defined.

(** ** Calibration: extremes, window and completion *)

Lemma updateRoomCalibration_extremes (x : Q) (c : RoomCal) (seen : list Q) (lo hi : Q) :
  calMinDb c = Fin lo -> calMaxDb c = Fin hi ->
  (forall y, In y seen -> (lo <= y <= hi)%Q) ->
  In lo (9999 :: seen)%Q -> In hi ((-9999) :: seen)%Q ->
  exists lo' hi',
    calMinDb (updateRoomCalibration (Fin x) c) = Fin lo'
    /\ calMaxDb (updateRoomCalibration (Fin x) c) = Fin hi'
    /\ (forall y, In y (seen ++ [x]) -> (lo' <= y <= hi')%Q)
    /\ In lo' (9999 :: seen ++ [x])%Q /\ In hi' ((-9999) :: seen ++ [x])%Q
    /\ (lo' <= lo)%Q /\ (hi <= hi')%Q.
Proof.
  intros Emin Emax B Ilo Ihi.
  unfold updateRoomCalibration. cbn [isfinite negb calMinDb calMaxDb set_stats].
  rewrite Emin, Emax. unfold fgt. simpl.
  assert (Ix : In x (seen ++ [x])) by (apply in_or_app; right; left; reflexivity).
  assert (Grow : forall z, In z (9999 :: seen)%Q -> In z (9999 :: seen ++ [x])%Q).
  { intros z [->|Hz]; [left; reflexivity|right; apply in_or_app; left; exact Hz]. }
  assert (Grow' : forall z, In z ((-9999) :: seen)%Q -> In z ((-9999) :: seen ++ [x])%Q).
  { intros z [->|Hz]; [left; reflexivity|right; apply in_or_app; left; exact Hz]. }
  destruct (Qltb x lo) eqn:E1; destruct (Qltb hi x) eqn:E2; q_reflect;
    eexists; eexists; (split; [reflexivity|]); (split; [reflexivity|]);
    (split; [intros y Hy; apply in_app_or in Hy; destruct Hy as [Hy|[<-|[]]];
             [specialize (B y Hy)|]; lra|]);
    (split; [first [right; exact Ix | apply Grow; exact Ilo]|]);
    (split; [first [right; exact Ix | apply Grow'; exact Ihi]|]);
    lra.
Qed.

(** X9: After [resetRoomCalibration] and any finite samples, [calMinDb] and
    [calMaxDb] bound every sample, and each is one of the samples or still
    its sentinel (9999 and -9999): a sample above 9999 never becomes the
    minimum, nor one below -9999 the maximum. *)
Theorem calibration_extremes (l : list Q) (band : string) (epoch : Z) (c : RoomCal) :
  let c' := feedCalibration (map Fin l) (resetRoomCalibration band epoch c) in
  exists lo hi,
    calMinDb c' = Fin lo /\ calMaxDb c' = Fin hi
    /\ (forall y, In y l -> (lo <= y <= hi)%Q)
    /\ In lo (9999 :: l)%Q /\ In hi ((-9999) :: l)%Q
    /\ (lo <= 9999)%Q /\ (-9999 <= hi)%Q.
Proof.
  cbv zeta. induction l as [|x l IH] using rev_ind.
  - exists 9999%Q, (-9999)%Q. simpl.
    repeat split; try reflexivity; try (left; reflexivity); try lra.
  - destruct IH as (lo & hi & Emin & Emax & B & Ilo & Ihi & Llo & Lhi).
    rewrite map_app. simpl map. rewrite feedCalibration_snoc.
    destruct (updateRoomCalibration_extremes x _ l lo hi Emin Emax B Ilo Ihi)
      as (lo' & hi' & E1 & E2 & B' & I1 & I2 & L1 & L2).
    exists lo', hi'.
    split; [exact E1|]. split; [exact E2|]. split; [exact B'|].
    split; [exact I1|]. split; [exact I2|]. split; lra.
Qed.

(** X10: Finalisation takes over exactly where the learning window ends:
    calibration is complete after [finalizeRoomCalibrationIfDue] if it was
    already, or if it is enabled, both clocks are valid and the learning
    window is no longer active; otherwise the call changes nothing. *)
Theorem finalize_complements_window (sqrt : float -> float) (epoch : Z) (g : Globals) :
  let due := roomCalEnabled (cal g) && negb (roomCalComplete (cal g))
             && hasValidTime epoch && hasValidTime (roomCalStartEpoch (cal g))
             && negb (calibrationWindowActive epoch (cal g)) in
  roomCalComplete (cal (finalizeRoomCalibrationIfDue sqrt epoch g))
  = roomCalComplete (cal g) || due
  /\ (due = false -> finalizeRoomCalibrationIfDue sqrt epoch g = g).
Proof.
  unfold finalizeRoomCalibrationIfDue, calibrationWindowActive. cbv zeta.
  destruct (roomCalEnabled (cal g)); cbn [negb andb];
    [|rewrite orb_false_r; split; reflexivity].
  destruct (roomCalComplete (cal g)) eqn:C; cbn [negb andb orb];
    [split; [exact C|reflexivity]|].
  destruct (hasValidTime epoch); cbn [negb andb orb];
    [|rewrite C; split; reflexivity].
  destruct (hasValidTime (roomCalStartEpoch (cal g))); cbn [negb andb orb];
    [|rewrite C; split; reflexivity].
  destruct (u32 (epoch - roomCalStartEpoch (cal g)) <? ROOM_CAL_SECONDS)%Z;
    cbn [negb]; [rewrite C; split; reflexivity|].
  split; [reflexivity|discriminate].
Qed.

Lemma finalize_complements_window_witness :
  roomCalComplete
    (cal (finalizeRoomCalibrationIfDue sqrt_approx learned_epoch learned_g)) = true
  /\ finalizeRoomCalibrationIfDue sqrt_approx (learned_epoch - 1) learned_g = learned_g.
Proof.
  split.
  - rewrite (proj1 (finalize_complements_window sqrt_approx learned_epoch learned_g)).
    reflexivity.
  - apply (proj2 (finalize_complements_window sqrt_approx (learned_epoch - 1) learned_g)).
    reflexivity.
Defined.

Lemma loop_calibrate_complete (sqrt : float -> float) (t : Tick) (g : Globals) :
  roomCalEnabled (cal g) = true -> roomCalComplete (cal g) = true ->
  loop_calibrate sqrt t g
  = set_ACTIVE_TH (applyGuardrails (CAL_TH (cal g)) (Some (yearBand g)))
      (set_cal (set_CAL_TH (applyGuardrails (CAL_TH (cal g)) (Some (yearBand g)))
                  (cal g)) g).
Proof.
  intros E C. unfold loop_calibrate. cbv zeta. rewrite E, C. cbn [negb andb].
  unfold calibrationWindowActive. rewrite E, C. cbn [negb andb].
  unfold finalizeRoomCalibrationIfDue. cbv zeta. rewrite E, C. cbn [negb].
  rewrite E, C. reflexivity.
Qed.

(** X11: Once calibration is complete the calibration step of [loop] neither
    samples nor finalises again: it adopts the guardrailed [CAL_TH] as
    [ACTIVE_TH], leaves the statistics alone, and doing so again on any
    later iteration changes nothing more. *)
Theorem calibration_step_settles (sqrt : float -> float) (t1 t2 : Tick) (g : Globals) :
  roomCalEnabled (cal g) = true -> roomCalComplete (cal g) = true ->
  let g1 := loop_calibrate sqrt t1 g in
  ACTIVE_TH g1 = applyGuardrails (CAL_TH (cal g)) (Some (yearBand g))
  /\ CAL_TH (cal g1) = ACTIVE_TH g1
  /\ (calCount (cal g1), calMean (cal g1), calM2 (cal g1))
     = (calCount (cal g), calMean (cal g), calM2 (cal g))
  /\ loop_calibrate sqrt t2 g1 = g1.
Proof.
  intros E C g1. unfold g1. rewrite (loop_calibrate_complete sqrt t1 g E C).
  split; [reflexivity|]. split; [reflexivity|]. split; [reflexivity|].
  rewrite loop_calibrate_complete by assumption.
  cbn [cal set_cal set_ACTIVE_TH CAL_TH set_CAL_TH yearBand].
  rewrite applyGuardrails_idem. reflexivity.
Qed.

Lemma calibration_step_settles_witness :
  roomCalEnabled (cal settled_g) = true /\ roomCalComplete (cal settled_g) = true
  /\ let g1 := loop_calibrate sqrt_approx (lesson_tick 1000 40) settled_g in
     ACTIVE_TH g1 = applyGuardrails (CAL_TH (cal settled_g)) (Some (yearBand settled_g))
     /\ CAL_TH (cal g1) = ACTIVE_TH g1
     /\ (calCount (cal g1), calMean (cal g1), calM2 (cal g1))
        = (calCount (cal settled_g), calMean (cal settled_g), calM2 (cal settled_g))
     /\ loop_calibrate sqrt_approx (lesson_tick 2000 60) g1 = g1.
Proof.
  assert (E : roomCalEnabled (cal settled_g) = true) by (vm_compute; reflexivity).
  assert (C : roomCalComplete (cal settled_g) = true) by (vm_compute; reflexivity).
  split; [exact E|]. split; [exact C|].
  exact (calibration_step_settles sqrt_approx (lesson_tick 1000 40)
           (lesson_tick 2000 60) settled_g E C).
Defined.
(** ** When a reward is granted *)

Lemma usub_self (n : Z) : usub n n = 0%Z.
Proof.
  unfold usub, u32. rewrite Z.sub_diag. reflexivity.
Qed.

(** What a grant by the reward block presupposes, and the record it leaves. *)
Lemma rewardLogic_grant_sound (th : Thresholds) (now : Z) (avg : float) (r : Reward) :
  snd (rewardLogic th now avg r) = true ->
  (MIN_LESSON_BEFORE_REWARD_MS <= usub now (lessonStartMs r))%Z
  /\ (avg <=? greenMax th)%float = true
  /\ (rewardCooldownUntilMs r <= now)%Z
  /\ (penaltyUntilMs r <= now)%Z
  /\ needsResetAboveGood r = false
  /\ quietStartMs r <> 0%Z
  /\ (QUIET_REWARD_MS <= usub now (quietStartMs r))%Z
  /\ fst (rewardLogic th now avg r) = granted_reward now r.
Proof.
  destruct r as [qs rs sh al lu cu pu fl ls].
  unfold rewardLogic, granted_reward. cbv zeta.
  cbn [lessonStartMs quietStartMs rewardCooldownUntilMs penaltyUntilMs
       needsResetAboveGood].
  destruct (usub now ls <? MIN_LESSON_BEFORE_REWARD_MS)%Z eqn:G; [discriminate|].
  apply Z.ltb_ge in G.
  destruct (avg >=? greenMax th + REWARD_SPIKE_MARGIN_DB)%float; [discriminate|].
  destruct (avg >? greenMax th)%float eqn:A.
  - pose proof (flt_fle_excl _ _ A) as A'.
    cbn. destruct ((now <? cu)%Z || (now <? pu)%Z); [discriminate|].
    cbn. rewrite A'.
    destruct (avg >=? greenMax th + REWARD_BREAK_MARGIN_DB)%float; discriminate.
  - cbn [rewardCooldownUntilMs penaltyUntilMs needsResetAboveGood].
    destruct (now <? cu)%Z eqn:C; [discriminate|].
    destruct (now <? pu)%Z eqn:P; [discriminate|].
    apply Z.ltb_ge in C. apply Z.ltb_ge in P. cbn [orb].
    destruct fl; [cbn; discriminate|].
    cbn [negb needsResetAboveGood].
    destruct (avg <=? greenMax th)%float;
      [|destruct (avg >=? greenMax th + REWARD_BREAK_MARGIN_DB)%float; discriminate].
    cbn [quietStartMs]. destruct (qs =? 0)%Z eqn:Q.
    + cbn [quietStartMs set_quietStartMs]. rewrite usub_self. discriminate.
    + apply Z.eqb_neq in Q. cbn [quietStartMs].
      destruct (usub now qs >=? QUIET_REWARD_MS)%Z eqn:S; [|discriminate].
      rewrite Z.geb_leb in S. apply Z.leb_le in S.
      intros _. repeat (split; [assumption || reflexivity|]). reflexivity.
Qed.

Lemma sleep_finalize (sqrt : float -> float) (epoch : Z) (g : Globals) :
  inSleepMode (finalizeRoomCalibrationIfDue sqrt epoch g) = inSleepMode g.
Proof.
  unfold finalizeRoomCalibrationIfDue. split_ifs; reflexivity.
Qed.

Lemma sleep_loop_calibrate (sqrt : float -> float) (t : Tick) (g : Globals) :
  inSleepMode (loop_calibrate sqrt t g) = inSleepMode g.
Proof.
  unfold loop_calibrate. cbv zeta.
  match goal with
  | |- context [finalizeRoomCalibrationIfDue sqrt ?e ?x] =>
      pose proof (sleep_finalize sqrt e x) as F;
      destruct (roomCalEnabled (cal (finalizeRoomCalibrationIfDue sqrt e x))
                && roomCalComplete (cal (finalizeRoomCalibrationIfDue sqrt e x)));
      simpl; rewrite F
  end; split_ifs; reflexivity.
Qed.

(** A grant by [loop] and what it presupposes of the state before the
    iteration. *)
Lemma loop_grant_sound (sqrt : float -> float) (t : Tick) (g : Globals) :
  granted (snd (loop sqrt t g)) = true ->
  tick_ws t g = LESSON
  /\ lastWs g = LESSON
  /\ is_normal (deviceMode t) = true
  /\ inSleepMode (fst (loop sqrt t g)) = false
  /\ rewardShowing (reward g) = false
  /\ needsResetAboveGood (reward g) = false
  /\ (avgDB t <=? goodDb_of sqrt t g)%float = true
  /\ (MIN_LESSON_BEFORE_REWARD_MS <= usub (u32 (nowMs t)) (lessonStartMs (reward g)))%Z
  /\ quietStartMs (reward g) <> 0%Z
  /\ (QUIET_REWARD_MS <= usub (u32 (nowMs t)) (quietStartMs (reward g)))%Z
  /\ (rewardCooldownUntilMs (reward g) <= u32 (nowMs t))%Z
  /\ (penaltyUntilMs (reward g) <= u32 (nowMs t))%Z
  /\ reward (fst (loop sqrt t g)) = granted_reward (u32 (nowMs t)) (reward g).
Proof.
  intro H.
  destruct (WindowState_eqb (tick_ws t g) LESSON) eqn:W.
  2:{ assert (W' : tick_ws t g <> LESSON) by (intro E; rewrite E in W; discriminate).
      destruct (loop_not_lesson sqrt t g W') as [_ E2]. congruence. }
  assert (W' : tick_ws t g = LESSON)
    by (destruct (tick_ws t g); discriminate || reflexivity).
  destruct (inSleepMode (loop_sleep t (loop_sense t g))) eqn:S.
  { rewrite (loop_lesson_asleep sqrt t g W' S) in H. discriminate H. }
  rewrite (loop_lesson_awake sqrt t g W' S) in *. cbv zeta in *.
  unfold goodDb_of.
  assert (SL : inSleepMode (loop_before_reward sqrt t g) = false).
  { unfold loop_before_reward. rewrite sleep_loop_calibrate. exact S. }
  pose proof (eq_refl (reward (loop_before_reward sqrt t g))) as R2.
  unfold loop_before_reward in R2 at 2.
  rewrite reward_loop_calibrate, reward_loop_sleep, reward_loop_sense, W in R2.
  set (g2 := loop_before_reward sqrt t g) in *.
  destruct (negb (rewardShowing (reward g2)) && is_normal (deviceMode t)) eqn:C.
  2:{ destruct (flag_loop_display t g2) as [_ D]. congruence. }
  apply andb_true_iff in C. destruct C as [C1 C2]. apply negb_true_iff in C1.
  destruct (snd (rewardLogic (ACTIVE_TH g2) (u32 (nowMs t)) (avgDB t) (reward g2)))
    eqn:Wn.
  2:{ match type of H with
      | granted (snd (loop_display t ?x)) = true =>
          destruct (flag_loop_display t x) as [_ D]; congruence
      end. }
  destruct (rewardLogic_grant_sound _ _ _ _ Wn)
    as (G1 & G2 & G3 & G4 & G5 & G6 & G7 & G8).
  cbn [fst reward set_reward inSleepMode]. rewrite G8.
  destruct (WindowState_eqb (lastWs g) LESSON) eqn:LW.
  2:{ cbn [andb negb] in R2. rewrite R2 in G6. cbn in G6. now elim G6. }
  cbn [andb negb] in R2. rewrite R2 in *.
  assert (LW' : lastWs g = LESSON)
    by (destruct (lastWs g); discriminate || reflexivity).
  repeat (split; [assumption|]). reflexivity.
Qed.

(** X12: A reward is granted only in a LESSON window that was already a LESSON
    window at the previous iteration, in normal mode, awake, with no reward
    on show and the above-good flag clear, on an average at or below
    [goodDb], at least MIN_LESSON_BEFORE_REWARD_MS into the lesson, with a
    streak started at least QUIET_REWARD_MS ago, and with both the cooldown
    and the penalty deadline behind the clock; the grant leaves the reward
    record of [granted_reward]. *)
Theorem reward_only_when_earned (sqrt : float -> float) (t : Tick) (g : Globals) :
  granted (snd (loop sqrt t g)) = true ->
  tick_ws t g = LESSON
  /\ lastWs g = LESSON
  /\ is_normal (deviceMode t) = true
  /\ inSleepMode (fst (loop sqrt t g)) = false
  /\ rewardShowing (reward g) = false
  /\ needsResetAboveGood (reward g) = false
  /\ (avgDB t <=? goodDb_of sqrt t g)%float = true
  /\ (MIN_LESSON_BEFORE_REWARD_MS <= usub (u32 (nowMs t)) (lessonStartMs (reward g)))%Z
  /\ quietStartMs (reward g) <> 0%Z
  /\ (QUIET_REWARD_MS <= usub (u32 (nowMs t)) (quietStartMs (reward g)))%Z
  /\ (rewardCooldownUntilMs (reward g) <= u32 (nowMs t))%Z
  /\ (penaltyUntilMs (reward g) <= u32 (nowMs t))%Z
  /\ reward (fst (loop sqrt t g)) = granted_reward (u32 (nowMs t)) (reward g).
Proof.
  apply loop_grant_sound.
Qed.

Lemma reward_only_when_earned_witness :
  let t := second_reward_t0 in
  let g := second_reward_g0 in
  granted (snd (loop sqrt_approx t g)) = true
  /\ (tick_ws t g = LESSON
      /\ lastWs g = LESSON
      /\ is_normal (deviceMode t) = true
      /\ inSleepMode (fst (loop sqrt_approx t g)) = false
      /\ rewardShowing (reward g) = false
      /\ needsResetAboveGood (reward g) = false
      /\ (avgDB t <=? goodDb_of sqrt_approx t g)%float = true
      /\ (MIN_LESSON_BEFORE_REWARD_MS
          <= usub (u32 (nowMs t)) (lessonStartMs (reward g)))%Z
      /\ quietStartMs (reward g) <> 0%Z
      /\ (QUIET_REWARD_MS <= usub (u32 (nowMs t)) (quietStartMs (reward g)))%Z
      /\ (rewardCooldownUntilMs (reward g) <= u32 (nowMs t))%Z
      /\ (penaltyUntilMs (reward g) <= u32 (nowMs t))%Z
      /\ reward (fst (loop sqrt_approx t g))
         = granted_reward (u32 (nowMs t)) (reward g)).
Proof.
  assert (H0 : granted (snd (loop sqrt_approx second_reward_t0 second_reward_g0)) = true)
    by (vm_compute; reflexivity).
  intros t g. split; [exact H0|].
  exact (reward_only_when_earned sqrt_approx second_reward_t0 second_reward_g0 H0).
Defined.

(** ** Spacing of rewards *)

Ltac reward_cbn :=
  cbn [quietStartMs rewardStartMs rewardShowing rewardActiveForLog rewardLogUntilMs
       rewardCooldownUntilMs penaltyUntilMs needsResetAboveGood lessonStartMs
       set_quietStartMs set_rewardStartMs set_rewardShowing set_rewardActiveForLog
       set_rewardLogUntilMs set_rewardCooldownUntilMs set_penaltyUntilMs
       set_needsResetAboveGood set_lessonStartMs fst snd reward set_reward
       negb orb andb].

Ltac reward_cbn_in H :=
  cbn [quietStartMs rewardStartMs rewardShowing rewardActiveForLog rewardLogUntilMs
       rewardCooldownUntilMs penaltyUntilMs needsResetAboveGood lessonStartMs
       set_quietStartMs set_rewardStartMs set_rewardShowing set_rewardActiveForLog
       set_rewardLogUntilMs set_rewardCooldownUntilMs set_penaltyUntilMs
       set_needsResetAboveGood set_lessonStartMs fst snd reward set_reward
       negb orb andb] in H.

Lemma streak_not_before_later (L from now : Z) (r : Reward) :
  streak_not_before L from r -> (from <= now)%Z -> streak_not_before L now r.
Proof.
  unfold streak_not_before. intros [HQ HC] H. split; lia.
Qed.

Lemma streak_not_before_edge (L now n : Z) (r : Reward) :
  streak_not_before L now r ->
  streak_not_before L now (set_quietStartMs 0 (set_lessonStartMs n r)).
Proof.
  unfold streak_not_before. intros [HQ HC]. reward_cbn. split; [left; reflexivity|exact HC].
Qed.

Lemma streak_not_before_sense (L now : Z) (t : Tick) (g : Globals) :
  streak_not_before L now (reward g) ->
  streak_not_before L now (reward (loop_sense t g)).
Proof.
  intro H. rewrite reward_loop_sense.
  destruct (_ && _); [apply streak_not_before_edge|]; exact H.
Qed.

Lemma streak_not_before_display (L now : Z) (t : Tick) (g : Globals) :
  streak_not_before L now (reward g) ->
  streak_not_before L now (reward (fst (loop_display t g))).
Proof.
  intro H. unfold loop_display. cbv zeta.
  destruct (rewardShowing (reward g)
            && (usub (u32 (rewardMs t)) (rewardStartMs (reward g))
                <? REWARD_DURATION_MS)%Z); [exact H|].
  reward_cbn. unfold streak_not_before in *. destruct H as [HQ HC].
  destruct (reward g) as [qs rs sh al lu cu pu fl ls].
  reward_cbn_in HQ. reward_cbn_in HC. reward_cbn.
  destruct sh; reward_cbn; split_ifs; reward_cbn; split;
    try assumption; left; reflexivity.
Qed.

(** The reward block keeps the invariant: a streak starts only when the
    cooldown test has let the block through. *)
Lemma streak_not_before_rewardLogic (L now : Z) (th : Thresholds) (avg : float)
  (r : Reward) :
  streak_not_before L now r ->
  streak_not_before L now (fst (rewardLogic th now avg r)).
Proof.
  unfold streak_not_before. intros [HQ HC].
  destruct r as [qs rs sh al lu cu pu fl ls]. reward_cbn_in HQ. reward_cbn_in HC.
  unfold rewardLogic. cbv zeta. reward_cbn.
  destruct (usub now ls <? MIN_LESSON_BEFORE_REWARD_MS)%Z;
    [reward_cbn; split; [left; reflexivity|exact HC]|].
  destruct (avg >=? greenMax th + REWARD_SPIKE_MARGIN_DB)%float;
    [reward_cbn; split; [left; reflexivity|exact HC]|].
  assert (R : forall fl' : bool,
    let r := mkReward qs rs sh al lu cu pu fl' ls in
    streak_not_before L now
      (fst
         (if ((now <? rewardCooldownUntilMs r) || (now <? penaltyUntilMs r))%Z
          then (set_quietStartMs 0 r, false)
          else
            let r0 :=
              if needsResetAboveGood r
              then if (avg >? greenMax th)%float
                   then set_needsResetAboveGood false r
                   else set_quietStartMs 0 r
              else r in
            if negb (needsResetAboveGood r0)
            then
              if (avg <=? greenMax th)%float
              then
                let r1 := if (quietStartMs r0 =? 0)%Z
                          then set_quietStartMs now r0 else r0 in
                if (usub now (quietStartMs r1) >=? QUIET_REWARD_MS)%Z
                then (granted_reward now r1, true)
                else (r1, false)
              else if (avg >=? greenMax th + REWARD_BREAK_MARGIN_DB)%float
                   then (set_quietStartMs 0 r0, false)
                   else (r0, false)
            else (r0, false)))).
  { intros fl'. cbv zeta. unfold streak_not_before, granted_reward. reward_cbn.
    destruct (now <? cu)%Z eqn:C; [reward_cbn; split; [left; reflexivity|exact HC]|].
    destruct (now <? pu)%Z; [reward_cbn; split; [left; reflexivity|exact HC]|].
    apply Z.ltb_ge in C. reward_cbn.
    assert (HL : (L <= now)%Z) by lia.
    destruct fl'; reward_cbn; destruct (avg >? greenMax th)%float; reward_cbn;
      destruct (avg <=? greenMax th)%float; reward_cbn;
      try (destruct (qs =? 0)%Z; reward_cbn);
      split_ifs; reward_cbn; split; lia. }
  destruct (avg >? greenMax th)%float; apply (R _).
Qed.

Lemma streak_not_before_loop (sqrt : float -> float) (L from : Z) (t : Tick)
  (g : Globals) :
  streak_not_before L from (reward g) -> (from <= u32 (nowMs t))%Z ->
  streak_not_before L (u32 (nowMs t)) (reward (fst (loop sqrt t g))).
Proof.
  intros H0 Hf.
  pose proof (streak_not_before_later L from (u32 (nowMs t)) (reward g) H0 Hf) as H.
  destruct (WindowState_eqb (tick_ws t g) LESSON) eqn:W.
  - assert (W' : tick_ws t g = LESSON)
      by (destruct (tick_ws t g); discriminate || reflexivity).
    destruct (inSleepMode (loop_sleep t (loop_sense t g))) eqn:S.
    + rewrite (loop_lesson_asleep sqrt t g W' S). cbn [fst].
      rewrite reward_loop_sleep. now apply streak_not_before_sense.
    + rewrite (loop_lesson_awake sqrt t g W' S). cbv zeta.
      assert (H2 : streak_not_before L (u32 (nowMs t))
                     (reward (loop_before_reward sqrt t g))).
      { unfold loop_before_reward. rewrite reward_loop_calibrate, reward_loop_sleep.
        now apply streak_not_before_sense. }
      set (g2 := loop_before_reward sqrt t g) in *.
      pose proof (streak_not_before_rewardLogic L (u32 (nowMs t)) (ACTIVE_TH g2)
                    (avgDB t) (reward g2) H2) as H3.
      destruct (negb (rewardShowing (reward g2)) && is_normal (deviceMode t)).
      * destruct (snd (rewardLogic (ACTIVE_TH g2) (u32 (nowMs t)) (avgDB t)
                         (reward g2))).
        -- cbn [fst reward set_reward]. exact H3.
        -- apply streak_not_before_display. cbn [reward set_reward]. exact H3.
      * now apply streak_not_before_display.
  - assert (W' : tick_ws t g <> LESSON) by (intro E; rewrite E in W; discriminate).
    destruct (loop_not_lesson sqrt t g W') as [E1 _]. rewrite E1.
    now apply streak_not_before_sense.
Qed.

(** Under the invariant a grant comes at least QUIET_REWARD_MS after [L]. *)
Lemma grant_not_before (sqrt : float -> float) (L from : Z) (t : Tick) (g : Globals) :
  (0 <= L)%Z ->
  streak_not_before L from (reward g) -> (from <= u32 (nowMs t))%Z ->
  granted (snd (loop sqrt t g)) = true ->
  (L + QUIET_REWARD_MS <= u32 (nowMs t))%Z.
Proof.
  intros HL [HQ _] Hf G.
  destruct (loop_grant_sound sqrt t g G)
    as (_ & _ & _ & _ & _ & _ & _ & _ & Q1 & Q2 & _).
  destruct HQ as [HQ|HQ]; [now elim Q1|].
  pose proof (u32_range (nowMs t)) as Hr.
  unfold usub in Q2. rewrite u32_small in Q2 by lia. lia.
Qed.

Lemma run_grants_not_before (sqrt : float -> float) (L : Z) (ts : list Tick) :
  (0 <= L)%Z ->
  forall (from : Z) (g : Globals) (k : nat) (tk : Tick),
    streak_not_before L from (reward g) ->
    clock_monotone from ts = true ->
    nth_error ts k = Some tk ->
    granted (snd (loop sqrt tk (state_before sqrt ts k g))) = true ->
    (L + QUIET_REWARD_MS <= u32 (nowMs tk))%Z.
Proof.
  intro HL. induction ts as [|t ts IH]; intros from g k tk H Hm Hk G.
  - destruct k; discriminate.
  - cbn [clock_monotone] in Hm. apply andb_true_iff in Hm. destruct Hm as [M1 M2].
    apply Z.leb_le in M1.
    destruct k as [|k].
    + cbn [nth_error] in Hk. inversion Hk; subst tk.
      unfold state_before in G. cbn [firstn run fst] in G.
      exact (grant_not_before sqrt L from t g HL H M1 G).
    + cbn [nth_error] in Hk. rewrite state_before_S in G.
      exact (IH (u32 (nowMs t)) (fst (loop sqrt t g)) k tk
               (streak_not_before_loop sqrt L from t g H M1) M2 Hk G).
Qed.

(** X13: Two rewards are at least REWARD_COOLDOWN_MS + QUIET_REWARD_MS (five
    minutes) apart: after an iteration that grants a reward at a clock
    reading whose cooldown deadline does not wrap, and with clock readings
    that never go back, any later iteration that grants a reward reads a
    clock at least 300 s later, whatever the averages, windows and modes in
    between. *)
Theorem rewards_five_minutes_apart (sqrt : float -> float) (g0 : Globals)
  (t0 : Tick) (ts : list Tick) (k : nat) (tk : Tick) :
  granted (snd (loop sqrt t0 g0)) = true ->
  (u32 (nowMs t0) + REWARD_COOLDOWN_MS < 2 ^ 32)%Z ->
  clock_monotone (u32 (nowMs t0)) ts = true ->
  nth_error ts k = Some tk ->
  granted (snd (loop sqrt tk (state_before sqrt ts k (fst (loop sqrt t0 g0))))) = true ->
  (u32 (nowMs t0) + REWARD_COOLDOWN_MS + QUIET_REWARD_MS <= u32 (nowMs tk))%Z.
Proof.
  intros G0 Hw Hm Hk G.
  destruct (loop_grant_sound sqrt t0 g0 G0)
    as (_ & _ & _ & _ & _ & _ & _ & _ & _ & _ & _ & _ & R).
  pose proof (u32_range (nowMs t0)) as Hr0.
  assert (HL : (0 <= u32 (nowMs t0) + REWARD_COOLDOWN_MS)%Z)
    by (unfold REWARD_COOLDOWN_MS; lia).
  apply (run_grants_not_before sqrt (u32 (nowMs t0) + REWARD_COOLDOWN_MS) ts HL
           (u32 (nowMs t0)) (fst (loop sqrt t0 g0)) k tk); try assumption.
  rewrite R. unfold streak_not_before, granted_reward. reward_cbn.
  split; [left; reflexivity|]. left.
  pose proof (u32_range (nowMs t0)) as Hr.
  unfold uadd. rewrite (u32_small (u32 (nowMs t0) + REWARD_COOLDOWN_MS)); lia.
Qed.

Lemma rewards_five_minutes_apart_witness :
  granted (snd (loop sqrt_approx second_reward_t0 second_reward_g0)) = true
  /\ (u32 (nowMs second_reward_t0) + REWARD_COOLDOWN_MS < 2 ^ 32)%Z
  /\ clock_monotone (u32 (nowMs second_reward_t0)) second_reward_ts = true
  /\ nth_error second_reward_ts 29 = Some (lesson_tick 540000 40)
  /\ granted (snd (loop sqrt_approx (lesson_tick 540000 40)
                     (state_before sqrt_approx second_reward_ts 29
                        (fst (loop sqrt_approx second_reward_t0 second_reward_g0)))))
     = true
  /\ (u32 (nowMs second_reward_t0) + REWARD_COOLDOWN_MS + QUIET_REWARD_MS
      <= u32 (nowMs (lesson_tick 540000 40)))%Z.
Proof.
  assert (H0 : granted (snd (loop sqrt_approx second_reward_t0 second_reward_g0)) = true)
    by (vm_compute; reflexivity).
  assert (Hw : (u32 (nowMs second_reward_t0) + REWARD_COOLDOWN_MS < 2 ^ 32)%Z)
    by (vm_compute; reflexivity).
  assert (Hm : clock_monotone (u32 (nowMs second_reward_t0)) second_reward_ts = true)
    by (vm_compute; reflexivity).
  assert (H1 : nth_error second_reward_ts 29 = Some (lesson_tick 540000 40))
    by (vm_compute; reflexivity).
  assert (H2 : granted (snd (loop sqrt_approx (lesson_tick 540000 40)
                 (state_before sqrt_approx second_reward_ts 29
                    (fst (loop sqrt_approx second_reward_t0 second_reward_g0))))) = true)
    by (vm_compute; reflexivity).
  split; [exact H0|]. split; [exact Hw|]. split; [exact Hm|]. split; [exact H1|].
  split; [exact H2|].
  exact (rewards_five_minutes_apart sqrt_approx second_reward_g0 second_reward_t0
           second_reward_ts 29%nat (lesson_tick 540000 40) H0 Hw Hm H1 H2).
Defined.
(** ** Outside lessons *)

Lemma loop_sense_sleep_frame (t : Tick) (g : Globals) :
  inSleepMode (loop_sense t g) = inSleepMode g
  /\ silenceStart (loop_sense t g) = silenceStart g
  /\ lastCalSampleMs (loop_sense t g) = lastCalSampleMs g.
Proof.
  unfold loop_sense, tick_ws. cbv zeta. split_ifs; repeat split.
Qed.

Lemma run_outside_lesson (sqrt : float -> float) (ts : list Tick) :
  forall g : Globals,
    outside_lesson (timetable g) ts = true ->
    let g1 := fst (run sqrt ts g) in
    reward g1 = reward g
    /\ cal g1 = cal g
    /\ ACTIVE_TH g1 = ACTIVE_TH g
    /\ timetable g1 = timetable g
    /\ inSleepMode g1 = inSleepMode g
    /\ silenceStart g1 = silenceStart g
    /\ (ts <> [] -> lastWs g1 <> LESSON)
    /\ no_grant (snd (run sqrt ts g)) = true.
Proof.
  induction ts as [|t ts IH]; intros g H.
  - cbn [run fst snd no_grant forallb]. repeat split; try reflexivity.
    intro E. now elim E.
  - cbn [outside_lesson forallb] in H. apply andb_true_iff in H.
    destruct H as [W H]. apply negb_true_iff in W.
    assert (W' : tick_ws t g <> LESSON).
    { unfold tick_ws. intro E. rewrite E in W. discriminate. }
    destruct (loop_not_lesson sqrt t g W') as [E1 E2].
    destruct (loop_sense_frame t g) as (A1 & C1 & T1 & _ & L1).
    destruct (loop_sense_sleep_frame t g) as (S1 & S2 & _).
    assert (R1 : reward (loop_sense t g) = reward g).
    { rewrite reward_loop_sense.
      unfold tick_ws. rewrite W. reflexivity. }
    rewrite run_cons. cbn [fst snd no_grant forallb]. rewrite E1, E2.
    assert (H' : outside_lesson (timetable (loop_sense t g)) ts = true)
      by (rewrite T1; exact H).
    destruct (IH (loop_sense t g) H') as (R & C & A & T & S & SS & L & G).
    cbv zeta. rewrite R, C, A, T, S, SS, R1, C1, A1, T1, S1, S2.
    repeat split; try reflexivity.
    + intros _. destruct ts as [|t' ts'].
      * cbn [run fst]. rewrite L1. exact W'.
      * apply L. discriminate.
    + exact G.
Qed.

(** X14: Iterations outside LESSON windows grant nothing and leave the reward
    record, the calibration state, the active thresholds and the sleep flag
    as they were; the first LESSON iteration after them enters the reward
    block (if it gets that far) with the streak unset and the lesson start
    at its own clock reading, and with the cooldown, the penalty deadline and
    the above-good flag carried over from before the break. *)
Theorem break_keeps_lockouts (sqrt : float -> float) (ts : list Tick) (t : Tick)
  (g : Globals) :
  outside_lesson (timetable g) ts = true -> ts <> [] ->
  let g1 := fst (run sqrt ts g) in
  no_grant (snd (run sqrt ts g)) = true
  /\ reward g1 = reward g
  /\ cal g1 = cal g
  /\ ACTIVE_TH g1 = ACTIVE_TH g
  /\ inSleepMode g1 = inSleepMode g
  /\ (tick_ws t g1 = LESSON ->
      reward (loop_before_reward sqrt t g1)
      = set_quietStartMs 0 (set_lessonStartMs (u32 (nowMs t)) (reward g))).
Proof.
  intros H N g1.
  destruct (run_outside_lesson sqrt ts g H) as (R & C & A & T & S & SS & L & G).
  fold g1 in R, C, A, T, S, SS, L.
  repeat (split; [assumption|]).
  intro W. unfold loop_before_reward.
  rewrite reward_loop_calibrate, reward_loop_sleep, reward_loop_sense, W, R.
  specialize (L N). destruct (lastWs g1); try reflexivity. now elim L.
Qed.

Lemma break_keeps_lockouts_witness :
  let ts := [break_tick 250000 50; break_tick 260000 70] in
  let t := lesson_tick 270000 40 in
  let g1 := fst (run sqrt_approx ts rewarded_g) in
  outside_lesson (timetable rewarded_g) ts = true /\ ts <> []
  /\ no_grant (snd (run sqrt_approx ts rewarded_g)) = true
  /\ reward g1 = reward rewarded_g
  /\ cal g1 = cal rewarded_g
  /\ ACTIVE_TH g1 = ACTIVE_TH rewarded_g
  /\ inSleepMode g1 = inSleepMode rewarded_g
  /\ (tick_ws t g1 = LESSON ->
      reward (loop_before_reward sqrt_approx t g1)
      = set_quietStartMs 0 (set_lessonStartMs (u32 (nowMs t)) (reward rewarded_g))).
Proof.
  assert (H : outside_lesson (timetable rewarded_g)
                [break_tick 250000 50; break_tick 260000 70] = true)
    by (vm_compute; reflexivity).
  assert (N : [break_tick 250000 50; break_tick 260000 70] <> []) by discriminate.
  intros ts t g1. split; [exact H|]. split; [exact N|].
  exact (break_keeps_lockouts sqrt_approx [break_tick 250000 50; break_tick 260000 70]
           (lesson_tick 270000 40) rewarded_g H N).
Defined.

(** ** LED smoothing *)

Lemma led_fields_loop_sleep (t : Tick) (g : Globals) :
  led_fields (loop_sleep t g) = led_fields g.
Proof.
  unfold loop_sleep, led_fields. split_ifs; reflexivity.
Qed.

Lemma led_fields_finalize (sqrt : float -> float) (epoch : Z) (g : Globals) :
  led_fields (finalizeRoomCalibrationIfDue sqrt epoch g) = led_fields g.
Proof.
  unfold finalizeRoomCalibrationIfDue, led_fields. split_ifs; reflexivity.
Qed.

Lemma led_fields_loop_calibrate (sqrt : float -> float) (t : Tick) (g : Globals) :
  led_fields (loop_calibrate sqrt t g) = led_fields g.
Proof.
  unfold loop_calibrate. cbv zeta.
  match goal with
  | |- context [finalizeRoomCalibrationIfDue sqrt ?e ?x] =>
      pose proof (led_fields_finalize sqrt e x) as F;
      destruct (roomCalEnabled (cal (finalizeRoomCalibrationIfDue sqrt e x))
                && roomCalComplete (cal (finalizeRoomCalibrationIfDue sqrt e x)));
      [change (led_fields (finalizeRoomCalibrationIfDue sqrt e x) = led_fields g)|];
      rewrite F
  end; unfold led_fields; split_ifs; reflexivity.
Qed.

Lemma led_fields_loop_display (t : Tick) (g : Globals) :
  led_fields (fst (loop_display t g)) = led_fields g.
Proof.
  unfold loop_display, led_fields. split_ifs; reflexivity.
Qed.

(** Only the sensing part of an iteration writes the smoothing globals. *)
Lemma led_fields_loop (sqrt : float -> float) (t : Tick) (g : Globals) :
  led_fields (fst (loop sqrt t g)) = led_fields (loop_sense t g).
Proof.
  destruct (WindowState_eqb (tick_ws t g) LESSON) eqn:W.
  - assert (W' : tick_ws t g = LESSON)
      by (destruct (tick_ws t g); discriminate || reflexivity).
    destruct (inSleepMode (loop_sleep t (loop_sense t g))) eqn:S.
    + rewrite (loop_lesson_asleep sqrt t g W' S). cbn [fst].
      apply led_fields_loop_sleep.
    + rewrite (loop_lesson_awake sqrt t g W' S). cbv zeta.
      assert (E : led_fields (loop_before_reward sqrt t g) = led_fields (loop_sense t g)).
      { unfold loop_before_reward.
        now rewrite led_fields_loop_calibrate, led_fields_loop_sleep. }
      destruct (negb (rewardShowing (reward (loop_before_reward sqrt t g)))
                && is_normal (deviceMode t)).
      * destruct (snd (rewardLogic _ _ _ _)).
        -- cbn [fst]. exact E.
        -- rewrite led_fields_loop_display. exact E.
      * rewrite led_fields_loop_display. exact E.
  - assert (W' : tick_ws t g <> LESSON) by (intro E; rewrite E in W; discriminate).
    destruct (loop_not_lesson sqrt t g W') as [E1 _]. now rewrite E1.
Qed.

(** The sensing part on the smoothing globals: a sample tick records the
    clock and runs the smoothing once; any other iteration runs it only if
    the flag was left set; the flag is clear afterwards. *)
Lemma led_fields_loop_sense (t : Tick) (g : Globals) :
  led_fields (loop_sense t g)
  = if sample_due t g || hasNewSampleForLed g then
      (if sample_due t g then u32 (nowMs t) else lastSampleTime g,
       ((Fin 1.0 - LED_SMOOTH_ALPHA) * ledDB g + LED_SMOOTH_ALPHA * avgDB t)%float,
       false)
    else (lastSampleTime g, ledDB g, false).
Proof.
  unfold loop_sense, tick_ws, sample_due, led_fields. cbv zeta.
  destruct (usub (u32 (nowMs t)) (lastSampleTime g) >=? SAMPLE_INTERVAL_MS)%Z;
    cbn [orb]; destruct (hasNewSampleForLed g) eqn:F;
    match goal with
    | |- context [if (WindowState_eqb ?a ?b && ?c) then _ else _] =>
        destruct (WindowState_eqb a b && c)
    end; destruct g; cbn in F |- *; subst; reflexivity.
Qed.

(** Iterations that are not sample ticks leave the smoothing globals alone,
    once the flag is clear. *)
Lemma led_fields_held (sqrt : float -> float) (ts : list Tick) (g : Globals) :
  hasNewSampleForLed g = false ->
  between_samples (lastSampleTime g) ts = true ->
  led_fields (fst (run sqrt ts g)) = led_fields g.
Proof.
  revert g. induction ts as [|t ts IH]; intros g F B; [reflexivity|].
  cbn [between_samples forallb] in B. apply andb_true_iff in B. destruct B as [B1 B2].
  assert (E : led_fields (fst (loop sqrt t g)) = led_fields g).
  { rewrite led_fields_loop, led_fields_loop_sense. unfold sample_due.
    replace (usub (u32 (nowMs t)) (lastSampleTime g) >=? SAMPLE_INTERVAL_MS)%Z
      with false
      by (symmetry; apply Z.ltb_lt in B1; rewrite Z.geb_leb; apply Z.leb_gt; exact B1).
    rewrite F. unfold led_fields. rewrite F. reflexivity. }
  rewrite run_cons. cbn [fst]. rewrite <- E.
  unfold led_fields in E. inversion E as [[E1 E2 E3]].
  apply IH.
  - rewrite E3. exact F.
  - rewrite E1. exact B2.
Qed.

(** X15: Between two microphone samples the LED level holds still: after a
    sample tick and any number of further iterations that read the clock
    less than SAMPLE_INTERVAL_MS after it, [ledDB] is what the sample tick
    left, whatever averages those iterations observe and in every window,
    device mode and reward state; [lastSampleTime] is the clock of the
    sample tick and the gating flag is clear.  The smoothing assignment thus
    runs once per sample, not once per pass of [loop]. *)
Theorem ledDB_held_between_samples (sqrt : float -> float) (t : Tick)
  (ts : list Tick) (g : Globals) :
  sample_due t g = true ->
  between_samples (u32 (nowMs t)) ts = true ->
  let g' := fst (run sqrt (t :: ts) g) in
  ledDB g' = ledDB (fst (loop sqrt t g))
  /\ lastSampleTime g' = u32 (nowMs t)
  /\ hasNewSampleForLed g' = false.
Proof.
  intros D B g'.
  assert (E : led_fields (fst (loop sqrt t g))
              = (u32 (nowMs t),
                 ((Fin 1.0 - LED_SMOOTH_ALPHA) * ledDB g + LED_SMOOTH_ALPHA * avgDB t)%float,
                 false)).
  { rewrite led_fields_loop, led_fields_loop_sense, D. reflexivity. }
  assert (H : led_fields g' = led_fields (fst (loop sqrt t g))).
  { unfold g'. rewrite run_cons. cbn [fst].
    apply led_fields_held.
    - exact (f_equal snd E).
    - rewrite (f_equal (fun p => fst (fst p)) E : lastSampleTime _ = _). exact B. }
  split; [exact (f_equal (fun p => snd (fst p)) H)|].
  rewrite E in H.
  split; [exact (f_equal (fun p => fst (fst p)) H)|exact (f_equal snd H)].
Qed.

Lemma ledDB_held_between_samples_witness :
  let t := lesson_tick 1000 60 in
  let ts := lesson_ticks 9 1020 20 90 in
  let g := initial_globals 0 in
  sample_due t g = true
  /\ between_samples (u32 (nowMs t)) ts = true
  /\ let g' := fst (run sqrt_approx (t :: ts) g) in
     ledDB g' = ledDB (fst (loop sqrt_approx t g))
     /\ lastSampleTime g' = u32 (nowMs t)
     /\ hasNewSampleForLed g' = false.
Proof.
  assert (D : sample_due (lesson_tick 1000 60) (initial_globals 0) = true)
    by (vm_compute; reflexivity).
  assert (B : between_samples (u32 (nowMs (lesson_tick 1000 60)))
                (lesson_ticks 9 1020 20 90) = true) by (vm_compute; reflexivity).
  split; [exact D|]. split; [exact B|].
  exact (ledDB_held_between_samples sqrt_approx (lesson_tick 1000 60)
           (lesson_ticks 9 1020 20 90) (initial_globals 0) D B).
Defined.

(** On that run the level moved once, at the sample tick, from 35 towards
    the 60 dB it read, and the nine readings of 90 dB after it left it
    alone. *)
Lemma ledDB_held_example :
  let g' := fst (run sqrt_approx (lesson_tick 1000 60 :: lesson_ticks 9 1020 20 90)
                   (initial_globals 0)) in
  ledDB (initial_globals 0) = Fin 35
  /\ (ledDB g' >? Fin 35)%float = true /\ (ledDB g' <? Fin 38)%float = true.
Proof.
  vm_compute. repeat split.
Qed.
(** ** Holly Hop *)

Lemma buttonHandling_keeps_holly_hop (btn : bool) (nowMs : Z) (s : Button.State) :
  Button.deviceMode s = MODE_HOLLY_HOP ->
  Button.deviceMode (fst (Button.buttonHandling btn nowMs s)) = MODE_HOLLY_HOP.
Proof.
  intro H. destruct s as [lb ps wt lt dm he hs pe su]. cbn in H. subst dm.
  unfold Button.buttonHandling. cbv zeta.
  cbn [Button.lastButtonState Button.set_press Button.set_lastToggleAt
       Button.deviceMode Button.lastToggleAt Button.buttonPressStart
       Button.wipeTriggered Button.beginExitHollyHop Button.enterHollyHop
       Button.hollyHopEndAt].
  destruct btn, lb; cbn [andb negb];
    try destruct (usub nowMs lt >=? Button.DEBOUNCE_MS)%Z;
    cbn [Button.lastButtonState Button.set_press Button.set_lastToggleAt
         Button.deviceMode Button.lastToggleAt Button.buttonPressStart
         Button.wipeTriggered Button.beginExitHollyHop Button.enterHollyHop
         Button.hollyHopEndAt andb negb];
    split_ifs; reflexivity.
Qed.

Lemma stats_finalize (sqrt : float -> float) (epoch : Z) (g : Globals) :
  cal_stats (cal (finalizeRoomCalibrationIfDue sqrt epoch g)) = cal_stats (cal g).
Proof.
  unfold finalizeRoomCalibrationIfDue. split_ifs; reflexivity.
Qed.

(** Outside normal mode the calibration step takes no sample. *)
Lemma stats_loop_calibrate (sqrt : float -> float) (t : Tick) (g : Globals) :
  is_normal (deviceMode t) = false ->
  cal_stats (cal (loop_calibrate sqrt t g)) = cal_stats (cal g).
Proof.
  intro N. unfold loop_calibrate. cbv zeta. rewrite N.
  rewrite andb_false_r. cbn [andb].
  match goal with
  | |- context [finalizeRoomCalibrationIfDue sqrt ?e ?x] =>
      pose proof (stats_finalize sqrt e x) as F;
      destruct (roomCalEnabled (cal (finalizeRoomCalibrationIfDue sqrt e x))
                && roomCalComplete (cal (finalizeRoomCalibrationIfDue sqrt e x)))
  end.
  - cbn [cal set_ACTIVE_TH set_cal]. unfold cal_stats in *.
    cbn [calCount calMean calM2 calMinDb calMaxDb set_CAL_TH]. rewrite F.
    split_ifs; reflexivity.
  - rewrite F. split_ifs; reflexivity.
Qed.

Lemma cal_loop_sleep (t : Tick) (g : Globals) : cal (loop_sleep t g) = cal g.
Proof.
  unfold loop_sleep. split_ifs; reflexivity.
Qed.

Lemma cal_loop_display (t : Tick) (g : Globals) : cal (fst (loop_display t g)) = cal g.
Proof.
  unfold loop_display. split_ifs; reflexivity.
Qed.

(** An iteration outside normal mode grants nothing and takes no
    calibration sample. *)
Lemma loop_not_normal (sqrt : float -> float) (t : Tick) (g : Globals) :
  is_normal (deviceMode t) = false ->
  granted (snd (loop sqrt t g)) = false
  /\ cal_stats (cal (fst (loop sqrt t g))) = cal_stats (cal g).
Proof.
  intro N.
  destruct (loop_sense_frame t g) as (_ & C1 & _).
  destruct (WindowState_eqb (tick_ws t g) LESSON) eqn:W.
  - assert (W' : tick_ws t g = LESSON)
      by (destruct (tick_ws t g); discriminate || reflexivity).
    destruct (inSleepMode (loop_sleep t (loop_sense t g))) eqn:S.
    + rewrite (loop_lesson_asleep sqrt t g W' S). cbn [fst snd granted].
      rewrite cal_loop_sleep, C1. split; reflexivity.
    + rewrite (loop_lesson_awake sqrt t g W' S). cbv zeta.
      rewrite N, andb_false_r.
      destruct (flag_loop_display t (loop_before_reward sqrt t g)) as [_ D].
      split; [exact D|].
      rewrite cal_loop_display. unfold loop_before_reward.
      rewrite (stats_loop_calibrate sqrt t _ N), cal_loop_sleep, C1. reflexivity.
  - assert (W' : tick_ws t g <> LESSON) by (intro E; rewrite E in W; discriminate).
    destruct (loop_not_lesson sqrt t g W') as [E1 E2]. rewrite E1, E2, C1.
    split; reflexivity.
Qed.

(** X16: Holly Hop never ends by itself: once the device mode is MODE_HOLLY_HOP
    it is still MODE_HOLLY_HOP after any number of iterations, whatever the
    button does and however far the clock runs past [hollyHopEndAt] (a
    restart apart, which ends the run); in all those iterations no reward
    is granted and the calibration statistics take no sample. *)
Theorem holly_hop_never_ends (sqrt : float -> float) (ins : list (bool * Tick))
  (b : Button.State) (g : Globals) :
  Button.deviceMode b = MODE_HOLLY_HOP ->
  Button.deviceMode (fst (fst (sketch_run sqrt ins b g))) = MODE_HOLLY_HOP
  /\ no_grant (snd (sketch_run sqrt ins b g)) = true
  /\ cal_stats (cal (snd (fst (sketch_run sqrt ins b g)))) = cal_stats (cal g).
Proof.
  revert b g. induction ins as [|[btn t] ins IH]; intros b g H.
  - cbn. repeat split. exact H.
  - cbn [sketch_run]. unfold sketch_loop.
    pose proof (buttonHandling_keeps_holly_hop btn (u32 (nowMs t)) b H) as K.
    destruct (Button.buttonHandling btn (u32 (nowMs t)) b) as [b1 restart].
    cbn [fst] in K.
    destruct restart.
    + cbn. repeat split. exact H.
    + assert (N : is_normal (deviceMode (with_deviceMode (Button.deviceMode b1) t))
                  = false) by (rewrite K; reflexivity).
      destruct (loop_not_normal sqrt _ g N) as [G C].
      destruct (loop sqrt (with_deviceMode (Button.deviceMode b1) t) g) as [g1 o].
      cbn [fst snd] in G, C.
      destruct (IH b1 g1 K) as (M & NG & CS).
      destruct (sketch_run sqrt ins b1 g1) as [[b2 g2] os].
      cbn [fst snd] in *. unfold no_grant in *. cbn [forallb]. rewrite G.
      cbn [negb andb]. repeat split; try assumption. congruence.
Qed.

Lemma holly_hop_never_ends_witness :
  Button.deviceMode hop_b = MODE_HOLLY_HOP
  /\ Button.deviceMode
       (fst (fst (sketch_run sqrt_approx hop_ins hop_b (initial_globals 0))))
     = MODE_HOLLY_HOP
  /\ no_grant (snd (sketch_run sqrt_approx hop_ins hop_b (initial_globals 0))) = true
  /\ cal_stats (cal (snd (fst (sketch_run sqrt_approx hop_ins hop_b
                                 (initial_globals 0)))))
     = cal_stats (cal (initial_globals 0)).
Proof.
  assert (H : Button.deviceMode hop_b = MODE_HOLLY_HOP) by (vm_compute; reflexivity).
  split; [exact H|].
  exact (holly_hop_never_ends sqrt_approx hop_ins hop_b (initial_globals 0) H).
Defined.
(** ** The long-hold reset *)

Ltac button_cbn :=
  cbn [Button.lastButtonState Button.set_press Button.set_lastToggleAt
       Button.set_lastButtonState Button.deviceMode Button.lastToggleAt
       Button.buttonPressStart Button.wipeTriggered Button.beginExitHollyHop
       Button.enterHollyHop Button.hollyHopEndAt andb negb fst snd].

Lemma press_recorded_step (seen : list (bool * Z)) (btn : bool) (now : Z)
  (s : Button.State) :
  press_recorded seen s ->
  snd (Button.buttonHandling btn now s) = false ->
  press_recorded ((btn, now) :: seen) (fst (Button.buttonHandling btn now s)).
Proof.
  unfold press_recorded. intros H.
  destruct s as [lb ps wt lt dm he hs pe su]. cbn in H.
  unfold Button.buttonHandling. cbv zeta. button_cbn.
  destruct btn, lb; button_cbn.
  - (* released, was released *)
    intros _ P. destruct (H P) as [E _]. discriminate E.
  - (* release *)
    intros _ P. now elim P.
  - (* press *)
    destruct (usub now lt >=? Button.DEBOUNCE_MS)%Z; button_cbn.
    + destruct dm; button_cbn; split_ifs; button_cbn; try discriminate;
        intros _ P; (split; [reflexivity|left; reflexivity]).
    + split_ifs; button_cbn; try discriminate.
      all: intros _ P; destruct (H P) as [E _]; discriminate E.
  - (* held *)
    split_ifs; button_cbn; try discriminate.
    all: intros _ P; destruct (H P) as [_ I]; split; [reflexivity|right; exact I].
Qed.

Lemma button_run_press_recorded (ins : list (bool * Z)) :
  forall (seen : list (bool * Z)) (s0 s : Button.State),
    press_recorded seen s0 ->
    button_run ins s0 = Some s ->
    press_recorded (rev ins ++ seen) s.
Proof.
  induction ins as [|[btn now] ins IH]; intros seen s0 s H R.
  - cbn in R. inversion R; subst s. exact H.
  - cbn [button_run] in R.
    pose proof (press_recorded_step seen btn now s0 H) as K.
    destruct (Button.buttonHandling btn now s0) as [s1 restart].
    cbn [fst snd] in K. destruct restart; [discriminate|].
    specialize (IH ((btn, now) :: seen) s1 s (K eq_refl) R).
    cbn [rev]. rewrite <- app_assoc. exact IH.
Qed.

(** X17: The settings are wiped and the chip restarted only by a long hold: if,
    after any readings since power-up, an iteration reaches the restart,
    then it reads the button LOW, the previous iteration read it LOW too,
    and the clock (modulo 2^32) is at least 20 s past the reading of an
    earlier iteration that saw the button pressed. *)
Theorem restart_needs_long_hold (ins : list (bool * Z)) (s : Button.State)
  (btn : bool) (now : Z) :
  button_run ins Button.initial = Some s ->
  snd (Button.buttonHandling btn now s) = true ->
  btn = false
  /\ Button.lastButtonState s = false
  /\ exists p : Z, In (false, p) ins /\ p <> 0%Z /\ (20000 <= usub now p)%Z.
Proof.
  intros R W.
  assert (H0 : press_recorded [] Button.initial) by (intro P; now elim P).
  pose proof (button_run_press_recorded ins [] Button.initial s H0 R) as H.
  rewrite app_nil_r in H. unfold press_recorded in H.
  destruct s as [lb ps wt lt dm he hs pe su]. cbn in H.
  revert W. unfold Button.buttonHandling. cbv zeta. button_cbn.
  destruct btn.
  - destruct lb; button_cbn; discriminate.
  - destruct lb; button_cbn.
    + assert (Z0 : ps = 0%Z).
      { destruct (Z.eq_dec ps 0) as [E|E]; [exact E|].
        destruct (H E) as [F _]. discriminate F. }
      subst ps.
      destruct (usub now lt >=? Button.DEBOUNCE_MS)%Z; button_cbn.
      * destruct dm; button_cbn.
        -- rewrite usub_self. destruct (now =? 0)%Z; cbn; discriminate.
        -- rewrite usub_self. destruct (now =? 0)%Z; cbn; discriminate.
      * rewrite andb_false_r. cbn. discriminate.
    + destruct wt; button_cbn; [discriminate|].
      destruct (ps =? 0)%Z eqn:P; button_cbn; [discriminate|].
      apply Z.eqb_neq in P.
      destruct (usub now ps >=? 20000)%Z eqn:L; [|discriminate].
      intros _. rewrite Z.geb_leb in L. apply Z.leb_le in L.
      destruct (H P) as [_ I]. apply in_rev in I.
      split; [reflexivity|]. split; [reflexivity|].
      exists ps. repeat split; assumption.
Qed.

Lemma restart_needs_long_hold_witness :
  button_run hold_ins Button.initial = Some hold_s
  /\ snd (Button.buttonHandling false 21000 hold_s) = true
  /\ false = false
  /\ Button.lastButtonState hold_s = false
  /\ exists p : Z, In (false, p) hold_ins /\ p <> 0%Z /\ (20000 <= usub 21000 p)%Z.
Proof.
  assert (R : button_run hold_ins Button.initial = Some hold_s)
    by (vm_compute; reflexivity).
  assert (W : snd (Button.buttonHandling false 21000 hold_s) = true)
    by (vm_compute; reflexivity).
  split; [exact R|]. split; [exact W|].
  exact (restart_needs_long_hold hold_ins hold_s false 21000 R W).
Defined.
(** ** Timetable *)

Lemma forallb_below (P : Z -> bool) (n : nat) :
  forallb P (map Z.of_nat (seq 0 n)) = true ->
  forall z : Z, (0 <= z < Z.of_nat n)%Z -> P z = true.
Proof.
  intros H z Hz. rewrite forallb_forall in H. apply H.
  apply in_map_iff. exists (Z.to_nat z). split; [lia|].
  apply in_seq. lia.
Qed.

(** X18: Every time of day written as "HH:MM" parses to its minute of the day. *)
Theorem parseTimeToMins_round_trip (h m : Z) :
  (0 <= h <= 23)%Z -> (0 <= m <= 59)%Z ->
  parseTimeToMins (hh_mm h m) = (h * 60 + m)%Z.
Proof.
  intros Hh Hm.
  assert (K : forallb (fun h' => forallb (fun m' =>
                (parseTimeToMins (hh_mm h' m') =? h' * 60 + m')%Z)
                (map Z.of_nat (seq 0 60))) (map Z.of_nat (seq 0 24)) = true)
    by (vm_compute; reflexivity).
  pose proof (forallb_below _ 24 K h ltac:(lia)) as K1. cbv beta in K1.
  pose proof (forallb_below _ 60 K1 m ltac:(lia)) as K2. cbv beta in K2.
  now apply Z.eqb_eq in K2.
Qed.

Lemma parseTimeToMins_round_trip_witness :
  (0 <= 8 <= 23)%Z /\ (0 <= 50 <= 59)%Z
  /\ parseTimeToMins (hh_mm 8 50) = (8 * 60 + 50)%Z.
Proof.
  assert (Hh : (0 <= 8 <= 23)%Z) by lia.
  assert (Hm : (0 <= 50 <= 59)%Z) by lia.
  split; [exact Hh|]. split; [exact Hm|].
  exact (parseTimeToMins_round_trip 8 50 Hh Hm).
Defined.

(** X19: [parseTimeToMins] returns -1 or a minute of the day, for every string:
    no string yields a time outside [0, 1439]. *)
Theorem parseTimeToMins_range (hhmm : string) :
  parseTimeToMins hhmm = (-1)%Z \/ (0 <= parseTimeToMins hhmm <= 1439)%Z.
Proof.
  unfold parseTimeToMins. cbv zeta.
  destruct (_ || _)%Z; [left; reflexivity|].
  destruct (sscanf_d_colon_d hhmm) as [[n h] m].
  destruct (negb (n =? 2)%Z); [left; reflexivity|].
  destruct ((h <? 0)%Z || (h >? 23)%Z || (m <? 0)%Z || (m >? 59)%Z) eqn:E;
    [left; reflexivity|].
  right. rewrite !orb_false_iff in E. destruct E as [[[E1 E2] E3] E4].
  lia.
Qed.

Ltac iff_cases :=
  repeat split; first [discriminate | intros; reflexivity | intros; lia].

Lemma getWindowState_configOk (tt : Timetable) :
  well_ordered tt ->
  ((dayStart tt >=? 0) && (break1Start tt >=? 0) && (break1End tt >=? 0)
   && (lunchStart tt >=? 0) && (lunchEnd tt >=? 0) && (dayEnd tt >=? 0)
   && (dayStart tt <? break1Start tt) && (break1Start tt <? break1End tt)
   && (break1End tt <=? lunchStart tt) && (lunchStart tt <? lunchEnd tt)
   && (lunchEnd tt <? dayEnd tt))%Z = true.
Proof.
  intros (H1 & H2 & H3).
  repeat (apply andb_true_iff; split); lia.
Qed.

(** X20: With the timetable in use, on a weekday and with six boundaries that
    parse and are in order, [getWindowState] cuts the day exactly at the
    boundaries: OFF outside [dayStart, dayEnd), BREAK in [break1Start,
    break1End), LUNCH in [lunchStart, lunchEnd), LESSON in the three
    stretches in between, and never ASSEMBLY. *)
Theorem getWindowState_partition (tt : Timetable) (wd h m : Z) :
  useTimetable tt = true -> (1 <= wd <= 5)%Z -> well_ordered tt ->
  let mins := (h * 60 + m)%Z in
  let ws := getWindowState tt wd h m in
  (ws = OFF <-> (mins < dayStart tt \/ dayEnd tt <= mins)%Z)
  /\ (ws = BREAK <-> (break1Start tt <= mins < break1End tt)%Z)
  /\ (ws = LUNCH <-> (lunchStart tt <= mins < lunchEnd tt)%Z)
  /\ (ws = LESSON <->
      (dayStart tt <= mins < break1Start tt)%Z
      \/ (break1End tt <= mins < lunchStart tt)%Z
      \/ (lunchEnd tt <= mins < dayEnd tt)%Z)
  /\ ws <> ASSEMBLY.
Proof.
  intros U W O mins ws.
  pose proof (getWindowState_configOk tt O) as C.
  destruct O as (H1 & H2 & H3).
  unfold ws, getWindowState. cbv zeta. rewrite U. cbn [negb].
  replace (TIMETABLE_ENABLED =? 0)%Z with false by reflexivity.
  replace ((wd <? 1)%Z || (wd >? 5)%Z) with false
    by (symmetry; apply orb_false_iff; split; lia).
  fold (dayStart tt) (break1Start tt) (break1End tt) (lunchStart tt) (lunchEnd tt)
       (dayEnd tt).
  rewrite C. cbn [negb]. fold mins.
  destruct (mins <? dayStart tt)%Z eqn:E1; cbn [orb].
  { apply Z.ltb_lt in E1. iff_cases. }
  apply Z.ltb_ge in E1.
  destruct (mins >=? dayEnd tt)%Z eqn:E2.
  { rewrite Z.geb_leb in E2. apply Z.leb_le in E2.
    iff_cases. }
  rewrite Z.geb_leb in E2. apply Z.leb_gt in E2.
  destruct (mins <? break1Start tt)%Z eqn:E3.
  { apply Z.ltb_lt in E3. iff_cases. }
  apply Z.ltb_ge in E3.
  destruct (mins <? break1End tt)%Z eqn:E4.
  { apply Z.ltb_lt in E4. iff_cases. }
  apply Z.ltb_ge in E4.
  destruct (mins <? lunchStart tt)%Z eqn:E5.
  { apply Z.ltb_lt in E5. iff_cases. }
  apply Z.ltb_ge in E5.
  destruct (mins <? lunchEnd tt)%Z eqn:E6.
  { apply Z.ltb_lt in E6. iff_cases. }
  apply Z.ltb_ge in E6.
  iff_cases.
Qed.

Lemma getWindowState_partition_witness :
  let tt := default_timetable in
  let mins := (10 * 60 + 40)%Z in
  let ws := getWindowState tt 3 10 40 in
  useTimetable tt = true /\ (1 <= 3 <= 5)%Z /\ well_ordered tt
  /\ (ws = OFF <-> (mins < dayStart tt \/ dayEnd tt <= mins)%Z)
  /\ (ws = BREAK <-> (break1Start tt <= mins < break1End tt)%Z)
  /\ (ws = LUNCH <-> (lunchStart tt <= mins < lunchEnd tt)%Z)
  /\ (ws = LESSON <->
      (dayStart tt <= mins < break1Start tt)%Z
      \/ (break1End tt <= mins < lunchStart tt)%Z
      \/ (lunchEnd tt <= mins < dayEnd tt)%Z)
  /\ ws <> ASSEMBLY.
Proof.
  assert (U : useTimetable default_timetable = true) by reflexivity.
  assert (W : (1 <= 3 <= 5)%Z) by lia.
  assert (O : well_ordered default_timetable) by (vm_compute; intuition discriminate).
  intros tt mins ws. split; [exact U|]. split; [exact W|]. split; [exact O|].
  exact (getWindowState_partition default_timetable 3 10 40 U W O).
Defined.

(** X21: A timetable in use whose boundaries do not all parse or are out of
    order is ignored as a whole: on a weekday [getWindowState] answers from
    the built-in schedule, which is the only source of ASSEMBLY. *)
Theorem getWindowState_fallback (tt : Timetable) (wd h m : Z) :
  useTimetable tt = true -> (1 <= wd <= 5)%Z -> ~ well_ordered tt ->
  getWindowState tt wd h m = fallback_schedule (h * 60 + m).
Proof.
  intros U W O.
  unfold getWindowState. cbv zeta. rewrite U. cbn [negb].
  replace (TIMETABLE_ENABLED =? 0)%Z with false by reflexivity.
  replace ((wd <? 1)%Z || (wd >? 5)%Z) with false
    by (symmetry; apply orb_false_iff; split; lia).
  fold (dayStart tt) (break1Start tt) (break1End tt) (lunchStart tt) (lunchEnd tt)
       (dayEnd tt).
  match goal with
  | |- (if negb ?c then _ else _) = _ => destruct c eqn:C
  end.
  - exfalso. apply O. rewrite !andb_true_iff in C.
    unfold well_ordered. rewrite !Z.geb_leb in C. lia.
  - cbn [negb]. unfold fallback_schedule. rewrite !Z.geb_leb. reflexivity.
Qed.

Lemma getWindowState_fallback_witness :
  useTimetable broken_timetable = true /\ (1 <= 2 <= 5)%Z
  /\ ~ well_ordered broken_timetable
  /\ getWindowState broken_timetable 2 10 30 = fallback_schedule (10 * 60 + 30).
Proof.
  assert (U : useTimetable broken_timetable = true) by reflexivity.
  assert (W : (1 <= 2 <= 5)%Z) by lia.
  assert (O : ~ well_ordered broken_timetable).
  { intros [[H _] _]. vm_compute in H. apply H. reflexivity. }
  split; [exact U|]. split; [exact W|]. split; [exact O|].
  exact (getWindowState_fallback broken_timetable 2 10 30 U W O).
Defined.
(** ** LED colour *)

Lemma to_uint8_in (q : Q) (n m : Z) :
  (0 <= n)%Z -> (m <= 255)%Z -> inject_Z n <= q -> q <= inject_Z m ->
  to_uint8 (Fin q) = Some (Qfloor q) /\ (n <= Qfloor q <= m)%Z.
Proof.
  intros Hn Hm H1 H2.
  assert (B : (n <= Qfloor q <= m)%Z).
  { split.
    - rewrite <- (Qfloor_Z n). now apply Qfloor_resp_le.
    - rewrite <- (Qfloor_Z m). now apply Qfloor_resp_le. }
  split; [|exact B].
  unfold to_uint8, Qtrunc.
  assert (P : 0 <= q).
  { apply Qle_trans with (inject_Z n); [|exact H1].
    change 0 with (inject_Z 0). rewrite <- Zle_Qle. exact Hn. }
  replace (Qltb q 0) with false by (symmetry; q_reflect; exact P).
  cbv zeta.
  replace ((0 <=? Qfloor q)%Z && (Qfloor q <=? 255)%Z) with true; [reflexivity|].
  symmetry. apply andb_true_iff. split; apply Z.leb_le; lia.
Qed.

(** The interpolation parameter of a ramp from [lo] to [hi]. *)
Lemma ramp_parameter (lo hi d : Q) :
  lo < d -> d <= hi ->
  clampf ((Fin d - Fin lo) / (Fin hi - Fin lo))%float (Fin 0.0) (Fin 1.0)
  = Fin ((d + - lo) / (hi + - lo))
  /\ 0 <= (d + - lo) / (hi + - lo) <= 1.
Proof.
  intros H1 H2.
  assert (P : 0 < hi + - lo) by lra.
  assert (B : 0 <= (d + - lo) / (hi + - lo) <= 1).
  { split.
    - apply Qle_shift_div_l; [exact P|]. lra.
    - apply Qle_shift_div_r; [exact P|]. lra. }
  split; [|exact B].
  cbn [fsub fopp fadd fdiv].
  replace (Qeq_bool (hi + - lo) 0) with false
    by (symmetry; apply Qeqb_false; lra).
  apply clampf_fixed. right. eexists. split; [reflexivity|]. destruct B. split; lra.
Qed.

Lemma ramp_monotone (lo hi d1 d2 : Q) :
  lo < hi -> d1 <= d2 -> (d1 + - lo) / (hi + - lo) <= (d2 + - lo) / (hi + - lo).
Proof.
  intros H1 H2. unfold Qdiv. apply Qmult_le_compat_r; [lra|].
  apply Qinv_le_0_compat. lra.
Qed.

Lemma finite_thresholds_th3 (th : Thresholds) :
  finite_thresholds th = true -> exists g a r : Q, th = th3 g a r.
Proof.
  destruct th as [[g| | |] [a| | |] [r| | |]]; try discriminate.
  intros _. exists g, a, r. reflexivity.
Qed.

(** [updateLEDs] on the amber ramp. *)
Lemma updateLEDs_amber (yb : string) (g a r d : Q) (z : ColorZone) :
  z <> Z_RED -> g < d -> d <= a ->
  updateLEDs yb (th3 g a r) z (Fin d)
  = Some (Qfloor (ramp g a d * 180.0), Qfloor (255.0 + - (ramp g a d * 155.0)))
  /\ (0 <= Qfloor (ramp g a d * 180.0) <= 180)%Z
  /\ (100 <= Qfloor (255.0 + - (ramp g a d * 155.0)) <= 255)%Z.
Proof.
  intros Z H1 H2.
  destruct (ramp_parameter g a d H1 H2) as [E [B1 B2]]. fold (ramp g a d) in *.
  set (T := ramp g a d) in *.
  destruct (to_uint8_in (T * 180.0) 0 180 ltac:(lia) ltac:(lia)
              ltac:(unfold inject_Z; lra) ltac:(unfold inject_Z; lra)) as [U1 R1].
  destruct (to_uint8_in (255.0 + - (T * 155.0)) 100 255 ltac:(lia) ltac:(lia)
              ltac:(unfold inject_Z; lra) ltac:(unfold inject_Z; lra)) as [U2 R2].
  split; [|split; assumption].
  unfold updateLEDs, th3. cbv zeta. cbn [greenMax amberMax redWarnDb].
  replace (Fin d <=? Fin g)%float with false
    by (symmetry; cbn [fle]; q_reflect; exact H1).
  replace (Fin d <=? Fin a)%float with true
    by (symmetry; cbn [fle]; q_reflect; exact H2).
  rewrite E. cbn [fmul fsub fadd fopp]. rewrite U1, U2.
  destruct z; try reflexivity. now elim Z.
Qed.

(** [updateLEDs] on the deep-amber ramp. *)
Lemma updateLEDs_deep (yb : string) (g a r d : Q) (z : ColorZone) :
  z <> Z_RED -> g < d -> a < d -> d <= r ->
  updateLEDs yb (th3 g a r) z (Fin d)
  = Some (Qfloor (180.0 + ramp a r d * (255.0 + Qopp 180.0)),
          Qfloor (100.0 + - (ramp a r d * 100.0)))
  /\ (180 <= Qfloor (180.0 + ramp a r d * (255.0 + Qopp 180.0)) <= 255)%Z
  /\ (0 <= Qfloor (100.0 + - (ramp a r d * 100.0)) <= 100)%Z.
Proof.
  intros Z H0 H1 H2.
  destruct (ramp_parameter a r d H1 H2) as [E [B1 B2]]. fold (ramp a r d) in *.
  set (T := ramp a r d) in *.
  destruct (to_uint8_in (180.0 + T * (255.0 + Qopp 180.0)) 180 255 ltac:(lia) ltac:(lia)
              ltac:(unfold inject_Z; lra) ltac:(unfold inject_Z; lra)) as [U1 R1].
  destruct (to_uint8_in (100.0 + - (T * 100.0)) 0 100 ltac:(lia) ltac:(lia)
              ltac:(unfold inject_Z; lra) ltac:(unfold inject_Z; lra)) as [U2 R2].
  split; [|split; assumption].
  unfold updateLEDs, th3. cbv zeta. cbn [greenMax amberMax redWarnDb].
  replace (Fin d <=? Fin g)%float with false
    by (symmetry; cbn [fle]; q_reflect; exact H0).
  replace (Fin d <=? Fin a)%float with false
    by (symmetry; cbn [fle]; q_reflect; exact H1).
  replace (Fin d <=? Fin r)%float with true
    by (symmetry; cbn [fle]; q_reflect; exact H2).
  rewrite E. cbn [fmul fsub fadd fopp]. rewrite U1, U2.
  destruct z; try reflexivity. now elim Z.
Qed.

(** The four shapes of the colour outside the RED zone. *)
Lemma updateLEDs_shape (yb : string) (g a r : Q) (z : ColorZone) (db : float) :
  z <> Z_RED ->
  ((db <=? Fin g)%float = true
   /\ updateLEDs yb (th3 g a r) z db = Some (0, 255)%Z)
  \/ (exists d, db = Fin d /\ g < d /\ d <= a
      /\ updateLEDs yb (th3 g a r) z db
         = Some (Qfloor (ramp g a d * 180.0), Qfloor (255.0 + - (ramp g a d * 155.0)))
      /\ (0 <= Qfloor (ramp g a d * 180.0) <= 180)%Z
      /\ (100 <= Qfloor (255.0 + - (ramp g a d * 155.0)) <= 255)%Z)
  \/ (exists d, db = Fin d /\ g < d /\ a < d /\ d <= r
      /\ updateLEDs yb (th3 g a r) z db
         = Some (Qfloor (180.0 + ramp a r d * (255.0 + Qopp 180.0)),
                 Qfloor (100.0 + - (ramp a r d * 100.0)))
      /\ (180 <= Qfloor (180.0 + ramp a r d * (255.0 + Qopp 180.0)) <= 255)%Z
      /\ (0 <= Qfloor (100.0 + - (ramp a r d * 100.0)) <= 100)%Z)
  \/ ((db <=? Fin g)%float = false /\ (db <=? Fin a)%float = false
      /\ (db <=? Fin r)%float = false
      /\ updateLEDs yb (th3 g a r) z db
         = Some (255, if isSendClassroom yb then 80 else 0)%Z).
Proof.
  intro Z.
  destruct (db <=? Fin g)%float eqn:E1.
  { left. split; [reflexivity|]. unfold updateLEDs, th3. cbv zeta.
    cbn [greenMax amberMax redWarnDb]. rewrite E1.
    destruct z; try reflexivity. now elim Z. }
  destruct (db <=? Fin a)%float eqn:E2.
  { right; left. destruct db as [d| | |]; try discriminate.
    cbn [fle] in E1, E2. q_reflect. exists d.
    destruct (updateLEDs_amber yb g a r d z Z E1 E2) as (U & R1 & R2).
    repeat (split; [assumption || reflexivity|]). assumption. }
  destruct (db <=? Fin r)%float eqn:E3.
  { right; right; left. destruct db as [d| | |]; try discriminate.
    cbn [fle] in E1, E2, E3. q_reflect. exists d.
    destruct (updateLEDs_deep yb g a r d z Z E1 E2 E3) as (U & R1 & R2).
    repeat (split; [assumption || reflexivity|]). assumption. }
  right; right; right. repeat (split; [reflexivity|]).
  unfold updateLEDs, th3. cbv zeta. cbn [greenMax amberMax redWarnDb].
  rewrite E1, E2, E3. destruct z; try reflexivity.
Qed.

Lemma guarded_finite (band : string) (th : Thresholds) :
  guarded band th -> finite_thresholds th = true.
Proof.
  intros [_ H]. unfold in_guardrails, within in H.
  pose proof (guardrailsForBand_cases (Some band)) as Hc. simpl in Hc.
  destruct th as [g a r]. unfold finite_thresholds.
  cbn [greenMax amberMax redWarnDb] in *.
  destruct Hc as [E|[E|[E|[E|[E|[]]]]]]; rewrite <- E in H;
    cbn [gMin gMax aMin aMax rMin rMax gr6] in H;
    rewrite !andb_true_iff in H; destruct H as [[[G1 G2] [A1 A2]] [R1 R2]];
    (destruct g; try discriminate G1; try discriminate G2);
    (destruct a; try discriminate A1; try discriminate A2);
    (destruct r; try discriminate R1; try discriminate R2); reflexivity.
Qed.

(** X22: With thresholds that keep their gaps within the guardrails of the
    band, as [applyGuardrails] leaves them, [updateLEDs] never converts a
    value that does not fit a byte: for every level (NaN and the infinities
    included) and zone both conversions are defined, and the red and green
    channels are between 0 and 255.  Within the guardrails the thresholds
    lie between 38 and 66 and at least 2 apart, so no difference or quotient
    of the ramps leaves the range of a float. *)
Theorem updateLEDs_defined (yb : string) (th : Thresholds) (z : ColorZone)
  (db : float) :
  guarded yb th ->
  exists r g : Z,
    updateLEDs yb th z db = Some (r, g)
    /\ (0 <= r <= 255)%Z /\ (0 <= g <= 255)%Z.
Proof.
  intro G. pose proof (guarded_finite yb th G) as F.
  destruct (finite_thresholds_th3 th F) as (g & a & r & ->).
  assert (S : (0 <= (if isSendClassroom yb then 80 else 0) <= 255)%Z)
    by (destruct (isSendClassroom yb); lia).
  assert (D : z = Z_RED \/ z <> Z_RED)
    by (destruct z; (left; reflexivity) || (right; discriminate)).
  destruct D as [->|Z].
  { eexists _, _. split; [reflexivity|]. split; [lia|exact S]. }
  destruct (updateLEDs_shape yb g a r z db Z)
    as [[_ U]|[(d & _ & _ & _ & U & R1 & R2)|[(d & _ & _ & _ & _ & U & R1 & R2)
       |(_ & _ & _ & U)]]];
    rewrite U; eexists _, _; (split; [reflexivity|]); split; try lia; exact S.
Qed.

Lemma updateLEDs_defined_witness :
  guarded "Y2Y3" (th3 49 52 55)
  /\ exists r g : Z,
       updateLEDs "Y2Y3" (th3 49 52 55) Z_AMBER (Fin 50.5) = Some (r, g)
       /\ (0 <= r <= 255)%Z /\ (0 <= g <= 255)%Z.
Proof.
  assert (G : guarded "Y2Y3" (th3 49 52 55)) by (split; reflexivity).
  split; [exact G|].
  exact (updateLEDs_defined "Y2Y3" (th3 49 52 55) Z_AMBER (Fin 50.5) G).
Defined.

Lemma ordered_thresholds_th3 (th : Thresholds) :
  ordered_thresholds th = true ->
  exists g a r : Q, th = th3 g a r /\ g <= a /\ a <= r.
Proof.
  unfold ordered_thresholds. intro H. rewrite !andb_true_iff in H.
  destruct H as [[F H1] H2].
  destruct (finite_thresholds_th3 th F) as (g & a & r & ->).
  cbn [th3 greenMax amberMax redWarnDb fle] in H1, H2. q_reflect.
  exists g, a, r. repeat split; assumption.
Qed.

Lemma some_pair_inj (a b c d : Z) : Some (a, b) = Some (c, d) -> a = c /\ b = d.
Proof.
  intro H. inversion H. split; reflexivity.
Qed.

Lemma fle_Fin_Fin (d1 d2 : Q) : (Fin d1 <=? Fin d2)%float = true -> d1 <= d2.
Proof.
  cbn [fle]. intro H. q_reflect. exact H.
Qed.

(** X23: The colour gets redder, never greener, as the level rises: with finite
    thresholds in order and the zone held fixed, a level at least as high
    gives a red channel at least as high, and (outside SEND classrooms,
    whose red keeps some green) a green channel at most as high. *)
Theorem updateLEDs_redder_when_louder (yb : string) (th : Thresholds)
  (z : ColorZone) (db1 db2 : float) (r1 g1 r2 g2 : Z) :
  ordered_thresholds th = true ->
  (db1 <=? db2)%float = true ->
  updateLEDs yb th z db1 = Some (r1, g1) ->
  updateLEDs yb th z db2 = Some (r2, g2) ->
  (r1 <= r2)%Z /\ (isSendClassroom yb = false -> (g2 <= g1)%Z).
Proof.
  intros O L U1 U2.
  destruct (ordered_thresholds_th3 th O) as (g & a & r & -> & Hga & Har).
  assert (D : z = Z_RED \/ z <> Z_RED)
    by (destruct z; (left; reflexivity) || (right; discriminate)).
  destruct D as [->|Z].
  { cbn in U1, U2. rewrite U1 in U2. inversion U2; subst. split; [lia|intros _; lia]. }
  destruct (updateLEDs_shape yb g a r z db1 Z)
    as [[C1 S1]|[(d1 & E1 & A1 & B1 & S1 & R1 & G1)
       |[(d1 & E1 & A1 & B1 & C1 & S1 & R1 & G1)|(A1 & B1 & C1 & S1)]]];
    rewrite S1 in U1; apply some_pair_inj in U1; destruct U1 as [Er1 Eg1];
    subst r1 g1; clear S1;
    destruct (updateLEDs_shape yb g a r z db2 Z)
      as [[C2 S2]|[(d2 & E2 & A2 & B2 & S2 & R2 & G2)
         |[(d2 & E2 & A2 & B2 & C2 & S2 & R2 & G2)|(A2 & B2 & C2 & S2)]]];
    rewrite S2 in U2; apply some_pair_inj in U2; destruct U2 as [Er2 Eg2];
    subst r2 g2; clear S2.
  - (* green, green *) split; [lia|intros _; lia].
  - split; [lia|intros _; lia].
  - split; [lia|intros _; lia].
  - split; [lia|]. intros ->. lia.
  - (* amber, green *)
    subst db1. pose proof (fle_trans _ _ _ L C2) as K. apply fle_Fin_Fin in K. lra.
  - (* amber, amber *)
    subst db1 db2. apply fle_Fin_Fin in L.
    pose proof (ramp_monotone g a d1 d2 ltac:(lra) L) as M.
    fold (ramp g a d1) (ramp g a d2) in M.
    split; [|intros _]; apply Qfloor_resp_le; lra.
  - split; [lia|intros _; lia].
  - split; [lia|]. intros ->. lia.
  - (* deep, green *)
    subst db1. pose proof (fle_trans _ _ _ L C2) as K. apply fle_Fin_Fin in K. lra.
  - (* deep, amber *)
    subst db1 db2. apply fle_Fin_Fin in L. lra.
  - (* deep, deep *)
    subst db1 db2. apply fle_Fin_Fin in L.
    pose proof (ramp_monotone a r d1 d2 ltac:(lra) L) as M.
    fold (ramp a r d1) (ramp a r d2) in M.
    split; [|intros _]; apply Qfloor_resp_le; lra.
  - split; [lia|]. intros ->. lia.
  - (* red, green *)
    pose proof (fle_trans _ _ _ L C2) as K. congruence.
  - subst db2.
    assert (K : (Fin d2 <=? Fin a)%float = true) by (cbn [fle]; q_reflect; exact B2).
    pose proof (fle_trans _ _ _ L K). congruence.
  - subst db2.
    assert (K : (Fin d2 <=? Fin r)%float = true) by (cbn [fle]; q_reflect; exact C2).
    pose proof (fle_trans _ _ _ L K). congruence.
  - split; [lia|intros _; lia].
Qed.

Lemma updateLEDs_redder_when_louder_witness :
  ordered_thresholds (th3 49 52 55) = true
  /\ (Fin 50 <=? Fin 53.5)%float = true
  /\ updateLEDs "Y2Y3" (th3 49 52 55) Z_AMBER (Fin 50) = Some (60, 203)%Z
  /\ updateLEDs "Y2Y3" (th3 49 52 55) Z_AMBER (Fin 53.5) = Some (217, 50)%Z
  /\ (60 <= 217)%Z /\ (isSendClassroom "Y2Y3" = false -> (50 <= 203)%Z).
Proof.
  assert (O : ordered_thresholds (th3 49 52 55) = true) by reflexivity.
  assert (L : (Fin 50 <=? Fin 53.5)%float = true) by reflexivity.
  assert (U1 : updateLEDs "Y2Y3" (th3 49 52 55) Z_AMBER (Fin 50) = Some (60, 203)%Z)
    by (vm_compute; reflexivity).
  assert (U2 : updateLEDs "Y2Y3" (th3 49 52 55) Z_AMBER (Fin 53.5) = Some (217, 50)%Z)
    by (vm_compute; reflexivity).
  split; [exact O|]. split; [exact L|]. split; [exact U1|]. split; [exact U2|].
  exact (updateLEDs_redder_when_louder "Y2Y3" (th3 49 52 55) Z_AMBER (Fin 50)
           (Fin 53.5) 60 203 217 50 O L U1 U2).
Defined.
(** ** Sleep *)

Lemma sleep_fields_finalize (sqrt : float -> float) (epoch : Z) (g : Globals) :
  silenceStart (finalizeRoomCalibrationIfDue sqrt epoch g) = silenceStart g
  /\ timetable (finalizeRoomCalibrationIfDue sqrt epoch g) = timetable g.
Proof.
  unfold finalizeRoomCalibrationIfDue. split_ifs; split; reflexivity.
Qed.

Lemma sleep_fields_calibrate (sqrt : float -> float) (t : Tick) (g : Globals) :
  silenceStart (loop_calibrate sqrt t g) = silenceStart g
  /\ timetable (loop_calibrate sqrt t g) = timetable g.
Proof.
  unfold loop_calibrate. cbv zeta.
  match goal with
  | |- context [finalizeRoomCalibrationIfDue sqrt ?e ?x] =>
      destruct (sleep_fields_finalize sqrt e x) as [F1 F2];
      destruct (roomCalEnabled (cal (finalizeRoomCalibrationIfDue sqrt e x))
                && roomCalComplete (cal (finalizeRoomCalibrationIfDue sqrt e x)));
      simpl; rewrite F1, F2
  end; split_ifs; split; reflexivity.
Qed.

Lemma sleep_fields_display (t : Tick) (g : Globals) :
  silenceStart (fst (loop_display t g)) = silenceStart g
  /\ inSleepMode (fst (loop_display t g)) = inSleepMode g
  /\ timetable (fst (loop_display t g)) = timetable g.
Proof.
  unfold loop_display. split_ifs; repeat split; reflexivity.
Qed.

(** After the sleep detection nothing else in the iteration touches the
    sleep state or the timetable. *)
Lemma sleep_fields_loop (sqrt : float -> float) (t : Tick) (g : Globals) :
  let g1 := fst (loop sqrt t g) in
  let gs := if WindowState_eqb (tick_ws t g) LESSON
            then loop_sleep t (loop_sense t g) else loop_sense t g in
  silenceStart g1 = silenceStart gs
  /\ inSleepMode g1 = inSleepMode gs
  /\ timetable g1 = timetable g.
Proof.
  cbv zeta.
  destruct (loop_sense_frame t g) as (_ & _ & T1 & _).
  destruct (loop_sleep_frame t (loop_sense t g)) as (_ & _ & T2 & _).
  destruct (WindowState_eqb (tick_ws t g) LESSON) eqn:W.
  - assert (W' : tick_ws t g = LESSON)
      by (destruct (tick_ws t g); discriminate || reflexivity).
    destruct (inSleepMode (loop_sleep t (loop_sense t g))) eqn:S.
    + rewrite (loop_lesson_asleep sqrt t g W' S). cbn [fst].
      rewrite S, T2, T1. repeat split.
    + rewrite (loop_lesson_awake sqrt t g W' S). cbv zeta.
      assert (E : silenceStart (loop_before_reward sqrt t g)
                  = silenceStart (loop_sleep t (loop_sense t g))
                  /\ inSleepMode (loop_before_reward sqrt t g) = false
                  /\ timetable (loop_before_reward sqrt t g) = timetable g).
      { unfold loop_before_reward.
        destruct (sleep_fields_calibrate sqrt t (loop_sleep t (loop_sense t g)))
          as [F1 F2].
        rewrite F1, F2, sleep_loop_calibrate, S, T2, T1. repeat split. }
      destruct E as (E1 & E2 & E3).
      set (g2 := loop_before_reward sqrt t g) in *.
      destruct (negb (rewardShowing (reward g2)) && is_normal (deviceMode t)).
      * destruct (snd (rewardLogic _ _ _ _)).
        -- cbn [fst silenceStart inSleepMode timetable set_reward].
           rewrite E1, E2, E3. repeat split.
        -- match goal with
           | |- context [loop_display t ?x] =>
               destruct (sleep_fields_display t x) as (D1 & D2 & D3)
           end.
           rewrite D1, D2, D3. cbn [silenceStart inSleepMode timetable set_reward].
           rewrite E1, E2, E3. repeat split.
      * destruct (sleep_fields_display t g2) as (D1 & D2 & D3).
        rewrite D1, D2, D3, E1, E2, E3. repeat split.
  - assert (W' : tick_ws t g <> LESSON) by (intro E; rewrite E in W; discriminate).
    destruct (loop_not_lesson sqrt t g W') as [E1 _]. rewrite E1, T1. repeat split.
Qed.

Lemma silent_since_snoc (tt : Timetable) (start : Z) (seen : list Tick) (t : Tick) :
  silent_since tt start seen -> silent_tick tt t ->
  silent_since tt start (seen ++ [t]).
Proof.
  intros (ts1 & t0 & ts2 & E & S & F) H.
  exists ts1, t0, (ts2 ++ [t]). split; [|split; [exact S|]].
  - rewrite E, <- app_assoc. reflexivity.
  - rewrite app_comm_cons. apply Forall_app. split; [exact F|].
    constructor; [exact H|constructor].
Qed.

(** What the sleep detection does to the silence timer. *)
Lemma loop_sleep_silenceStart (t : Tick) (g : Globals) :
  silenceStart (loop_sleep t g)
  = if (avgDB t <? SLEEP_DB_THRESHOLD)%float
    then if (silenceStart g =? 0)%Z then u32 (nowMs t) else silenceStart g
    else 0%Z.
Proof.
  unfold loop_sleep. cbv zeta. split_ifs; reflexivity.
Qed.

Lemma silence_recorded_loop (sqrt : float -> float) (seen : list Tick) (t : Tick)
  (g : Globals) :
  silence_recorded (timetable g) seen g ->
  silence_recorded (timetable g) (seen ++ [t]) (fst (loop sqrt t g)).
Proof.
  intros H.
  destruct (sleep_fields_loop sqrt t g) as (S & _ & _). cbv zeta in S.
  unfold silence_recorded. rewrite S. clear S.
  destruct (loop_sense_sleep_frame t g) as (_ & S1 & _).
  destruct (WindowState_eqb (tick_ws t g) LESSON) eqn:W.
  - rewrite loop_sleep_silenceStart, S1.
    destruct (avgDB t <? SLEEP_DB_THRESHOLD)%float eqn:A; [|intro N; now elim N].
    assert (ST : silent_tick (timetable g) t) by (intros _; exact A).
    destruct (silenceStart g =? 0)%Z eqn:Z0.
    + intros _. exists seen, t, []. split; [reflexivity|]. split; [reflexivity|].
      constructor; [exact ST|constructor].
    + intro N. apply silent_since_snoc; [apply H; exact N|exact ST].
  - rewrite S1. intro N. apply silent_since_snoc; [apply H; exact N|].
    intro L. unfold tick_ws in W. rewrite L in W. discriminate.
Qed.

Lemma silence_recorded_run (sqrt : float -> float) (ts : list Tick) :
  forall (seen : list Tick) (g : Globals),
    silence_recorded (timetable g) seen g ->
    silence_recorded (timetable g) (seen ++ ts) (fst (run sqrt ts g))
    /\ timetable (fst (run sqrt ts g)) = timetable g.
Proof.
  induction ts as [|t ts IH]; intros seen g H.
  - cbn [run fst]. rewrite app_nil_r. split; [exact H|reflexivity].
  - rewrite run_cons. cbn [fst].
    destruct (sleep_fields_loop sqrt t g) as (_ & _ & T). cbv zeta in T.
    pose proof (silence_recorded_loop sqrt seen t g H) as K.
    rewrite <- T in K.
    destruct (IH (seen ++ [t]) (fst (loop sqrt t g)) K) as [K1 K2].
    rewrite <- app_assoc in K1. cbn [app] in K1.
    rewrite T in K1, K2. split; assumption.
Qed.

(** What it takes for the sleep detection to put an awake device to sleep. *)
Lemma loop_sleep_falls_asleep (t : Tick) (g : Globals) :
  inSleepMode g = false -> inSleepMode (loop_sleep t g) = true ->
  (avgDB t <? SLEEP_DB_THRESHOLD)%float = true
  /\ (avgDB t >=? WAKE_DB_THRESHOLD)%float = false
  /\ silenceStart g <> 0%Z
  /\ (SILENCE_DURATION_MS <= usub (u32 (nowMs t)) (silenceStart g))%Z.
Proof.
  destruct g as [yb at_ rw cl tt ism ss lst led hns cz lw lcs].
  cbn [inSleepMode silenceStart]. intros ->.
  unfold loop_sleep. cbv zeta.
  cbn [inSleepMode silenceStart set_silenceStart set_inSleepMode].
  destruct (avgDB t <? SLEEP_DB_THRESHOLD)%float;
    [|cbn [inSleepMode silenceStart set_silenceStart set_inSleepMode];
      rewrite andb_false_r; discriminate].
  destruct (ss =? 0)%Z eqn:Z1;
    cbn [inSleepMode silenceStart set_silenceStart set_inSleepMode negb andb].
  - rewrite usub_self. change (0 >=? SILENCE_DURATION_MS)%Z with false.
    cbn [inSleepMode]. rewrite andb_false_r. discriminate.
  - apply Z.eqb_neq in Z1.
    destruct (usub (u32 (nowMs t)) ss >=? SILENCE_DURATION_MS)%Z eqn:D;
      cbn [inSleepMode]; [|rewrite andb_false_r; discriminate].
    rewrite Z.geb_leb in D. apply Z.leb_le in D.
    destruct (avgDB t >=? WAKE_DB_THRESHOLD)%float; cbn [andb inSleepMode];
      [discriminate|].
    intros _. repeat split; assumption.
Qed.

(** X24: The device falls asleep only after a stretch of silence: if it runs
    from a state whose silence timer is not running, is awake after the
    iterations [ts] and asleep after one more iteration [t], then [t] is a
    LESSON iteration that reads an average below SLEEP_DB_THRESHOLD and not
    at or above WAKE_DB_THRESHOLD, and some iteration of [ts] lies at least
    SILENCE_DURATION_MS (modulo 2^32) back such that it and every iteration
    since was outside LESSON or read an average below SLEEP_DB_THRESHOLD. *)
Theorem falls_asleep_only_after_silence (sqrt : float -> float) (ts : list Tick)
  (t : Tick) (g0 : Globals) :
  silenceStart g0 = 0%Z ->
  inSleepMode (fst (run sqrt ts g0)) = false ->
  inSleepMode (fst (loop sqrt t (fst (run sqrt ts g0)))) = true ->
  tick_ws t (fst (run sqrt ts g0)) = LESSON
  /\ (avgDB t <? SLEEP_DB_THRESHOLD)%float = true
  /\ (avgDB t >=? WAKE_DB_THRESHOLD)%float = false
  /\ exists start : Z,
       (SILENCE_DURATION_MS <= usub (u32 (nowMs t)) start)%Z
       /\ silent_since (timetable g0) start ts.
Proof.
  intros Z0 A S.
  assert (H0 : silence_recorded (timetable g0) [] g0)
    by (intro N; now elim N).
  destruct (silence_recorded_run sqrt ts [] g0 H0) as [H T]. cbn [app] in H.
  revert A S H T. generalize (fst (run sqrt ts g0)). intros g A S H T.
  destruct (sleep_fields_loop sqrt t g) as (_ & S2 & _). cbv zeta in S2.
  rewrite S2 in S. clear S2.
  destruct (loop_sense_sleep_frame t g) as (I1 & S1 & _).
  destruct (WindowState_eqb (tick_ws t g) LESSON) eqn:W; [|congruence].
  assert (W' : tick_ws t g = LESSON)
    by (destruct (tick_ws t g); discriminate || reflexivity).
  split; [exact W'|].
  rewrite <- I1 in A.
  destruct (loop_sleep_falls_asleep t (loop_sense t g) A S) as (L & K & N & D).
  split; [exact L|]. split; [exact K|].
  rewrite S1 in N, D. exists (silenceStart g). split; [exact D|].
  apply H. exact N.
Qed.

Lemma falls_asleep_only_after_silence_witness :
  let g0 := initial_globals 0 in
  let t := lesson_tick 301000 20 in
  silenceStart g0 = 0%Z
  /\ inSleepMode (fst (run sqrt_approx sleepy_ts g0)) = false
  /\ inSleepMode (fst (loop sqrt_approx t (fst (run sqrt_approx sleepy_ts g0)))) = true
  /\ tick_ws t (fst (run sqrt_approx sleepy_ts g0)) = LESSON
  /\ (avgDB t <? SLEEP_DB_THRESHOLD)%float = true
  /\ (avgDB t >=? WAKE_DB_THRESHOLD)%float = false
  /\ exists start : Z,
       (SILENCE_DURATION_MS <= usub (u32 (nowMs t)) start)%Z
       /\ silent_since (timetable g0) start sleepy_ts.
Proof.
  assert (Z0 : silenceStart (initial_globals 0) = 0%Z) by reflexivity.
  assert (A : inSleepMode (fst (run sqrt_approx sleepy_ts (initial_globals 0))) = false)
    by (vm_compute; reflexivity).
  assert (S : inSleepMode (fst (loop sqrt_approx (lesson_tick 301000 20)
                (fst (run sqrt_approx sleepy_ts (initial_globals 0))))) = true)
    by (vm_compute; reflexivity).
  intros g0 t. split; [exact Z0|]. split; [exact A|]. split; [exact S|].
  exact (falls_asleep_only_after_silence sqrt_approx sleepy_ts
           (lesson_tick 301000 20) (initial_globals 0) Z0 A S).
Defined.
(** ** The thresholds in force stay guarded *)

Lemma guarded_no_nan (band : string) (th : Thresholds) :
  guarded band th -> no_nan th = true.
Proof.
  intros [_ H]. unfold in_guardrails, within in H.
  pose proof (guardrailsForBand_cases (Some band)) as Hc. simpl in Hc.
  destruct th as [g a r]. unfold no_nan. cbn [greenMax amberMax redWarnDb] in *.
  destruct Hc as [E|[E|[E|[E|[E|[]]]]]]; rewrite <- E in H;
    cbn [gMin gMax aMin aMax rMin rMax gr6] in H;
    rewrite !andb_true_iff in H; destruct H as [[[G1 _] [A1 _]] [R1 _]];
    (destruct g; try discriminate G1); (destruct a; try discriminate A1);
    (destruct r; try discriminate R1); reflexivity.
Qed.

Lemma applyGuardrails_guarded (band : string) (th : Thresholds) :
  no_nan th = true -> guarded band (applyGuardrails th (Some band)).
Proof.
  intro Hn. unfold guarded.
  pose proof (guardrailsForBand_cases (Some band)) as Hc. simpl in Hc.
  destruct Hc as [E|[E|[E|[E|[E|[]]]]]]; symmetry in E;
    apply (applyGuardrails_sound_for th (Some band) _ _ _ _ _ _ E);
    try exact Hn; lra.
Qed.

Lemma thresholdsForBand_no_nan (band : option string) :
  no_nan (thresholdsForBand band) = true.
Proof.
  unfold thresholdsForBand. destruct band; [|reflexivity].
  cbv zeta. split_ifs; reflexivity.
Qed.

(** A Welford update keeps the statistics finite while the count does not
    wrap. *)
Lemma updateRoomCalibration_finite (avg : float) (c : RoomCal) :
  stats_finite c -> (calCount c + 1 < 2 ^ 32)%Z ->
  stats_finite (updateRoomCalibration avg c)
  /\ (calCount (updateRoomCalibration avg c) <= calCount c + 1)%Z
  /\ CAL_TH (updateRoomCalibration avg c) = CAL_TH c.
Proof.
  intros (Fm & Fv & Hc) Hw. unfold updateRoomCalibration.
  destruct avg as [x| | |]; cbn [isfinite negb];
    try (split; [repeat split; assumption|split; [lia|reflexivity]]).
  cbv zeta.
  assert (U : u32 (calCount c + 1) = (calCount c + 1)%Z) by (apply u32_small; lia).
  rewrite U.
  split; [|split; [cbn [calCount set_stats]; lia|reflexivity]].
  unfold stats_finite. cbn [calCount calMean calM2 set_stats].
  destruct (calMean c) as [m| | |]; try discriminate.
  destruct (calM2 c) as [v| | |]; try discriminate.
  unfold of_Z. cbn [fsub fopp fadd fdiv].
  replace (Qeq_bool (inject_Z (calCount c + 1)) 0) with false.
  - cbn [fadd fmul fsub fopp isfinite]. repeat split; lia.
  - symmetry. apply Qeqb_false. change 0 with (inject_Z 0).
    rewrite inject_Z_injective. lia.
Qed.

Lemma computeCalibrated_guarded (sqrt : float -> float) (c : RoomCal) (band : string) :
  sqrt_defined sqrt -> stats_finite c -> (calCount c < 2 ^ 32)%Z ->
  guarded band (computeCalibratedThresholdsFromStats sqrt c (Some band)).
Proof.
  intros Hs (Fm & Fv & Hc) Hw. unfold computeCalibratedThresholdsFromStats.
  destruct (calCount c <? 60)%Z eqn:E.
  { apply applyGuardrails_guarded, thresholdsForBand_no_nan. }
  apply Z.ltb_ge in E. cbv zeta.
  apply applyGuardrails_guarded.
  replace (calCount c >? 1)%Z with true by (symmetry; apply Z.gtb_lt; lia).
  destruct (calMean c) as [m| | |]; try discriminate.
  destruct (calM2 c) as [v| | |]; try discriminate.
  rewrite (u32_small (calCount c - 1)) by lia.
  unfold of_Z. cbn [fdiv].
  replace (Qeq_bool (inject_Z (calCount c - 1)) 0) with false
    by (symmetry; apply Qeqb_false; change 0 with (inject_Z 0);
        rewrite inject_Z_injective; lia).
  match goal with
  | |- context [sqrt ?x] =>
      assert (N : isnan (sqrt x) = false);
        [apply Hs;
         [destruct (Fin (v / inject_Z (calCount c - 1)) <? Fin 0)%float; reflexivity
         |destruct (Fin (v / inject_Z (calCount c - 1)) <? Fin 0)%float eqn:L;
          [reflexivity|exact L]]
        |destruct (sqrt x) as [s| | |]; try discriminate N]
  end.
  - destruct (Fin s <? Fin 1.0)%float; reflexivity.
  - reflexivity.
  - reflexivity.
Qed.

Lemma thresholds_sound_fields (n : Z) (g g' : Globals) :
  th_fields g' = th_fields g -> thresholds_sound n g -> thresholds_sound n g'.
Proof.
  unfold th_fields, thresholds_sound. intro E. inversion E as [[E1 E2 E3]].
  rewrite E1, E2, E3. exact (fun H => H).
Qed.

Lemma thresholds_sound_weaken (n m : Z) (g : Globals) :
  (m <= n)%Z -> thresholds_sound n g -> thresholds_sound m g.
Proof.
  unfold thresholds_sound. intros L (S & W & N & G).
  repeat split; try assumption; try apply S; try apply G. lia.
Qed.

Lemma thresholds_sound_sample (n : Z) (avg : float) (x : Z) (g : Globals) :
  (0 <= n)%Z -> thresholds_sound (n + 1) g ->
  thresholds_sound n
    (set_lastCalSampleMs x (set_cal (updateRoomCalibration avg (cal g)) g)).
Proof.
  unfold thresholds_sound. intros Hn (S & W & N & G).
  cbn [cal yearBand ACTIVE_TH set_lastCalSampleMs set_cal].
  destruct (updateRoomCalibration_finite avg (cal g) S ltac:(lia)) as (S' & C' & T').
  rewrite T'. repeat split; try assumption; try apply S'; try apply G. lia.
Qed.

Lemma thresholds_sound_finalize (sqrt : float -> float) (n epoch : Z) (g : Globals) :
  sqrt_defined sqrt -> (0 <= n)%Z -> thresholds_sound n g ->
  thresholds_sound n (finalizeRoomCalibrationIfDue sqrt epoch g)
  /\ yearBand (finalizeRoomCalibrationIfDue sqrt epoch g) = yearBand g.
Proof.
  intros Hs Hn H. unfold finalizeRoomCalibrationIfDue. cbv zeta.
  destruct (negb (roomCalEnabled (cal g))); [split; [exact H|reflexivity]|].
  destruct (roomCalComplete (cal g)); [split; [exact H|reflexivity]|].
  destruct (_ || _); [split; [exact H|reflexivity]|].
  destruct (_ <? _)%Z; [split; [exact H|reflexivity]|].
  split; [|reflexivity].
  destruct H as (S & W & N & G). unfold thresholds_sound.
  cbn [cal yearBand ACTIVE_TH set_ACTIVE_TH set_cal CAL_TH set_CAL_TH
       set_roomCalComplete calCount calMean calM2].
  assert (K : guarded (yearBand g)
                (computeCalibratedThresholdsFromStats sqrt (cal g) (Some (yearBand g)))).
  { apply computeCalibrated_guarded; [exact Hs|exact S|lia]. }
  split; [exact S|]. split; [exact W|].
  split; [exact (guarded_no_nan _ _ K)|exact K].
Qed.

Lemma thresholds_sound_adopt (n : Z) (g : Globals) :
  thresholds_sound n g ->
  thresholds_sound n
    (set_ACTIVE_TH
       (CAL_TH (set_CAL_TH (applyGuardrails (CAL_TH (cal g)) (Some (yearBand g))) (cal g)))
       (set_cal (set_CAL_TH (applyGuardrails (CAL_TH (cal g)) (Some (yearBand g)))
                   (cal g)) g)).
Proof.
  unfold thresholds_sound. intros (S & W & N & G).
  cbn [cal yearBand ACTIVE_TH set_ACTIVE_TH set_cal CAL_TH set_CAL_TH
       calCount calMean calM2].
  pose proof (applyGuardrails_guarded (yearBand g) (CAL_TH (cal g)) N) as K.
  split; [exact S|]. split; [exact W|].
  split; [exact (guarded_no_nan _ _ K)|exact K].
Qed.

(** The calibration step keeps the thresholds sound, using up at most one
    sample. *)
Lemma thresholds_sound_calibrate (sqrt : float -> float) (n : Z) (t : Tick)
  (g : Globals) :
  sqrt_defined sqrt -> (0 <= n)%Z -> thresholds_sound (n + 1) g ->
  thresholds_sound n (loop_calibrate sqrt t g).
Proof.
  intros Hs Hn H. unfold loop_calibrate. cbv zeta.
  match goal with
  | |- context [finalizeRoomCalibrationIfDue sqrt ?e (if ?c then ?a else ?b)] =>
      assert (H2 : thresholds_sound n (if c then a else b))
  end.
  { match goal with
    | |- thresholds_sound n (if ?c then set_lastCalSampleMs ?x (set_cal ?u ?g1) else _) =>
        assert (H1 : thresholds_sound (n + 1) g1);
          [|destruct c;
            [apply thresholds_sound_sample; [exact Hn|exact H1]
            |apply (thresholds_sound_weaken (n + 1)); [lia|exact H1]]]
    end.
    destruct (_ && _ && _ && _); [|exact H].
    unfold thresholds_sound, stats_finite in H |- *.
    cbn [yearBand ACTIVE_TH cal set_cal set_roomCalStartEpoch calCount calMean
         calM2 CAL_TH].
    exact H. }
  match goal with
  | |- context [finalizeRoomCalibrationIfDue sqrt ?e ?x] =>
      destruct (thresholds_sound_finalize sqrt n e x Hs Hn H2) as [H3 _];
      set (g3 := finalizeRoomCalibrationIfDue sqrt e x) in *
  end.
  destruct (roomCalEnabled (cal g3) && roomCalComplete (cal g3)); [|exact H3].
  apply thresholds_sound_adopt. exact H3.
Qed.

Lemma th_fields_display (t : Tick) (g : Globals) :
  th_fields (fst (loop_display t g)) = th_fields g.
Proof.
  unfold loop_display. split_ifs; reflexivity.
Qed.

Lemma th_fields_sleep_sense (t : Tick) (g : Globals) :
  th_fields (loop_sleep t (loop_sense t g)) = th_fields g.
Proof.
  destruct (loop_sense_frame t g) as (A1 & C1 & _ & Y1 & _).
  destruct (loop_sleep_frame t (loop_sense t g)) as (A2 & C2 & _ & Y2 & _).
  unfold th_fields. rewrite A2, C2, Y2, A1, C1, Y1. reflexivity.
Qed.

(** Only the calibration step of an iteration touches the band, the active
    thresholds and the calibration state. *)
Lemma th_fields_loop (sqrt : float -> float) (t : Tick) (g : Globals) :
  th_fields (fst (loop sqrt t g)) = th_fields g
  \/ th_fields (fst (loop sqrt t g))
     = th_fields (loop_calibrate sqrt t (loop_sleep t (loop_sense t g))).
Proof.
  destruct (WindowState_eqb (tick_ws t g) LESSON) eqn:W.
  - assert (W' : tick_ws t g = LESSON)
      by (destruct (tick_ws t g); discriminate || reflexivity).
    destruct (inSleepMode (loop_sleep t (loop_sense t g))) eqn:S.
    + rewrite (loop_lesson_asleep sqrt t g W' S). cbn [fst].
      left. apply th_fields_sleep_sense.
    + rewrite (loop_lesson_awake sqrt t g W' S). cbv zeta. right.
      change (loop_calibrate sqrt t (loop_sleep t (loop_sense t g)))
        with (loop_before_reward sqrt t g).
      destruct (negb (rewardShowing (reward (loop_before_reward sqrt t g)))
                && is_normal (deviceMode t)).
      * destruct (snd (rewardLogic _ _ _ _)).
        -- reflexivity.
        -- rewrite th_fields_display. reflexivity.
      * apply th_fields_display.
  - assert (W' : tick_ws t g <> LESSON) by (intro E; rewrite E in W; discriminate).
    destruct (loop_not_lesson sqrt t g W') as [E1 _]. rewrite E1. left.
    destruct (loop_sense_frame t g) as (A1 & C1 & _ & Y1 & _).
    unfold th_fields. rewrite A1, C1, Y1. reflexivity.
Qed.

Lemma yearBand_finalize (sqrt : float -> float) (epoch : Z) (g : Globals) :
  yearBand (finalizeRoomCalibrationIfDue sqrt epoch g) = yearBand g.
Proof.
  unfold finalizeRoomCalibrationIfDue. split_ifs; reflexivity.
Qed.

Lemma yearBand_loop_calibrate (sqrt : float -> float) (t : Tick) (g : Globals) :
  yearBand (loop_calibrate sqrt t g) = yearBand g.
Proof.
  unfold loop_calibrate. cbv zeta.
  match goal with
  | |- context [finalizeRoomCalibrationIfDue sqrt ?e ?x] =>
      pose proof (yearBand_finalize sqrt e x) as F;
      destruct (roomCalEnabled (cal (finalizeRoomCalibrationIfDue sqrt e x))
                && roomCalComplete (cal (finalizeRoomCalibrationIfDue sqrt e x)));
      cbn [yearBand set_ACTIVE_TH set_cal]; rewrite F
  end; split_ifs; reflexivity.
Qed.

Lemma thresholds_sound_loop (sqrt : float -> float) (n : Z) (t : Tick) (g : Globals) :
  sqrt_defined sqrt -> (0 <= n)%Z -> thresholds_sound (n + 1) g ->
  thresholds_sound n (fst (loop sqrt t g))
  /\ yearBand (fst (loop sqrt t g)) = yearBand g.
Proof.
  intros Hs Hn H.
  pose proof (th_fields_sleep_sense t g) as E0.
  destruct (th_fields_loop sqrt t g) as [E|E].
  - split.
    + apply (thresholds_sound_fields n g); [exact E|].
      apply (thresholds_sound_weaken (n + 1)); [lia|exact H].
    + unfold th_fields in E. congruence.
  - split.
    + apply (thresholds_sound_fields n _ _ E).
      apply thresholds_sound_calibrate; [exact Hs|exact Hn|].
      apply (thresholds_sound_fields (n + 1) g); [exact E0|exact H].
    + unfold th_fields in E, E0.
      assert (Y : yearBand (fst (loop sqrt t g))
                  = yearBand (loop_calibrate sqrt t (loop_sleep t (loop_sense t g))))
        by congruence.
      rewrite Y, yearBand_loop_calibrate. congruence.
Qed.

Lemma thresholds_sound_run (sqrt : float -> float) (ts : list Tick) :
  sqrt_defined sqrt ->
  forall g : Globals,
    thresholds_sound (Z.of_nat (List.length ts)) g ->
    thresholds_sound 0 (fst (run sqrt ts g))
    /\ yearBand (fst (run sqrt ts g)) = yearBand g.
Proof.
  intro Hs. induction ts as [|t ts IH]; intros g H.
  - split; [exact H|reflexivity].
  - rewrite run_cons. cbn [fst].
    cbn [List.length] in H. rewrite Nat2Z.inj_succ in H.
    destruct (thresholds_sound_loop sqrt (Z.of_nat (List.length ts)) t g Hs
                ltac:(lia) H) as [H1 Y1].
    destruct (IH _ H1) as [H2 Y2]. split; [exact H2|congruence].
Qed.

(** X25: The thresholds in force never leave the guardrails: started from finite
    statistics with room in the 32-bit sample count for one sample per
    iteration, a stored calibrated triple without NaN and a guarded active
    triple, and with a square root that is defined on what is neither NaN nor
    negative, after any iterations [ACTIVE_TH] still keeps both gaps and
    lies within the guardrails of the band, whatever the inputs and however
    the learning window starts, samples, finalises and is adopted. *)
Theorem thresholds_stay_guarded (sqrt : float -> float) (ts : list Tick)
  (g : Globals) :
  sqrt_defined sqrt ->
  thresholds_sound (Z.of_nat (List.length ts)) g ->
  gap_invariant (ACTIVE_TH (fst (run sqrt ts g))) = true
  /\ in_guardrails (ACTIVE_TH (fst (run sqrt ts g)))
       (guardrailsForBand (Some (yearBand g))) = true.
Proof.
  intros Hs H.
  destruct (thresholds_sound_run sqrt ts Hs g H) as [(_ & _ & _ & G) Y].
  rewrite Y in G. exact G.
Qed.

Lemma sqrt_approx_defined : sqrt_defined sqrt_approx.
Proof.
  intros [q| | |] N L; try discriminate; try reflexivity.
  cbn [flt] in L. unfold sqrt_approx. rewrite L. reflexivity.
Qed.

Lemma thresholds_stay_guarded_witness :
  sqrt_defined sqrt_approx
  /\ thresholds_sound (Z.of_nat (List.length learned_ts)) learned_g
  /\ gap_invariant (ACTIVE_TH (fst (run sqrt_approx learned_ts learned_g))) = true
  /\ in_guardrails (ACTIVE_TH (fst (run sqrt_approx learned_ts learned_g)))
       (guardrailsForBand (Some (yearBand learned_g))) = true.
Proof.
  assert (H : thresholds_sound (Z.of_nat (List.length learned_ts)) learned_g).
  { unfold thresholds_sound, stats_finite, guarded.
    repeat split; vm_compute; first [reflexivity | discriminate]. }
  assert (C : roomCalComplete (cal (fst (run sqrt_approx learned_ts learned_g))) = true)
    by (vm_compute; reflexivity).
  split; [exact sqrt_approx_defined|]. split; [exact H|].
  exact (thresholds_stay_guarded sqrt_approx learned_ts learned_g
           sqrt_approx_defined H).
Defined.
(** ** Animations *)

(** X26: The colour wheel keeps the brightness constant: for every byte the three
    channels add up to 255 and at least one of them is off, so none of the
    arithmetic handed to [Color] is cut to a byte. *)
Theorem wheel_channels (pos : Z) :
  (0 <= pos <= 255)%Z ->
  (red_of (wheel pos) + green_of (wheel pos) + blue_of (wheel pos) = 255)%Z
  /\ (red_of (wheel pos) = 0 \/ green_of (wheel pos) = 0 \/ blue_of (wheel pos) = 0)%Z.
Proof.
  intro H.
  assert (K : forallb (fun p =>
                (red_of (wheel p) + green_of (wheel p) + blue_of (wheel p) =? 255)%Z
                && ((red_of (wheel p) =? 0) || (green_of (wheel p) =? 0)
                    || (blue_of (wheel p) =? 0))%Z)
                (map Z.of_nat (seq 0 256)) = true) by (vm_compute; reflexivity).
  pose proof (forallb_below _ 256 K pos ltac:(lia)) as P. cbv beta in P.
  apply andb_true_iff in P. destruct P as [P1 P2].
  split; [now apply Z.eqb_eq in P1|].
  rewrite !orb_true_iff, !Z.eqb_eq in P2. tauto.
Qed.

Lemma wheel_channels_witness :
  (0 <= 100 <= 255)%Z
  /\ (red_of (wheel 100) + green_of (wheel 100) + blue_of (wheel 100) = 255)%Z
  /\ (red_of (wheel 100) = 0 \/ green_of (wheel 100) = 0 \/ blue_of (wheel 100) = 0)%Z.
Proof.
  assert (H : (0 <= 100 <= 255)%Z) by lia.
  split; [exact H|]. exact (wheel_channels 100 H).
Defined.

Lemma rainbow_frame_mod (h : Z) (k : nat) :
  (0 <= h)%Z -> (h mod 256 = Z.of_nat k mod 256)%Z -> rainbow_frame h = ideal_frame k.
Proof.
  intros H0 H. unfold rainbow_frame, ideal_frame. apply map_ext_in.
  intros i Hi. apply in_seq in Hi. f_equal.
  assert (B : (0 <= Z.of_nat i * 256 / NUM_LEDS)%Z)
    by (apply Z.div_pos; [lia|reflexivity]).
  change 255%Z with (Z.ones 8). rewrite Z.land_ones by lia.
  change (2 ^ 8)%Z with 256%Z. unfold u8. rewrite Z.mod_mod by lia.
  rewrite (Z.add_mod _ h) by lia. rewrite H. rewrite <- Z.add_mod by lia.
  reflexivity.
Qed.

Lemma rainbow_run_frames (calls : list (Z * Z)) :
  forall (s : Rainbow) (k : nat),
    (0 <= hueOffset s)%Z -> (hueOffset s mod 256 = Z.of_nat k mod 256)%Z ->
    snd (rainbow_run calls s)
    = map ideal_frame (seq k (List.length (snd (rainbow_run calls s)))).
Proof.
  induction calls as [|[now1 now2] calls IH]; intros s k H0 H.
  - reflexivity.
  - cbn [rainbow_run]. unfold renderSleepingRainbow.
    destruct (usub (u32 now1) (rainbow_lastUpdate s) <? 20)%Z.
    + specialize (IH s k H0 H). destruct (rainbow_run calls s) as [s2 fs].
      cbn [snd] in *. exact IH.
    + assert (H1 : (0 <= u16 (hueOffset s + 1))%Z)
        by (unfold u16; apply Z.mod_pos_bound; lia).
      assert (H2 : (u16 (hueOffset s + 1) mod 256 = Z.of_nat (S k) mod 256)%Z).
      { unfold u16.
        rewrite (Z.mod_mod_divide (hueOffset s + 1) 65536 256)
          by (exists 256%Z; reflexivity).
        rewrite Nat2Z.inj_succ. unfold Z.succ.
        rewrite (Z.add_mod (hueOffset s)), (Z.add_mod (Z.of_nat k)) by lia.
        rewrite H. reflexivity. }
      specialize (IH (mkRainbow (u32 now2) (u16 (hueOffset s + 1))) (S k) H1 H2).
      destruct (rainbow_run calls (mkRainbow (u32 now2) (u16 (hueOffset s + 1))))
        as [s2 fs].
      cbn [snd List.length seq map] in *.
      rewrite (rainbow_frame_mod (hueOffset s) k H0 H). f_equal. exact IH.
Qed.

(** X27: The sleeping rainbow never jumps: over any sequence of calls, with any
    clock readings, the k-th frame shown is the wheel turned by k steps, for
    every k, so the wrap of the 16-bit hue offset after 65536 frames does not
    show. *)
Theorem rainbow_never_jumps (calls : list (Z * Z)) :
  let frames := snd (rainbow_run calls (mkRainbow 0 0)) in
  frames = map ideal_frame (seq 0 (List.length frames)).
Proof.
  cbv zeta. apply rainbow_run_frames; cbn [hueOffset]; [lia|reflexivity].
Qed.

Lemma breathingBlue_step : pulse_step_ok 2 breathingBlue.
Proof.
  intros now1 now2 [b d l] Hb Hd. cbn [brightness delta] in Hb, Hd.
  unfold breathingBlue. cbn [brightness delta pulse_lastUpdate].
  destruct (usub (u32 now1) l >=? 20)%Z; [|cbn; repeat split; lia].
  cbv zeta.
  destruct (b + d >=? 255)%Z eqn:E1;
    [replace (255 <=? 0)%Z with false by reflexivity
    |destruct (b + d <=? 0)%Z eqn:E2];
    cbn [fst snd brightness delta]; unfold u8;
    rewrite ?Z.geb_leb in *;
    try apply Z.leb_le in E1; try apply Z.leb_gt in E1;
    try apply Z.leb_le in E2; try apply Z.leb_gt in E2;
    rewrite Z.mod_small by lia; repeat split; lia.
Qed.

Lemma standbyCyanPulse_step : pulse_step_ok 3 standbyCyanPulse.
Proof.
  intros now1 now2 [b d l] Hb Hd. cbn [brightness delta] in Hb, Hd.
  unfold standbyCyanPulse. cbn [brightness delta pulse_lastUpdate].
  destruct (usub (u32 now1) l >=? 12)%Z; [|cbn; repeat split; lia].
  cbv zeta.
  destruct (b + d >=? 255)%Z eqn:E1;
    [replace (255 <=? 0)%Z with false by reflexivity
    |destruct (b + d <=? 0)%Z eqn:E2];
    cbn [fst snd brightness delta]; unfold u8;
    rewrite ?Z.geb_leb in *;
    try apply Z.leb_le in E1; try apply Z.leb_gt in E1;
    try apply Z.leb_le in E2; try apply Z.leb_gt in E2;
    rewrite Z.mod_small by lia; repeat split; lia.
Qed.

Lemma pulse_run_ok (d : Z) (step : Z -> Z -> Pulse -> Pulse * option Z)
  (calls : list (Z * Z)) :
  pulse_step_ok d step ->
  forall s : Pulse,
    (0 <= brightness s <= 255)%Z -> Z.abs (delta s) = d ->
    (0 <= brightness (fst (pulse_run step calls s)) <= 255)%Z
    /\ Z.abs (delta (fst (pulse_run step calls s))) = d
    /\ steps_within d (brightness s) (snd (pulse_run step calls s)).
Proof.
  intro Hs. induction calls as [|[now1 now2] calls IH]; intros s Hb Hd.
  - cbn. repeat split; assumption || lia.
  - cbn [pulse_run].
    destruct (Hs now1 now2 s Hb Hd) as (B1 & D1 & O1).
    destruct (step now1 now2 s) as [s1 o]. cbn [fst snd] in B1, D1, O1.
    destruct (IH s1 B1 D1) as (B2 & D2 & W2).
    destruct (pulse_run step calls s1) as [s2 bs]. cbn [fst snd] in *.
    split; [exact B2|]. split; [exact D2|].
    destruct o as [b|].
    + destruct O1 as [E L]. subst b. cbn [steps_within]. split; assumption.
    + subst s1. exact W2.
Qed.

(** X28: The two pulses never flash: over any sequence of calls, with any clock
    readings, the brightness of [breathingBlue] stays between 0 and 255 and
    each byte shown differs from the one before by at most 2, and the same
    holds for [standbyCyanPulse] with 3; so the conversion of the int to a
    byte never wraps. *)
Theorem pulses_never_flash (calls : list (Z * Z)) :
  (let r := pulse_run breathingBlue calls (mkPulse 0 2 0) in
   (0 <= brightness (fst r) <= 255)%Z /\ steps_within 2 0 (snd r))
  /\ (let r := pulse_run standbyCyanPulse calls (mkPulse 0 3 0) in
      (0 <= brightness (fst r) <= 255)%Z /\ steps_within 3 0 (snd r)).
Proof.
  cbv zeta. split.
  - destruct (pulse_run_ok 2 breathingBlue calls breathingBlue_step (mkPulse 0 2 0))
      as (B & _ & W); cbn; try lia. split; assumption.
  - destruct (pulse_run_ok 3 standbyCyanPulse calls standbyCyanPulse_step
                (mkPulse 0 3 0)) as (B & _ & W); cbn; try lia. split; assumption.
Qed.
